(** * DDS reference implementation: a shallow embedding and its properties

    The development follows the Python package [dds]:
    - [types.py]                  vocabulary elements, targets, constraints;
    - [normative.py]              operators, Self-QC decision table;
    - [domain_language.py]        a Domain Language and its closure check;
    - [domain_language_graph.py]  the import graph, cycles, topological order;
    - [validation.py]             semantic worlds, admissibility, rule evaluation.

    Each Python class is a module holding a record [t] and the methods of the
    class, so that fields and methods keep the names they have in the source
    ([Attribute.name], [DomainLanguage.vocab], ...). *)

From Stdlib Require Import ZArith DecimalString.
From stdpp Require Import base option list strings gmap.

Local Open Scope string_scope.
Local Open Scope list_scope.

#[local] Set Warnings "-clear-no-such-hyp".

(** ** The fragment of the Python runtime the package relies on *)

Module Py.

(** An instance of [Exception]; [msg] is what [str(e)] (and [f"{e}"]) gives. *)
Record Exc := mkExc { msg : string }.

(** What evaluating an expression gives: a value, or a raised exception. *)
Inductive Outcome (A : Type) : Type :=
| Returned (a : A)
| Raised (e : Exc).
Global Arguments Returned {A} a.
Global Arguments Raised {A} e.

(** Callables have no name in Python; the model gives each one an identity
    ([Callable.fid] below) and keeps a ghost log of the identities called, in
    call order.  A computation reads and extends the log and either returns
    or raises. *)
Definition CallLog := list nat.

Definition M (A : Type) : Type := CallLog -> Outcome A * CallLog.

Definition ret {A} (a : A) : M A := fun log => (Returned a, log).

Definition raise {A} (e : Exc) : M A := fun log => (Raised e, log).

Definition bind {A B} (m : M A) (k : A -> M B) : M B :=
  fun log =>
    match m log with
    | (Returned a, log') => k a log'
    | (Raised e, log') => (Raised e, log')
    end.

(** [try: body except Exception as e: handler e].  The calls made by the body
    before it raised stay in the log. *)
Definition try_except {A} (body : M A) (handler : Exc -> M A) : M A :=
  fun log =>
    match body log with
    | (Returned a, log') => (Returned a, log')
    | (Raised e, log') => handler e log'
    end.

(** [for x in xs: acc = body x acc], the accumulator standing for the mutable
    objects the loop body updates. *)
Fixpoint for_each {X S} (xs : list X) (body : X -> S -> M S) (acc : S) : M S :=
  match xs with
  | [] => ret acc
  | x :: xs' => bind (body x acc) (for_each xs' body)
  end.

(** Values stored in attribute maps and returned by conditions and
    predicates (the annotation is [Any]): [None], booleans, integers,
    strings, lists of printable items, and the sentinel [UNKNOWN] of
    [types.py].  A list keeps, for each item, what [f"{v}"] prints. *)
Inductive Value : Type :=
| VNone
| VBool (b : bool)
| VInt (z : Z)
| VStr (s : string)
| VList (items : list string)
| VUnknown.

#[global] Instance Value_eq_dec : EqDecision Value.
Proof. solve_decision. Defined.

(** [bool(v)].  [_UnknownType.__bool__] returns [False]. *)
Definition truthy (v : Value) : bool :=
  match v with
  | VNone => false
  | VBool b => b
  | VInt z => negb (Z.eqb z 0)
  | VStr s => negb (String.eqb s "")
  | VList items => negb (Nat.eqb (length items) 0)
  | VUnknown => false
  end.

(** [v is None] *)
Definition is_None (v : option Value) : bool :=
  match v with
  | None | Some VNone => true
  | _ => false
  end.

(** [v is UNKNOWN or v == UNKNOWN]: [_UnknownType] is a singleton and its
    [__eq__] is [isinstance(other, _UnknownType)]. *)
Definition is_UNKNOWN (v : Value) : bool :=
  match v with
  | VUnknown => true
  | _ => false
  end.

(** [str(n)] for a length. *)
Definition str_of_nat (n : nat) : string :=
  NilZero.string_of_uint (Nat.to_uint n).

(** [' → '.join(xs)] and friends. *)
Fixpoint join (sep : string) (xs : list string) : string :=
  match xs with
  | [] => ""
  | [x] => x
  | x :: xs' => x +:+ sep +:+ join sep xs'
  end.

(** [repr(s)] of a string without quotes or escapes in it, and [repr] of a
    set of such strings, printed in the order the set iterates. *)
Definition repr_str (s : string) : string := "'" +:+ s +:+ "'".

Definition repr_set (xs : list string) : string :=
  match xs with
  | [] => "set()"
  | _ => "{" +:+ join ", " (repr_str <$> xs) +:+ "}"
  end.

(** A dict, in insertion order; keys are unique. *)
Definition dict (K V : Type) : Type := list (K * V).

Fixpoint dict_get {K V} `{EqDecision K} (d : dict K V) (k : K) : option V :=
  match d with
  | [] => None
  | (k', v) :: d' => if decide (k' = k) then Some v else dict_get d' k
  end.

Definition dict_keys {K V} (d : dict K V) : list K := fst <$> d.

Definition dict_values {K V} (d : dict K V) : list V := snd <$> d.

(** [d[k] = v]: replaces in place, or appends a new key. *)
Fixpoint dict_set {K V} `{EqDecision K} (d : dict K V) (k : K) (v : V) : dict K V :=
  match d with
  | [] => [(k, v)]
  | (k', v') :: d' =>
      if decide (k' = k) then (k, v) :: d' else (k', v') :: dict_set d' k v
  end.

(** [x in s] for a set or list [s]. *)
Definition contains {A} `{EqDecision A} (s : list A) (x : A) : bool :=
  bool_decide (x ∈ s).

(** [s.add(x)] on a set. *)
Definition set_add {A} `{EqDecision A} (s : list A) (x : A) : list A :=
  if contains s x then s else s ++ [x].

(** [raise KeyError(key)]; [str] of a [KeyError] is the [repr] of the key. *)
Definition KeyError {A} (key : string) : Outcome A :=
  Raised (mkExc (repr_str key)).

(** Sequencing for code that calls no condition or predicate: the first
    exception ends the computation. *)
Definition then_ {A B} (m : Outcome A) (k : A -> Outcome B) : Outcome B :=
  match m with
  | Returned a => k a
  | Raised e => Raised e
  end.

(** [for x in xs: acc = step acc x], where [step] may raise. *)
Fixpoint fold_outcome {X S} (step : S -> X -> Outcome S) (acc : S)
  (xs : list X) : Outcome S :=
  match xs with
  | [] => Returned acc
  | x :: xs' => then_ (step acc x) (fun acc' => fold_outcome step acc' xs')
  end.

End Py.

#[global] Instance M_ret : MRet Py.M := @Py.ret.
#[global] Instance M_bind : MBind Py.M := fun A B k m => Py.bind m k.
#[global] Instance Outcome_ret : MRet Py.Outcome := @Py.Returned.
#[global] Instance Outcome_bind : MBind Py.Outcome :=
  fun A B k m => Py.then_ m k.

(** ** types.py *)

Inductive Optionality := REQUIRED | OPTIONAL | UNKNOWN_ADMISSIBLE.

#[global] Instance Optionality_eq_dec : EqDecision Optionality.
Proof. solve_decision. Defined.

Definition Optionality_value (o : Optionality) : string :=
  match o with
  | REQUIRED => "required"
  | OPTIONAL => "optional"
  | UNKNOWN_ADMISSIBLE => "unknown_admissible"
  end.

Module EntityType.
Record t := mk { name : string }.
#[global] Instance eq_dec : EqDecision t.
Proof. solve_decision. Defined.
Definition repr (self : t) : string := "Entity(" +:+ name self +:+ ")".
End EntityType.

Module Attribute.
(** [value_type] is a class or [None]; a class is identified by its name. *)
Record t := mk {
  name : string;
  entity : EntityType.t;
  value_type : option string;
  optionality : Optionality;
}.
#[global] Instance eq_dec : EqDecision t.
Proof. solve_decision. Defined.
Definition repr (self : t) : string :=
  let opt :=
    if decide (optionality self = REQUIRED) then ""
    else ", " +:+ Optionality_value (optionality self) in
  "Attr(" +:+ EntityType.name (entity self) +:+ "." +:+ name self +:+ opt +:+ ")".
End Attribute.

Module OperationType.
Record t := mk { name : string }.
#[global] Instance eq_dec : EqDecision t.
Proof. solve_decision. Defined.
Definition repr (self : t) : string := "Op(" +:+ name self +:+ ")".
End OperationType.

Module Relation.
Record t := mk {
  name : string;
  source : EntityType.t;
  target : EntityType.t;
}.
#[global] Instance eq_dec : EqDecision t.
Proof. solve_decision. Defined.
Definition repr (self : t) : string :=
  "Rel(" +:+ EntityType.name (source self) +:+ " --" +:+ name self +:+ "--> "
  +:+ EntityType.name (target self) +:+ ")".
End Relation.

(** [EntityType | Attribute | OperationType | Relation].  The dataclass
    [__eq__] answers [False] across classes and compares fields within one,
    which is equality of this type; [isinstance] is a match on the tag. *)
Inductive Element :=
| EEntity (e : EntityType.t)
| EAttribute (a : Attribute.t)
| EOperation (o : OperationType.t)
| ERelation (r : Relation.t).

#[global] Instance Element_eq_dec : EqDecision Element.
Proof. solve_decision. Defined.

Definition Element_repr (x : Element) : string :=
  match x with
  | EEntity e => EntityType.repr e
  | EAttribute a => Attribute.repr a
  | EOperation o => OperationType.repr o
  | ERelation r => Relation.repr r
  end.

Module ImportDecl.
Record t := mk { target_name : string }.
#[global] Instance eq_dec : EqDecision t.
Proof. solve_decision. Defined.
End ImportDecl.

(** ** validation.py: the semantic world W = (S, R)

    Declared here because conditions and predicates take a world. *)

Module SemanticElement.
Record t := mk {
  entity_type : EntityType.t;
  identity : string;
  attribute_values : gmap string Py.Value;
  provenance : string;
}.
End SemanticElement.

Module SemanticRelation.
Record t := mk {
  relation : Relation.t;
  source_id : string;
  target_id : string;
  provenance : string;
}.
End SemanticRelation.

Module SemanticWorld.
Record t := mk {
  elements : list SemanticElement.t;
  relations : list SemanticRelation.t;
}.

Definition get_elements_by_type (self : t) (entity_type : EntityType.t)
  : list SemanticElement.t :=
  filter (fun e => SemanticElement.entity_type e = entity_type) (elements self).

Definition get_element_by_id (self : t) (identity : string)
  : option SemanticElement.t :=
  find (fun e => bool_decide (SemanticElement.identity e = identity))
       (elements self).

(** [attribute_values or {}] and [self.elements.append(elem)]; the method
    returns the element and leaves the world changed. *)
Definition add_element (self : t) (entity_type : EntityType.t)
  (identity : string) (attribute_values : option (gmap string Py.Value))
  (provenance : string) : t * SemanticElement.t :=
  let elem :=
    SemanticElement.mk entity_type identity (default ∅ attribute_values)
      provenance in
  (mk (elements self ++ [elem]) (relations self), elem).

Definition add_relation (self : t) (relation : Relation.t)
  (source_id target_id provenance : string) : t * SemanticRelation.t :=
  let rel := SemanticRelation.mk relation source_id target_id provenance in
  (mk (elements self) (relations self ++ [rel]), rel).
End SemanticWorld.

(** A condition or predicate: a Python callable taking the world.  It may
    return any value or raise; it does not change the world. *)
Module Callable.
Record t := mk {
  fid : nat;
  apply : SemanticWorld.t -> Py.Outcome Py.Value;
}.

(** [f(world)], recorded in the call log. *)
Definition call (f : t) (world : SemanticWorld.t) : Py.M Py.Value :=
  fun log => (apply f world, log ++ [fid f]).
End Callable.

Module NormativeTarget.
Record t := mk {
  element : Element;
  condition : option Callable.t;
  description : string;
}.
End NormativeTarget.

Module Constraint.
Record t := mk {
  name : string;
  description : string;
  predicate : Callable.t;
  references : list Element;
}.
End Constraint.

(** ** normative.py *)

Inductive NormativeOp := MUST | MUST_NOT | SHOULD | SHOULD_NOT | MAY.

#[global] Instance NormativeOp_eq_dec : EqDecision NormativeOp.
Proof. solve_decision. Defined.

Definition NormativeOp_value (op : NormativeOp) : string :=
  match op with
  | MUST => "MUST"
  | MUST_NOT => "MUST_NOT"
  | SHOULD => "SHOULD"
  | SHOULD_NOT => "SHOULD_NOT"
  | MAY => "MAY"
  end.

Definition NormativeOp_index (op : NormativeOp) : nat :=
  match op with
  | MUST => 0 | MUST_NOT => 1 | SHOULD => 2 | SHOULD_NOT => 3 | MAY => 4
  end.

Definition NormativeOp_of_index (n : nat) : NormativeOp :=
  match n with
  | 0 => MUST | 1 => MUST_NOT | 2 => SHOULD | 3 => SHOULD_NOT | _ => MAY
  end.

(** Enum members are hashable: they can be put in a [frozenset]. *)
#[global] Instance NormativeOp_countable : Countable NormativeOp.
Proof.
  apply (inj_countable' NormativeOp_index NormativeOp_of_index).
  by intros [].
Defined.

Module NormativeRule.
(** [oid] is the identity of the rule object, the thing [is] compares;
    two rules with equal fields can be different objects. *)
#[warnings="-register-all"]
Inductive t := mk {
  oid : nat;
  operator : NormativeOp;
  target : NormativeTarget.t;
  override_ref : option t;
}.

(** [x is y] *)
Definition is_ (x y : t) : bool := Nat.eqb (oid x) (oid y).

(** [self.override_ref is not None and self.override_ref is other] *)
Definition overrides (self other : t) : bool :=
  match override_ref self with
  | Some r => is_ r other
  | None => false
  end.

Definition repr (self : t) : string :=
  let override :=
    match override_ref self with Some _ => " [OVERRIDE]" | None => "" end in
  NormativeOp_value (operator self) +:+ "("
  +:+ Element_repr (NormativeTarget.element (target self)) +:+ ")" +:+ override.
End NormativeRule.

Inductive FindingType :=
| CONFLICT | EXCEPTION | OVERRIDE | OVERLAP | AMBIGUITY | NO_DEFAULT.

#[global] Instance FindingType_eq_dec : EqDecision FindingType.
Proof. solve_decision. Defined.

Inductive Severity := ERROR | WARNING | INFO.

#[global] Instance Severity_eq_dec : EqDecision Severity.
Proof. solve_decision. Defined.

Definition _FINDING_SEVERITY (f : FindingType) : Severity :=
  match f with
  | CONFLICT => ERROR
  | EXCEPTION => INFO
  | OVERRIDE => INFO
  | OVERLAP => INFO
  | AMBIGUITY => WARNING
  | NO_DEFAULT => WARNING
  end.

Module InteractionDiagnostic.
Record t := mk {
  severity : Severity;
  finding_type : FindingType;
  rule_a : NormativeRule.t;
  rule_b : NormativeRule.t;
  message : string;
}.
End InteractionDiagnostic.

(** [frozenset({a, b})] *)
Definition frozenset (a b : NormativeOp) : gset NormativeOp := {[a; b]}.

Definition _COMPATIBLE_PAIRS : gset (gset NormativeOp) :=
  {[ frozenset MUST MUST;
     frozenset MUST SHOULD;
     frozenset MUST MAY;
     frozenset SHOULD SHOULD;
     frozenset SHOULD MAY;
     frozenset MAY MAY;
     frozenset MUST_NOT MUST_NOT;
     frozenset MUST_NOT SHOULD_NOT;
     frozenset SHOULD_NOT SHOULD_NOT ]}.

Definition _CONFLICTING_PAIRS : gmap (gset NormativeOp) string :=
  <[frozenset MUST MUST_NOT := "Requiring and prohibiting the same element"]>
  (<[frozenset MUST SHOULD_NOT := "Obligating a discouraged element"]>
  (<[frozenset SHOULD MUST_NOT := "Recommending a prohibited element"]>
  (<[frozenset SHOULD SHOULD_NOT := "Recommending and discouraging the same element"]>
  (<[frozenset MAY MUST_NOT := "Permitting a prohibited element"]>
  (<[frozenset MAY SHOULD_NOT := "Permitting a discouraged element"]> ∅))))).

Definition is_compatible_pair (a b : NormativeOp) : bool :=
  let pair := frozenset a b in
  bool_decide (pair ∈ _COMPATIBLE_PAIRS) || bool_decide (a = b).

Definition _same_target (a b : NormativeRule.t) : bool :=
  bool_decide (NormativeTarget.element (NormativeRule.target a)
               = NormativeTarget.element (NormativeRule.target b)).

Definition check_interaction (a b : NormativeRule.t)
  : option InteractionDiagnostic.t :=
  if negb (_same_target a b) then None else
  let ops := frozenset (NormativeRule.operator a) (NormativeRule.operator b) in
  let target_repr :=
    Element_repr (NormativeTarget.element (NormativeRule.target a)) in
  if is_compatible_pair (NormativeRule.operator a) (NormativeRule.operator b)
  then
    Some (InteractionDiagnostic.mk INFO OVERLAP a b
      ("Overlap: " +:+ NormativeOp_value (NormativeRule.operator a)
       +:+ " and " +:+ NormativeOp_value (NormativeRule.operator b)
       +:+ " on same target " +:+ target_repr))
  else
  let conflict_reason := default "Conflicting modalities" (_CONFLICTING_PAIRS !! ops) in
  let a_conditional :=
    bool_decide (NormativeTarget.condition (NormativeRule.target a) ≠ None) in
  let b_conditional :=
    bool_decide (NormativeTarget.condition (NormativeRule.target b) ≠ None) in
  if negb (Bool.eqb a_conditional b_conditional) then
    let specific := if a_conditional then a else b in
    let general := if a_conditional then b else a in
    Some (InteractionDiagnostic.mk INFO EXCEPTION specific general
      ("Exception (lex specialis): "
       +:+ NormativeOp_value (NormativeRule.operator specific)
       +:+ " conditionally excepts "
       +:+ NormativeOp_value (NormativeRule.operator general)
       +:+ " on " +:+ target_repr))
  else
  if a_conditional && b_conditional then
    if NormativeRule.overrides a b || NormativeRule.overrides b a then
      Some (InteractionDiagnostic.mk INFO OVERRIDE a b
        ("Override: intentional replacement on " +:+ target_repr))
    else
      Some (InteractionDiagnostic.mk WARNING AMBIGUITY a b
        ("Ambiguity: " +:+ NormativeOp_value (NormativeRule.operator a)
         +:+ " and " +:+ NormativeOp_value (NormativeRule.operator b)
         +:+ " on " +:+ target_repr
         +:+ " — condition relationship not declared"))
  else
  if NormativeRule.overrides a b || NormativeRule.overrides b a then
    Some (InteractionDiagnostic.mk INFO OVERRIDE a b
      ("Override: intentional replacement on " +:+ target_repr))
  else
    Some (InteractionDiagnostic.mk ERROR CONFLICT a b
      ("Conflict: " +:+ conflict_reason +:+ " on " +:+ target_repr)).

(** The two index loops [for i ... for j in range(i + 1, ...)] visit, for
    each rule in order, the rules after it in order. *)
Fixpoint check_all_interactions (rules : list NormativeRule.t)
  : list InteractionDiagnostic.t :=
  match rules with
  | [] => []
  | a :: rest => omap (check_interaction a) rest ++ check_all_interactions rest
  end.

(** ** domain_language.py

    A Python [set] is a list here: the code only tests membership and
    iterates, and the list order stands for the iteration order, which
    Python leaves unspecified. *)

Module DomainLanguage.
Record t := mk {
  name : string;
  entities : list EntityType.t;
  attributes : Py.dict EntityType.t (list Attribute.t);
  operations : list OperationType.t;
  normative_rules : list NormativeRule.t;
  constraints : list Constraint.t;
  imports : list ImportDecl.t;
  relations : list Relation.t;
}.

Definition vocab (self : t) : list Element :=
  let v := [] in
  let v := v ++ (EEntity <$> entities self) in
  let v :=
    foldl (fun v attrs => v ++ (EAttribute <$> attrs)) v
          (Py.dict_values (attributes self)) in
  let v := v ++ (EOperation <$> operations self) in
  v.

Definition check_normative_interactions (self : t)
  : list InteractionDiagnostic.t :=
  check_all_interactions (normative_rules self).

Definition unresolved_import_error (imp : ImportDecl.t) : string :=
  "Unresolved import: " +:+ ImportDecl.target_name imp.

Definition unknown_element_error (rule : NormativeRule.t) : string :=
  "Normative rule " +:+ NormativeRule.repr rule
  +:+ " references unknown element: "
  +:+ Element_repr (NormativeTarget.element (NormativeRule.target rule)).

Definition check_closure (self : t) (resolved_imports : option (Py.dict string t))
  : list string :=
  let errors := [] in
  let local_vocab := vocab self in
  let extended_vocab := local_vocab in
  let '(errors, extended_vocab) :=
    match resolved_imports with
    | Some resolved =>
        foldl (fun '(errors, extended_vocab) imp =>
                 match Py.dict_get resolved (ImportDecl.target_name imp) with
                 | None => (errors ++ [unresolved_import_error imp], extended_vocab)
                 | Some imported => (errors, extended_vocab ++ vocab imported)
                 end)
              (errors, extended_vocab) (imports self)
    | None => (errors, extended_vocab)
    end in
  let all_elements := extended_vocab ++ (ERelation <$> relations self) in
  foldl (fun errors rule =>
           if negb (Py.contains all_elements
                      (NormativeTarget.element (NormativeRule.target rule)))
           then errors ++ [unknown_element_error rule]
           else errors)
        errors (normative_rules self).

(** *** Builder API

    Each method changes the language in place and returns what it made;
    here it returns the changed language too. *)

Definition add_entity (self : t) (name' : string) : t * EntityType.t :=
  let entity := EntityType.mk name' in
  (mk (name self) (Py.set_add (entities self) entity) (attributes self)
      (operations self) (normative_rules self) (constraints self)
      (imports self) (relations self),
   entity).

(** [self.attributes.setdefault(entity, []).append(attr)] *)
Definition add_attribute (self : t) (entity : EntityType.t) (name' : string)
  (value_type : option string) (optionality : Optionality) : t * Attribute.t :=
  let attr := Attribute.mk name' entity value_type optionality in
  (mk (name self) (entities self)
      (Py.dict_set (attributes self) entity
         (default [] (Py.dict_get (attributes self) entity) ++ [attr]))
      (operations self) (normative_rules self) (constraints self)
      (imports self) (relations self),
   attr).

Definition add_operation (self : t) (name' : string) : t * OperationType.t :=
  let op := OperationType.mk name' in
  (mk (name self) (entities self) (attributes self)
      (Py.set_add (operations self) op) (normative_rules self)
      (constraints self) (imports self) (relations self),
   op).

Definition add_relation (self : t) (name' : string)
  (source target : EntityType.t) : t * Relation.t :=
  let rel := Relation.mk name' source target in
  (mk (name self) (entities self) (attributes self) (operations self)
      (normative_rules self) (constraints self) (imports self)
      (Py.set_add (relations self) rel),
   rel).

(** [oid] is the identity of the rule object the call creates. *)
Definition add_normative_rule (self : t) (oid : nat) (operator : NormativeOp)
  (element : Element) (condition : option Callable.t) (description : string)
  : t * NormativeRule.t :=
  let target := NormativeTarget.mk element condition description in
  let rule := NormativeRule.mk oid operator target None in
  (mk (name self) (entities self) (attributes self) (operations self)
      (normative_rules self ++ [rule]) (constraints self) (imports self)
      (relations self),
   rule).

Definition must (self : t) (oid : nat) := add_normative_rule self oid MUST.
Definition must_not (self : t) (oid : nat) := add_normative_rule self oid MUST_NOT.
Definition should (self : t) (oid : nat) := add_normative_rule self oid SHOULD.
Definition should_not (self : t) (oid : nat) :=
  add_normative_rule self oid SHOULD_NOT.
Definition may (self : t) (oid : nat) := add_normative_rule self oid MAY.

(** [references or frozenset()] *)
Definition add_constraint (self : t) (name' description : string)
  (predicate : Callable.t) (references : option (list Element))
  : t * Constraint.t :=
  let c := Constraint.mk name' description predicate (default [] references) in
  (mk (name self) (entities self) (attributes self) (operations self)
      (normative_rules self) (constraints self ++ [c]) (imports self)
      (relations self),
   c).

Definition add_import (self : t) (target_name : string) : t * ImportDecl.t :=
  let imp := ImportDecl.mk target_name in
  (mk (name self) (entities self) (attributes self) (operations self)
      (normative_rules self) (constraints self)
      (Py.set_add (imports self) imp) (relations self),
   imp).

Definition get_attribute (self : t) (entity : EntityType.t) (attr_name : string)
  : option Attribute.t :=
  find (fun attr => bool_decide (Attribute.name attr = attr_name))
       (default [] (Py.dict_get (attributes self) entity)).
End DomainLanguage.

(** ** domain_language_graph.py *)

Inductive EdgeLabel := IMPORTS.

Module DomLGEdge.
Record t := mk {
  source : string;
  target : string;
  label : EdgeLabel;
}.
End DomLGEdge.

Inductive Color := WHITE | GRAY | BLACK.

#[global] Instance Color_eq_dec : EqDecision Color.
Proof. solve_decision. Defined.

Module DomainLanguageGraph.
Record t := mk {
  languages : Py.dict string DomainLanguage.t;
  edges : list DomLGEdge.t;
}.

Definition composed_vocab (self : t) : list Element :=
  foldl (fun vocab lang => vocab ++ DomainLanguage.vocab lang) []
        (Py.dict_values (languages self)).

Definition composed_relations (self : t) : list Relation.t :=
  foldl (fun rels lang => rels ++ DomainLanguage.relations lang) []
        (Py.dict_values (languages self)).

(** [adj[edge.source].append(edge.target)] on a [defaultdict(list)] *)
Definition adjacency (self : t) : gmap string (list string) :=
  foldl (fun adj edge =>
           <[DomLGEdge.source edge :=
               default [] (adj !! DomLGEdge.source edge) ++ [DomLGEdge.target edge]]> adj)
        ∅ (edges self).

(** The variables [dfs] closes over and updates. *)
Record DfsState := mkDfs {
  color : gmap string Color;
  path : list string;
  cycles : list (list string);
}.

(** [path[path.index(x):]].  It is taken for a gray [x] only, and a node is
    gray exactly while it is on the path. *)
Fixpoint path_from (x : string) (path : list string) : list string :=
  match path with
  | [] => []
  | y :: path' => if decide (y = x) then path else path_from x path'
  end.

(** The recursion of [dfs] is bounded by [fuel]; [None] is an exhausted
    bound.  Each call turns a white language gray, so the depth never
    exceeds the number of languages. *)
Fixpoint dfs (fuel : nat) (adj : gmap string (list string)) (node : string)
  (st : DfsState) : option DfsState :=
  match fuel with
  | 0 => None
  | S fuel' =>
      let st := mkDfs (<[node := GRAY]> (color st)) (path st ++ [node]) (cycles st) in
      st ← foldl (fun acc neighbor =>
                    st ← acc;
                    if decide (color st !! neighbor = Some GRAY) then
                      Some (mkDfs (color st) (path st)
                              (cycles st ++ [path_from neighbor (path st) ++ [neighbor]]))
                    else if decide (color st !! neighbor = Some WHITE) then
                      dfs fuel' adj neighbor st
                    else Some st)
                 (Some st) (default [] (adj !! node));
      Some (mkDfs (<[node := BLACK]> (color st)) (removelast (path st)) (cycles st))
  end.

Definition detect_import_cycles (self : t) : option (list (list string)) :=
  let adj := adjacency self in
  let names := Py.dict_keys (languages self) in
  let st := mkDfs (list_to_map ((fun name => (name, WHITE)) <$> names)) [] [] in
  st ← foldl (fun acc node =>
                st ← acc;
                if decide (color st !! node = Some WHITE)
                then dfs (S (length names)) adj node st
                else Some st)
             (Some st) names;
  Some (cycles st).

(** [queue.sort()] on names: insertion into a list kept in code-point order. *)
Fixpoint sort_insert (x : string) (xs : list string) : list string :=
  match xs with
  | [] => [x]
  | y :: xs' => if String.leb x y then x :: xs else y :: sort_insert x xs'
  end.

Definition sort (xs : list string) : list string := foldr sort_insert [] xs.

(** The variables of the loop of Kahn's algorithm. *)
Record KahnState := mkKahn {
  in_degree : gmap string Z;
  queue : list string;
  order : list string;
}.

(** One turn of [while queue:] for a non-empty queue. *)
Definition kahn_step (adj : gmap string (list string)) (st : KahnState)
  : KahnState :=
  match sort (queue st) with
  | [] => st
  | node :: popped =>
      foldl (fun st neighbor =>
               let decremented := alter (fun d => d - 1)%Z neighbor (in_degree st) in
               if decide (decremented !! neighbor = Some 0%Z)
               then mkKahn decremented (queue st ++ [neighbor]) (order st)
               else mkKahn decremented (queue st) (order st))
            (mkKahn (in_degree st) popped (order st ++ [node]))
            (default [] (adj !! node))
  end.

Fixpoint kahn_loop (fuel : nat) (adj : gmap string (list string))
  (st : KahnState) : option KahnState :=
  match queue st with
  | [] => Some st
  | _ :: _ =>
      match fuel with
      | 0 => None
      | S fuel' => kahn_loop fuel' adj (kahn_step adj st)
      end
  end.

(** The outer [option] is the bound on the recursion and on the loop; the
    inner one is the [None] the method returns. *)
Definition topological_order (self : t) : option (option (list string)) :=
  found ← detect_import_cycles self;
  if negb (bool_decide (found = [])) then Some None else
  let names := Py.dict_keys (languages self) in
  let adj := adjacency self in
  let degrees : gmap string Z :=
    list_to_map ((fun name => (name, 0%Z)) <$> names) in
  let degrees :=
    foldl (fun degrees edge =>
             match degrees !! DomLGEdge.target edge with
             | Some _ => degrees
             | None => <[DomLGEdge.target edge := 0%Z]> degrees
             end)
          degrees (edges self) in
  let frontier :=
    filter (fun n => default 0%Z (degrees !! n) = 0%Z) names in
  st ← kahn_loop (S (length names + length (edges self))) adj
         (mkKahn degrees frontier []);
  if negb (Nat.eqb (length (order st)) (length names)) then Some None
  else Some (Some (order st)).

(** *** Builder API: both methods raise [ValueError] *)

Definition add_language (self : t) (lang : DomainLanguage.t) : Py.Outcome t :=
  if Py.contains (Py.dict_keys (languages self)) (DomainLanguage.name lang)
  then Py.Raised (Py.mkExc ("Domain Language '" +:+ DomainLanguage.name lang
                            +:+ "' already exists in graph"))
  else Py.Returned
         (mk (Py.dict_set (languages self) (DomainLanguage.name lang) lang)
             (edges self)).

Definition add_edge (self : t) (source target : string) (label : EdgeLabel)
  : Py.Outcome (t * DomLGEdge.t) :=
  if negb (Py.contains (Py.dict_keys (languages self)) source)
  then Py.Raised (Py.mkExc ("Source '" +:+ source +:+ "' not in graph"))
  else if negb (Py.contains (Py.dict_keys (languages self)) target)
  then Py.Raised (Py.mkExc ("Target '" +:+ target +:+ "' not in graph"))
  else
    let edge := DomLGEdge.mk source target label in
    Py.Returned (mk (languages self) (edges self ++ [edge]), edge).

(** *** Cross references and structural validation *)

(** [d[key].add(x)] for a dict of sets; a missing key is a [KeyError]. *)
Definition add_under (d : Py.dict string (list string)) (key x : string)
  : Py.Outcome (Py.dict string (list string)) :=
  match Py.dict_get d key with
  | Some s => Py.Returned (Py.dict_set d key (Py.set_add s x))
  | None => Py.KeyError key
  end.

Definition not_in_graph_error (lang : DomainLanguage.t) (imp : ImportDecl.t)
  : string :=
  "'" +:+ DomainLanguage.name lang +:+ "' imports '"
  +:+ ImportDecl.target_name imp +:+ "' which is not in the graph".

Definition no_edge_error (lang : DomainLanguage.t) (imp : ImportDecl.t)
  : string :=
  "'" +:+ DomainLanguage.name lang +:+ "' imports '"
  +:+ ImportDecl.target_name imp +:+ "' but no edge exists in the graph".

(** Body of [for imp in lang.imports]; [reachable[lang.name]] is looked up
    only for an import that names a language of the graph. *)
Definition cross_reference (self : t)
  (reachable : Py.dict string (list string)) (lang : DomainLanguage.t)
  (errors : list string) (imp : ImportDecl.t) : Py.Outcome (list string) :=
  if negb (Py.contains (Py.dict_keys (languages self))
             (ImportDecl.target_name imp))
  then Py.Returned (errors ++ [not_in_graph_error lang imp])
  else
    match Py.dict_get reachable (DomainLanguage.name lang) with
    | None => Py.KeyError (DomainLanguage.name lang)
    | Some targets =>
        if negb (Py.contains targets (ImportDecl.target_name imp))
        then Py.Returned (errors ++ [no_edge_error lang imp])
        else Py.Returned errors
    end.

Definition check_cross_references (self : t) : Py.Outcome (list string) :=
  let reachable : Py.dict string (list string) :=
    (fun name => (name, [])) <$> Py.dict_keys (languages self) in
  reachable ←
    Py.fold_outcome
      (fun reachable edge =>
         add_under reachable (DomLGEdge.source edge) (DomLGEdge.target edge))
      reachable (edges self);
  Py.fold_outcome
    (fun errors lang =>
       Py.fold_outcome (cross_reference self reachable lang) errors
         (DomainLanguage.imports lang))
    [] (Py.dict_values (languages self)).

Definition cycle_error (cycle : list string) : string :=
  "Import cycle detected: " +:+ Py.join " → " cycle.

(** The outer [option] is the bound on the recursion of [dfs]. *)
Definition structural_validation (self : t)
  : option (Py.Outcome (list string)) :=
  found ← detect_import_cycles self;
  let errors := cycle_error <$> found in
  Some (cross ← check_cross_references self;
        mret (errors ++ cross)).
End DomainLanguageGraph.

(** ** validation.py: result types *)

Inductive ConditionStatus := PASS | FAIL | UNKNOWN_PRESENT.

#[global] Instance ConditionStatus_eq_dec : EqDecision ConditionStatus.
Proof. solve_decision. Defined.

Module ConditionResult.
Record t := mk {
  condition_number : nat;
  condition_name : string;
  status : ConditionStatus;
  details : list string;
}.

Definition passed (self : t) : bool :=
  bool_decide (status self = PASS) || bool_decide (status self = UNKNOWN_PRESENT).
End ConditionResult.

Module AdmissibilityResult.
Record t := mk { conditions : list ConditionResult.t }.

Definition is_admissible (self : t) : bool :=
  forallb ConditionResult.passed (conditions self).

Definition has_unknowns (self : t) : bool :=
  existsb (fun c => bool_decide (ConditionResult.status c = UNKNOWN_PRESENT))
          (conditions self).
End AdmissibilityResult.

Module RuleEvaluationResult.
Record t := mk {
  violations : list string;
  advisories : list string;
  constraint_failures : list string;
}.

Definition is_valid (self : t) : bool :=
  Nat.eqb (length (violations self)) 0
  && Nat.eqb (length (constraint_failures self)) 0.

(** [self.violations.append(s)] and its siblings *)
Definition add_violation (self : t) (s : string) : t :=
  mk (violations self ++ [s]) (advisories self) (constraint_failures self).

Definition add_advisory (self : t) (s : string) : t :=
  mk (violations self) (advisories self ++ [s]) (constraint_failures self).

Definition add_constraint_failure (self : t) (s : string) : t :=
  mk (violations self) (advisories self) (constraint_failures self ++ [s]).
End RuleEvaluationResult.

Module ValidationResult.
Record t := mk { conditions : list ConditionResult.t }.

Definition is_valid (self : t) : bool :=
  forallb ConditionResult.passed (conditions self).

Definition has_unknowns (self : t) : bool :=
  existsb (fun c => bool_decide (ConditionResult.status c = UNKNOWN_PRESENT))
          (conditions self).
End ValidationResult.

(** ** validation.py: layer 3, rule evaluation *)

(** [target.description or repr(target.element)] *)
Definition describe (target : NormativeTarget.t) : string :=
  if negb (String.eqb (NormativeTarget.description target) "")
  then NormativeTarget.description target
  else Element_repr (NormativeTarget.element target).

(** [for v in issue: out.append(f"  -> {v}")] when [issue] is a list *)
Definition arrows (issue : Py.Value) : list string :=
  match issue with
  | Py.VList items => (fun v => "  -> " +:+ v) <$> items
  | _ => []
  end.

(** Body of the loop over MUST_NOT rules.  In the [try] block the call comes
    first and is the only statement that can raise, so the handler sees the
    result as it was before the block. *)
Definition must_not_rule (world : SemanticWorld.t) (rule : NormativeRule.t)
  (result : RuleEvaluationResult.t) : Py.M RuleEvaluationResult.t :=
  if negb (bool_decide (NormativeRule.operator rule = MUST_NOT)) then mret result
  else
  let target := NormativeRule.target rule in
  match NormativeTarget.condition target with
  | Some condition =>
      Py.try_except
        (violation ← Callable.call condition world;
         if Py.truthy violation then
           let result :=
             RuleEvaluationResult.add_violation result
               ("MUST_NOT violation: " +:+ describe target) in
           mret (foldl RuleEvaluationResult.add_violation result (arrows violation))
         else mret result)
        (fun e =>
           mret (RuleEvaluationResult.add_violation result
                   ("Error evaluating MUST_NOT condition: " +:+ Py.msg e)))
  | None =>
      match NormativeTarget.element target with
      | EEntity entity =>
          let elements := SemanticWorld.get_elements_by_type world entity in
          if negb (Nat.eqb (length elements) 0) then
            mret (RuleEvaluationResult.add_violation result
                    ("MUST_NOT(" +:+ EntityType.repr entity
                     +:+ "): forbidden entity type found ("
                     +:+ Py.str_of_nat (length elements) +:+ " instances)"))
          else mret result
      | _ => mret result
      end
  end.

(** Body of the loops over SHOULD and over SHOULD_NOT rules, which differ in
    the operator they select and the label they print. *)
Definition advisory_rule (op : NormativeOp) (label : string)
  (world : SemanticWorld.t) (rule : NormativeRule.t)
  (result : RuleEvaluationResult.t) : Py.M RuleEvaluationResult.t :=
  if negb (bool_decide (NormativeRule.operator rule = op)) then mret result
  else
  let target := NormativeRule.target rule in
  match NormativeTarget.condition target with
  | Some condition =>
      Py.try_except
        (issue ← Callable.call condition world;
         if Py.truthy issue then
           let result :=
             RuleEvaluationResult.add_advisory result
               (label +:+ " advisory: " +:+ describe target) in
           mret (foldl RuleEvaluationResult.add_advisory result (arrows issue))
         else mret result)
        (fun _ => mret result)
  | None => mret result
  end.

(** Body of the loop over constraints. *)
Definition constraint_predicate (lang : DomainLanguage.t)
  (world : SemanticWorld.t) (constraint : Constraint.t)
  (result : RuleEvaluationResult.t) : Py.M RuleEvaluationResult.t :=
  Py.try_except
    (satisfied ← Callable.call (Constraint.predicate constraint) world;
     if negb (Py.truthy satisfied) then
       mret (RuleEvaluationResult.add_constraint_failure result
               ("[" +:+ DomainLanguage.name lang +:+ "] "
                +:+ Constraint.name constraint +:+ ": "
                +:+ Constraint.description constraint))
     else mret result)
    (fun e =>
       mret (RuleEvaluationResult.add_constraint_failure result
               ("Error evaluating constraint '" +:+ Constraint.name constraint
                +:+ "': " +:+ Py.msg e))).

(** Body of [for lang in graph.languages.values()]. *)
Definition evaluate_language (world : SemanticWorld.t) (lang : DomainLanguage.t)
  (result : RuleEvaluationResult.t) : Py.M RuleEvaluationResult.t :=
  result ← Py.for_each (DomainLanguage.normative_rules lang)
             (must_not_rule world) result;
  result ← Py.for_each (DomainLanguage.normative_rules lang)
             (advisory_rule SHOULD "SHOULD" world) result;
  result ← Py.for_each (DomainLanguage.normative_rules lang)
             (advisory_rule SHOULD_NOT "SHOULD_NOT" world) result;
  Py.for_each (DomainLanguage.constraints lang)
    (constraint_predicate lang world) result.

Definition evaluate_rules (graph : DomainLanguageGraph.t) (world : SemanticWorld.t)
  : Py.M RuleEvaluationResult.t :=
  Py.for_each (Py.dict_values (DomainLanguageGraph.languages graph))
    (evaluate_language world) (RuleEvaluationResult.mk [] [] []).

(** ** validation.py: the conditions of DDS-valid(D, W)

    A loop that appends to [details] and sets [failed] is a left fold over a
    pair of the two. *)

(** [{item for item in composed if isinstance(item, EntityType)}] *)
Definition entity_subset (composed : list Element) : list EntityType.t :=
  omap (fun item => match item with EEntity e => Some e | _ => None end) composed.

Definition _check_vocabulary_closure (graph : DomainLanguageGraph.t)
  (world : SemanticWorld.t) : ConditionResult.t :=
  let composed := DomainLanguageGraph.composed_vocab graph in
  let entity_types := entity_subset composed in
  let composed_rels := DomainLanguageGraph.composed_relations graph in
  let acc : list string * bool := ([], false) in
  let acc :=
    foldl (fun '(details, failed) elem =>
             if negb (Py.contains entity_types (SemanticElement.entity_type elem))
             then (details ++
                     ["Entity type '"
                      +:+ EntityType.name (SemanticElement.entity_type elem)
                      +:+ "' (element '" +:+ SemanticElement.identity elem
                      +:+ "') not in Vocab(DomLG)"], true)
             else (details, failed))
          acc (SemanticWorld.elements world) in
  let '(details, failed) :=
    foldl (fun '(details, failed) rel =>
             if negb (Py.contains composed_rels (SemanticRelation.relation rel))
             then (details ++
                     ["Relation '"
                      +:+ Relation.name (SemanticRelation.relation rel)
                      +:+ "' not declared in any Domain Language"], true)
             else (details, failed))
          acc (SemanticWorld.relations world) in
  ConditionResult.mk 1 "Vocabulary Closure" (if failed then FAIL else PASS) details.

(** [type_to_lang.setdefault(entity, set()).add(lang_name)] *)
Definition type_to_lang_add (type_to_lang : Py.dict EntityType.t (list string))
  (entity : EntityType.t) (lang_name : string)
  : Py.dict EntityType.t (list string) :=
  let langs := default [] (Py.dict_get type_to_lang entity) in
  Py.dict_set type_to_lang entity
    (if Py.contains langs lang_name then langs else langs ++ [lang_name]).

(** Body of [for sem_rel in world.relations], [continue] being an early
    result. *)
Definition relation_admissible (graph : DomainLanguageGraph.t)
  (world : SemanticWorld.t)
  (type_to_lang : Py.dict EntityType.t (list string))
  (rel_to_lang : Py.dict Relation.t string)
  (acc : list string * bool) (sem_rel : SemanticRelation.t)
  : list string * bool :=
  let '(details, failed) := acc in
  let rel := SemanticRelation.relation sem_rel in
  if negb (Py.contains (Py.dict_keys rel_to_lang) rel) then
    (details ++ ["Relation '" +:+ Relation.name rel
                 +:+ "' not declared in any Domain Language"], true)
  else
  let source_elem :=
    SemanticWorld.get_element_by_id world (SemanticRelation.source_id sem_rel) in
  let target_elem :=
    SemanticWorld.get_element_by_id world (SemanticRelation.target_id sem_rel) in
  match source_elem, target_elem with
  | Some source_elem, Some target_elem =>
      let '(details, failed) :=
        if negb (bool_decide (SemanticElement.entity_type source_elem
                              = Relation.source rel))
        then (details ++
                ["Relation '" +:+ Relation.name rel +:+ "': source '"
                 +:+ SemanticElement.identity source_elem +:+ "' has type '"
                 +:+ EntityType.name (SemanticElement.entity_type source_elem)
                 +:+ "', expected '" +:+ EntityType.name (Relation.source rel)
                 +:+ "'"], true)
        else (details, failed) in
      let '(details, failed) :=
        if negb (bool_decide (SemanticElement.entity_type target_elem
                              = Relation.target rel))
        then (details ++
                ["Relation '" +:+ Relation.name rel +:+ "': target '"
                 +:+ SemanticElement.identity target_elem +:+ "' has type '"
                 +:+ EntityType.name (SemanticElement.entity_type target_elem)
                 +:+ "', expected '" +:+ EntityType.name (Relation.target rel)
                 +:+ "'"], true)
        else (details, failed) in
      let source_langs :=
        default [] (Py.dict_get type_to_lang
                      (SemanticElement.entity_type source_elem)) in
      let target_langs :=
        default [] (Py.dict_get type_to_lang
                      (SemanticElement.entity_type target_elem)) in
      if negb (Nat.eqb (length source_langs) 0)
         && negb (Nat.eqb (length target_langs) 0)
         && negb (existsb (Py.contains target_langs) source_langs)
      then
        let has_edge :=
          existsb (fun edge =>
                     (Py.contains source_langs (DomLGEdge.source edge)
                      && Py.contains target_langs (DomLGEdge.target edge))
                     || (Py.contains target_langs (DomLGEdge.source edge)
                         && Py.contains source_langs (DomLGEdge.target edge)))
                  (DomainLanguageGraph.edges graph) in
        if negb has_edge then
          (details ++
             ["Cross-language relation '" +:+ Relation.name rel +:+ "' between "
              +:+ Py.repr_set source_langs +:+ " and "
              +:+ Py.repr_set target_langs +:+ " has no DomLG edge"], true)
        else (details, failed)
      else (details, failed)
  | _, _ =>
      (details ++
         ["Relation '" +:+ Relation.name rel
          +:+ "' references unknown element(s): source="
          +:+ SemanticRelation.source_id sem_rel +:+ ", target="
          +:+ SemanticRelation.target_id sem_rel], true)
  end.

Definition _check_relation_admissibility (graph : DomainLanguageGraph.t)
  (world : SemanticWorld.t) : ConditionResult.t :=
  let type_to_lang :=
    foldl (fun type_to_lang '(lang_name, lang) =>
             foldl (fun type_to_lang entity =>
                      type_to_lang_add type_to_lang entity lang_name)
                   type_to_lang (DomainLanguage.entities lang))
          [] (DomainLanguageGraph.languages graph) in
  let rel_to_lang :=
    foldl (fun rel_to_lang '(lang_name, lang) =>
             foldl (fun rel_to_lang rel => Py.dict_set rel_to_lang rel lang_name)
                   rel_to_lang (DomainLanguage.relations lang))
          [] (DomainLanguageGraph.languages graph) in
  let '(details, failed) :=
    foldl (relation_admissible graph world type_to_lang rel_to_lang)
          ([], false) (SemanticWorld.relations world) in
  ConditionResult.mk 2 "Relation Admissibility"
    (if failed then FAIL else PASS) details.

(** The three variables the loops of [_check_completeness] update. *)
Record Completeness := mkCompleteness {
  details : list string;
  failed : bool;
  has_unknowns : bool;
}.

(** Body of [for elem in elements] under a MUST on an attribute. *)
Definition must_attribute (target : Attribute.t) (acc : Completeness)
  (elem : SemanticElement.t) : Completeness :=
  let val := SemanticElement.attribute_values elem !! Attribute.name target in
  match val with
  | None | Some Py.VNone =>
      mkCompleteness
        (details acc ++
           ["MUST(" +:+ Attribute.repr target +:+ "): element '"
            +:+ SemanticElement.identity elem
            +:+ "' silently omits required attribute"])
        true (has_unknowns acc)
  | Some v =>
      if Py.is_UNKNOWN v then
        mkCompleteness
          (details acc ++
             ["MUST(" +:+ Attribute.repr target +:+ "): element '"
              +:+ SemanticElement.identity elem
              +:+ "' has UNKNOWN value (explicit gap)"])
          (failed acc) true
      else acc
  end.

(** Body of [for elem in elements] under a MUST on a relation. *)
Definition must_relation (world : SemanticWorld.t) (target : Relation.t)
  (acc : Completeness) (elem : SemanticElement.t) : Completeness :=
  let has_relation :=
    existsb (fun sr =>
               bool_decide (SemanticRelation.relation sr = target)
               && bool_decide (SemanticRelation.source_id sr
                               = SemanticElement.identity elem))
            (SemanticWorld.relations world) in
  if negb has_relation then
    mkCompleteness
      (details acc ++
         ["MUST(" +:+ Relation.repr target +:+ "): element '"
          +:+ SemanticElement.identity elem +:+ "' missing required relation"])
      true (has_unknowns acc)
  else acc.

(** Body of [for rule in lang.normative_rules]. *)
Definition must_rule (world : SemanticWorld.t) (acc : Completeness)
  (rule : NormativeRule.t) : Completeness :=
  if negb (bool_decide (NormativeRule.operator rule = MUST)) then acc else
  match NormativeTarget.element (NormativeRule.target rule) with
  | EAttribute target =>
      foldl (must_attribute target) acc
            (SemanticWorld.get_elements_by_type world (Attribute.entity target))
  | ERelation target =>
      foldl (must_relation world target) acc
            (SemanticWorld.get_elements_by_type world (Relation.source target))
  | _ => acc
  end.

Definition _check_completeness (graph : DomainLanguageGraph.t)
  (world : SemanticWorld.t) : ConditionResult.t :=
  let acc :=
    foldl (fun acc lang =>
             foldl (must_rule world) acc (DomainLanguage.normative_rules lang))
          (mkCompleteness [] false false)
          (Py.dict_values (DomainLanguageGraph.languages graph)) in
  let status :=
    if failed acc then FAIL
    else if has_unknowns acc then UNKNOWN_PRESENT
    else PASS in
  ConditionResult.mk 3 "Completeness with Explicit Gaps" status (details acc).

Definition _check_no_inference (world : SemanticWorld.t) : ConditionResult.t :=
  let details := [] in
  let details :=
    foldl (fun details elem =>
             if String.eqb (SemanticElement.provenance elem) "" then
               details ++
                 ["Element '" +:+ SemanticElement.identity elem +:+ "' ("
                  +:+ EntityType.name (SemanticElement.entity_type elem)
                  +:+ ") has no provenance — may be inferred"]
             else details)
          details (SemanticWorld.elements world) in
  let details :=
    foldl (fun details rel =>
             if String.eqb (SemanticRelation.provenance rel) "" then
               details ++
                 ["Relation '" +:+ Relation.name (SemanticRelation.relation rel)
                  +:+ "' (" +:+ SemanticRelation.source_id rel +:+ " -> "
                  +:+ SemanticRelation.target_id rel
                  +:+ ") has no provenance — may be inferred"]
             else details)
          details (SemanticWorld.relations world) in
  ConditionResult.mk 4 "No Implicit Inference" PASS details.

Definition _check_consistency (graph : DomainLanguageGraph.t)
  (world : SemanticWorld.t) : Py.M ConditionResult.t :=
  rule_result ← evaluate_rules graph world;
  let acc : list string * bool := ([], false) in
  let acc :=
    foldl (fun '(details, failed) v => (details ++ [v], true))
          acc (RuleEvaluationResult.violations rule_result) in
  let acc :=
    foldl (fun '(details, failed) a => (details ++ [a], failed))
          acc (RuleEvaluationResult.advisories rule_result) in
  let '(details, failed) :=
    foldl (fun '(details, failed) cf =>
             (details ++ ["Constraint violation: " +:+ cf], true))
          acc (RuleEvaluationResult.constraint_failures rule_result) in
  mret (ConditionResult.mk 5 "Consistency" (if failed then FAIL else PASS) details).

(** ** validation.py: layers 2 and 2 + 3 *)

Definition check_admissibility (graph : DomainLanguageGraph.t)
  (world : SemanticWorld.t) : AdmissibilityResult.t :=
  let conditions := [] in
  let conditions := conditions ++ [_check_vocabulary_closure graph world] in
  let conditions := conditions ++ [_check_relation_admissibility graph world] in
  let conditions := conditions ++ [_check_completeness graph world] in
  let conditions := conditions ++ [_check_no_inference world] in
  AdmissibilityResult.mk conditions.

Definition validate (graph : DomainLanguageGraph.t) (world : SemanticWorld.t)
  : Py.M ValidationResult.t :=
  let conditions := [] in
  let conditions := conditions ++ [_check_vocabulary_closure graph world] in
  let conditions := conditions ++ [_check_relation_admissibility graph world] in
  let conditions := conditions ++ [_check_completeness graph world] in
  let conditions := conditions ++ [_check_no_inference world] in
  consistency ← _check_consistency graph world;
  let conditions := conditions ++ [consistency] in
  mret (ValidationResult.mk conditions).

(** ** validation.py: layer 1, self-validation *)

Module SelfValidationResult.
Record t := mk {
  errors : list string;
  warnings : list string;
}.

Definition is_valid (self : t) : bool := Nat.eqb (length (errors self)) 0.
End SelfValidationResult.

(** Body of [for diag in diagnostics]. *)
Definition record_diagnostic (lang : DomainLanguage.t)
  (result : SelfValidationResult.t) (diag : InteractionDiagnostic.t)
  : SelfValidationResult.t :=
  let msg :=
    "[" +:+ DomainLanguage.name lang +:+ "] "
    +:+ InteractionDiagnostic.message diag in
  if bool_decide (InteractionDiagnostic.severity diag = ERROR)
  then SelfValidationResult.mk (SelfValidationResult.errors result ++ [msg])
         (SelfValidationResult.warnings result)
  else SelfValidationResult.mk (SelfValidationResult.errors result)
         (SelfValidationResult.warnings result ++ [msg]).

(** Body of the loop over the names in the orphan detection. *)
Definition record_orphan (graph : DomainLanguageGraph.t)
  (imported_by : Py.dict string (list string))
  (result : SelfValidationResult.t) (name : string)
  : Py.Outcome SelfValidationResult.t :=
  let has_outgoing :=
    existsb (fun e => bool_decide (DomLGEdge.source e = name))
            (DomainLanguageGraph.edges graph) in
  match Py.dict_get imported_by name with
  | None => Py.KeyError name
  | Some sources =>
      let has_incoming := negb (Nat.eqb (length sources) 0) in
      if negb has_outgoing && negb has_incoming then
        Py.Returned
          (SelfValidationResult.mk (SelfValidationResult.errors result)
             (SelfValidationResult.warnings result
              ++ ["Orphaned language: '" +:+ name
                  +:+ "' has no edges in the graph"]))
      else Py.Returned result
  end.

(** The outer [option] is the bound on the recursion of [dfs]. *)
Definition self_validate (graph : DomainLanguageGraph.t)
  : option (Py.Outcome SelfValidationResult.t) :=
  structural ← DomainLanguageGraph.structural_validation graph;
  Some (
    structural_errors ← structural;
    let result := SelfValidationResult.mk ([] ++ structural_errors) [] in
    let langs := Py.dict_values (DomainLanguageGraph.languages graph) in
    let result :=
      foldl (fun result lang =>
               foldl (record_diagnostic lang) result
                     (DomainLanguage.check_normative_interactions lang))
            result langs in
    let result :=
      foldl (fun result lang =>
               let closure_errors :=
                 DomainLanguage.check_closure lang
                   (Some (DomainLanguageGraph.languages graph)) in
               SelfValidationResult.mk
                 (SelfValidationResult.errors result
                  ++ ((fun e => "[" +:+ DomainLanguage.name lang +:+ "] " +:+ e)
                        <$> closure_errors))
                 (SelfValidationResult.warnings result))
            result langs in
    let names := Py.dict_keys (DomainLanguageGraph.languages graph) in
    imported_by ←
      Py.fold_outcome
        (fun imported_by edge =>
           DomainLanguageGraph.add_under imported_by
             (DomLGEdge.target edge) (DomLGEdge.source edge))
        ((fun name => (name, [])) <$> names)
        (DomainLanguageGraph.edges graph);
    if Nat.ltb 1 (length (DomainLanguageGraph.languages graph))
    then Py.fold_outcome (record_orphan graph imported_by) result names
    else mret result).

(** * Properties *)

(** ** Self-QC: the pairwise decision table *)

(** The operators of the two rules are a key of [_CONFLICTING_PAIRS]. *)
Definition conflicting_pair (a b : NormativeOp) : Prop :=
  frozenset a b ∈ dom _CONFLICTING_PAIRS.

#[global] Instance conflicting_pair_dec a b : Decision (conflicting_pair a b).
Proof. unfold conflicting_pair. apply _. Defined.

(** [rule.target.condition is not None] *)
Definition conditional (rule : NormativeRule.t) : bool :=
  bool_decide (NormativeTarget.condition (NormativeRule.target rule) ≠ None).

(** ** Rule evaluation read as a function

    What one turn of each loop of [evaluate_rules] appends to the result,
    and which callable it calls.  [evaluate_rules_run] below proves that the
    evaluator computes exactly this. *)

Definition rule_calls (op : NormativeOp) (rule : NormativeRule.t) : list nat :=
  if bool_decide (NormativeRule.operator rule = op) then
    match NormativeTarget.condition (NormativeRule.target rule) with
    | Some condition => [Callable.fid condition]
    | None => []
    end
  else [].

Definition language_calls (lang : DomainLanguage.t) : list nat :=
  (DomainLanguage.normative_rules lang ≫= rule_calls MUST_NOT)
  ++ (DomainLanguage.normative_rules lang ≫= rule_calls SHOULD)
  ++ (DomainLanguage.normative_rules lang ≫= rule_calls SHOULD_NOT)
  ++ ((fun c => Callable.fid (Constraint.predicate c))
        <$> DomainLanguage.constraints lang).

Definition graph_calls (graph : DomainLanguageGraph.t) : list nat :=
  Py.dict_values (DomainLanguageGraph.languages graph) ≫= language_calls.

Definition must_not_findings (world : SemanticWorld.t) (rule : NormativeRule.t)
  : list string :=
  if bool_decide (NormativeRule.operator rule = MUST_NOT) then
    let target := NormativeRule.target rule in
    match NormativeTarget.condition target with
    | Some condition =>
        match Callable.apply condition world with
        | Py.Returned violation =>
            if Py.truthy violation
            then ("MUST_NOT violation: " +:+ describe target) :: arrows violation
            else []
        | Py.Raised e => ["Error evaluating MUST_NOT condition: " +:+ Py.msg e]
        end
    | None =>
        match NormativeTarget.element target with
        | EEntity entity =>
            let found := SemanticWorld.get_elements_by_type world entity in
            if negb (Nat.eqb (length found) 0)
            then ["MUST_NOT(" +:+ EntityType.repr entity
                  +:+ "): forbidden entity type found ("
                  +:+ Py.str_of_nat (length found) +:+ " instances)"]
            else []
        | _ => []
        end
    end
  else [].

Definition advisory_findings (op : NormativeOp) (label : string)
  (world : SemanticWorld.t) (rule : NormativeRule.t) : list string :=
  if bool_decide (NormativeRule.operator rule = op) then
    let target := NormativeRule.target rule in
    match NormativeTarget.condition target with
    | Some condition =>
        match Callable.apply condition world with
        | Py.Returned issue =>
            if Py.truthy issue
            then (label +:+ " advisory: " +:+ describe target) :: arrows issue
            else []
        | Py.Raised _ => []
        end
    | None => []
    end
  else [].

Definition constraint_findings (lang : DomainLanguage.t)
  (world : SemanticWorld.t) (constraint : Constraint.t) : list string :=
  match Callable.apply (Constraint.predicate constraint) world with
  | Py.Returned satisfied =>
      if negb (Py.truthy satisfied)
      then ["[" +:+ DomainLanguage.name lang +:+ "] "
            +:+ Constraint.name constraint +:+ ": "
            +:+ Constraint.description constraint]
      else []
  | Py.Raised e =>
      ["Error evaluating constraint '" +:+ Constraint.name constraint
       +:+ "': " +:+ Py.msg e]
  end.

Definition language_findings (world : SemanticWorld.t) (lang : DomainLanguage.t)
  : RuleEvaluationResult.t :=
  RuleEvaluationResult.mk
    (DomainLanguage.normative_rules lang ≫= must_not_findings world)
    ((DomainLanguage.normative_rules lang
        ≫= advisory_findings SHOULD "SHOULD" world)
     ++ (DomainLanguage.normative_rules lang
           ≫= advisory_findings SHOULD_NOT "SHOULD_NOT" world))
    (DomainLanguage.constraints lang ≫= constraint_findings lang world).

(** [result] after the three lists of [more] were appended to its own. *)
Definition extend (result more : RuleEvaluationResult.t) : RuleEvaluationResult.t :=
  RuleEvaluationResult.mk
    (RuleEvaluationResult.violations result ++ RuleEvaluationResult.violations more)
    (RuleEvaluationResult.advisories result ++ RuleEvaluationResult.advisories more)
    (RuleEvaluationResult.constraint_failures result
     ++ RuleEvaluationResult.constraint_failures more).

Definition graph_findings (graph : DomainLanguageGraph.t) (world : SemanticWorld.t)
  : RuleEvaluationResult.t :=
  foldl extend (RuleEvaluationResult.mk [] [] [])
        (language_findings world
           <$> Py.dict_values (DomainLanguageGraph.languages graph)).

(** The same callable, rule, language and graph, except that a condition
    answering [UNKNOWN] answers [False] instead. *)
Definition answering_false (f : Callable.t) : Callable.t :=
  Callable.mk (Callable.fid f)
    (fun world =>
       match Callable.apply f world with
       | Py.Returned Py.VUnknown => Py.Returned (Py.VBool false)
       | outcome => outcome
       end).

Definition rule_answering_false (rule : NormativeRule.t) : NormativeRule.t :=
  let target := NormativeRule.target rule in
  NormativeRule.mk (NormativeRule.oid rule) (NormativeRule.operator rule)
    (NormativeTarget.mk (NormativeTarget.element target)
       (answering_false <$> NormativeTarget.condition target)
       (NormativeTarget.description target))
    (NormativeRule.override_ref rule).

Definition language_answering_false (lang : DomainLanguage.t) : DomainLanguage.t :=
  DomainLanguage.mk (DomainLanguage.name lang) (DomainLanguage.entities lang)
    (DomainLanguage.attributes lang) (DomainLanguage.operations lang)
    (rule_answering_false <$> DomainLanguage.normative_rules lang)
    (DomainLanguage.constraints lang) (DomainLanguage.imports lang)
    (DomainLanguage.relations lang).

Definition graph_answering_false (graph : DomainLanguageGraph.t)
  : DomainLanguageGraph.t :=
  DomainLanguageGraph.mk
    (prod_map id language_answering_false <$> DomainLanguageGraph.languages graph)
    (DomainLanguageGraph.edges graph).

(** ** Completeness, in terms of the world

    [requirement_unmet world rule elem]: [rule] is a MUST on an attribute
    that [elem], an instance of the owning entity type, carries no value for
    (no key, or the value [None]), or a MUST on a relation of which [elem],
    an instance of the source type, is the source of no asserted edge. *)
Definition requirement_unmet (world : SemanticWorld.t) (rule : NormativeRule.t)
  (elem : SemanticElement.t) : Prop :=
  NormativeRule.operator rule = MUST
  ∧ elem ∈ SemanticWorld.elements world
  ∧ match NormativeTarget.element (NormativeRule.target rule) with
    | EAttribute target =>
        SemanticElement.entity_type elem = Attribute.entity target
        ∧ (SemanticElement.attribute_values elem !! Attribute.name target = None
           ∨ SemanticElement.attribute_values elem !! Attribute.name target
             = Some Py.VNone)
    | ERelation target =>
        SemanticElement.entity_type elem = Relation.source target
        ∧ ¬ ∃ sr, sr ∈ SemanticWorld.relations world
                  ∧ SemanticRelation.relation sr = target
                  ∧ SemanticRelation.source_id sr = SemanticElement.identity elem
    | _ => False
    end.

(** [explicit_gap world rule elem]: [rule] is a MUST on an attribute for
    which [elem], an instance of the owning entity type, carries [UNKNOWN]. *)
Definition explicit_gap (world : SemanticWorld.t) (rule : NormativeRule.t)
  (elem : SemanticElement.t) : Prop :=
  NormativeRule.operator rule = MUST
  ∧ elem ∈ SemanticWorld.elements world
  ∧ match NormativeTarget.element (NormativeRule.target rule) with
    | EAttribute target =>
        SemanticElement.entity_type elem = Attribute.entity target
        ∧ SemanticElement.attribute_values elem !! Attribute.name target
          = Some Py.VUnknown
    | _ => False
    end.

(** The same as tests, the way the loops of [_check_completeness] decide
    them; [rule_failed_unmet] and [rule_unknown_gap] relate the two. *)
Definition attribute_omitted (target : Attribute.t) (elem : SemanticElement.t)
  : bool :=
  Py.is_None (SemanticElement.attribute_values elem !! Attribute.name target).

Definition attribute_unknown (target : Attribute.t) (elem : SemanticElement.t)
  : bool :=
  match SemanticElement.attribute_values elem !! Attribute.name target with
  | Some v => Py.is_UNKNOWN v
  | None => false
  end.

Definition relation_missing (world : SemanticWorld.t) (target : Relation.t)
  (elem : SemanticElement.t) : bool :=
  negb (existsb (fun sr =>
                   bool_decide (SemanticRelation.relation sr = target)
                   && bool_decide (SemanticRelation.source_id sr
                                   = SemanticElement.identity elem))
                (SemanticWorld.relations world)).

Definition rule_failed (world : SemanticWorld.t) (rule : NormativeRule.t) : bool :=
  bool_decide (NormativeRule.operator rule = MUST)
  && match NormativeTarget.element (NormativeRule.target rule) with
     | EAttribute target =>
         existsb (attribute_omitted target)
           (SemanticWorld.get_elements_by_type world (Attribute.entity target))
     | ERelation target =>
         existsb (relation_missing world target)
           (SemanticWorld.get_elements_by_type world (Relation.source target))
     | _ => false
     end.

Definition rule_unknown (world : SemanticWorld.t) (rule : NormativeRule.t) : bool :=
  bool_decide (NormativeRule.operator rule = MUST)
  && match NormativeTarget.element (NormativeRule.target rule) with
     | EAttribute target =>
         existsb (attribute_unknown target)
           (SemanticWorld.get_elements_by_type world (Attribute.entity target))
     | _ => false
     end.

(** Some rule of some language of the graph, and some element of the world. *)
Definition somewhere (graph : DomainLanguageGraph.t)
  (P : NormativeRule.t → SemanticElement.t → Prop) : Prop :=
  ∃ lang rule elem,
    lang ∈ Py.dict_values (DomainLanguageGraph.languages graph)
    ∧ rule ∈ DomainLanguage.normative_rules lang
    ∧ P rule elem.

(** ** Closure: what a rule target may resolve to

    [resolvable self resolved x]: [x] is in the vocabulary of [self], or is a
    relation [self] declares, or, when resolved imports are supplied, is in
    the vocabulary of a language that an import declaration of [self]
    resolves to. *)
Definition resolvable (self : DomainLanguage.t)
  (resolved : option (Py.dict string DomainLanguage.t)) (x : Element) : Prop :=
  x ∈ DomainLanguage.vocab self
  ∨ (∃ rel, rel ∈ DomainLanguage.relations self ∧ x = ERelation rel)
  ∨ (∃ languages imp imported,
       resolved = Some languages
       ∧ imp ∈ DomainLanguage.imports self
       ∧ Py.dict_get languages (ImportDecl.target_name imp) = Some imported
       ∧ x ∈ DomainLanguage.vocab imported).

(** An import declaration of [self] that the supplied languages do not
    resolve. *)
Definition unresolved (self : DomainLanguage.t)
  (resolved : option (Py.dict string DomainLanguage.t)) (imp : ImportDecl.t)
  : Prop :=
  ∃ languages,
    resolved = Some languages
    ∧ imp ∈ DomainLanguage.imports self
    ∧ Py.dict_get languages (ImportDecl.target_name imp) = None.

(** [errors] is a list of errors for the unresolved imports followed by a
    list of errors for the rules whose target is not resolvable, and holds
    nothing else. *)
Definition check_closure_errors_of (self : DomainLanguage.t)
  (resolved : option (Py.dict string DomainLanguage.t)) (errors : list string)
  : Prop :=
  ∃ import_errors rule_errors,
    errors = import_errors ++ rule_errors
    ∧ (∀ error,
         error ∈ import_errors
         ↔ ∃ imp, unresolved self resolved imp
                  ∧ error = DomainLanguage.unresolved_import_error imp)
    ∧ (∀ error,
         error ∈ rule_errors
         ↔ ∃ rule,
             rule ∈ DomainLanguage.normative_rules self
             ∧ ¬ resolvable self resolved
                   (NormativeTarget.element (NormativeRule.target rule))
             ∧ error = DomainLanguage.unknown_element_error rule).

(** ** Orders on language names *)



(** [xs.index(x)], when [x] is in [xs]. *)
Fixpoint index (xs : list string) (x : string) : option nat :=
  match xs with
  | [] => None
  | y :: xs' => if decide (y = x) then Some 0 else S <$> index xs' x
  end.

(** ** The import graph as a relation *)

(** The graph has an edge from [u] to [v]: [u] imports [v]. *)
Definition import_edge (self : DomainLanguageGraph.t) (u v : string) : Prop :=
  ∃ edge, edge ∈ DomainLanguageGraph.edges self
          ∧ DomLGEdge.source edge = u ∧ DomLGEdge.target edge = v.

(** [c] lists the nodes of a cycle of import edges, its first node repeated
    at the end. *)
Definition import_cycle (self : DomainLanguageGraph.t) (c : list string) : Prop :=
  (∃ n middle, c = n :: middle ++ [n])
  ∧ ∀ i u v, c !! i = Some u → c !! S i = Some v → import_edge self u v.

(** The invariants [add_edge] and [add_language] keep: the endpoints of
    every edge are languages of the graph, and every language is stored
    under its own name, once. *)
Definition edges_closed (self : DomainLanguageGraph.t) : Prop :=
  ∀ edge, edge ∈ DomainLanguageGraph.edges self →
    DomLGEdge.source edge ∈ Py.dict_keys (DomainLanguageGraph.languages self)
    ∧ DomLGEdge.target edge ∈ Py.dict_keys (DomainLanguageGraph.languages self).

Definition keyed_by_name (self : DomainLanguageGraph.t) : Prop :=
  NoDup (Py.dict_keys (DomainLanguageGraph.languages self))
  ∧ ∀ name lang, (name, lang) ∈ DomainLanguageGraph.languages self →
                 DomainLanguage.name lang = name.

(** The same as a test, and what [check_cross_references] reports for one
    import declaration of one language. *)
Definition has_edge (self : DomainLanguageGraph.t) (u v : string) : bool :=
  existsb (fun e => bool_decide (DomLGEdge.source e = u)
                    && bool_decide (DomLGEdge.target e = v))
          (DomainLanguageGraph.edges self).

Definition cross_findings (self : DomainLanguageGraph.t)
  (lang : DomainLanguage.t) (imp : ImportDecl.t) : list string :=
  if negb (Py.contains (Py.dict_keys (DomainLanguageGraph.languages self))
             (ImportDecl.target_name imp))
  then [DomainLanguageGraph.not_in_graph_error lang imp]
  else if negb (has_edge self (DomainLanguage.name lang)
                  (ImportDecl.target_name imp))
  then [DomainLanguageGraph.no_edge_error lang imp] else [].

(** Quantities and invariants of the depth-first search. *)
Definition whites (color : gmap string Color) : nat :=
  size (filter (fun kv : string * Color => kv.2 = WHITE) color).

Fixpoint walk (adj : gmap string (list string)) (p : list string) : Prop :=
  match p with
  | u :: ((v :: _) as rest) => v ∈ default [] (adj !! u) ∧ walk adj rest
  | _ => True
  end.

Definition gray_on_path (st : DomainLanguageGraph.DfsState) : Prop :=
  ∀ x, DomainLanguageGraph.color st !! x = Some GRAY →
       x ∈ DomainLanguageGraph.path st.

Definition closed (adj : gmap string (list string)) (c : list string) : Prop :=
  walk adj c ∧ ∃ n middle, c = n :: middle ++ [n].

(** ** Rule evaluation, in terms of the world *)

(** [rule] is a MUST_NOT rule that the world violates: its condition
    returns a truthy value or raises, or it has no condition, targets an
    entity type and the world holds an instance of that type. *)
Definition violated (world : SemanticWorld.t) (rule : NormativeRule.t) : Prop :=
  NormativeRule.operator rule = MUST_NOT
  ∧ match NormativeTarget.condition (NormativeRule.target rule) with
    | Some condition =>
        match Callable.apply condition world with
        | Py.Returned violation => Py.truthy violation = true
        | Py.Raised _ => True
        end
    | None =>
        match NormativeTarget.element (NormativeRule.target rule) with
        | EEntity entity =>
            ∃ elem, elem ∈ SemanticWorld.elements world
                    ∧ SemanticElement.entity_type elem = entity
        | _ => False
        end
    end.

(** The predicate of [constraint] returns a falsy value or raises. *)
Definition broken (world : SemanticWorld.t) (constraint : Constraint.t) : Prop :=
  match Callable.apply (Constraint.predicate constraint) world with
  | Py.Returned satisfied => Py.truthy satisfied = false
  | Py.Raised _ => True
  end.

(** The two invariants of the builder API can be tested. *)
#[global] Instance edges_closed_dec self : Decision (edges_closed self).
Proof.
  destruct (decide (Forall
                      (fun edge =>
                         DomLGEdge.source edge
                           ∈ Py.dict_keys (DomainLanguageGraph.languages self)
                         ∧ DomLGEdge.target edge
                             ∈ Py.dict_keys (DomainLanguageGraph.languages self))
                      (DomainLanguageGraph.edges self))) as [Hall|Hnot];
    [left|right].
  - intros edge Hedge. exact (proj1 (Forall_forall _ _) Hall edge Hedge).
  - intros Hclosed. apply Hnot, Forall_forall. exact Hclosed.
Defined.

#[global] Instance keyed_by_name_dec self : Decision (keyed_by_name self).
Proof.
  destruct (decide (NoDup (Py.dict_keys (DomainLanguageGraph.languages self))))
    as [Hnodup|Hdup]; [|right; intros [? _]; contradiction].
  destruct (decide (Forall (fun kv : string * DomainLanguage.t =>
                              DomainLanguage.name kv.2 = kv.1)
                           (DomainLanguageGraph.languages self)))
    as [Hall|Hnot]; [left|right].
  - split; [exact Hnodup|]. intros name lang Hin.
    exact (proj1 (Forall_forall _ _) Hall (name, lang) Hin).
  - intros [_ Hkey]. apply Hnot, Forall_forall. intros [name lang] Hin.
    exact (Hkey name lang Hin).
Defined.

(** ** Relation admissibility, in terms of the graph and the world *)

(** The language stored under [name] declares the entity type. *)
Definition declares (graph : DomainLanguageGraph.t) (name : string)
  (entity : EntityType.t) : Prop :=
  ∃ lang, (name, lang) ∈ DomainLanguageGraph.languages graph
          ∧ entity ∈ DomainLanguage.entities lang.

(** Both entity types are declared, no language declares both, and no edge
    of the graph joins a language declaring one to a language declaring the
    other, in either direction. *)
Definition cross_language_gap (graph : DomainLanguageGraph.t)
  (s t : EntityType.t) : Prop :=
  (∃ name, declares graph name s)
  ∧ (∃ name, declares graph name t)
  ∧ (∀ name, ¬ (declares graph name s ∧ declares graph name t))
  ∧ ∀ edge, edge ∈ DomainLanguageGraph.edges graph →
      ¬ (declares graph (DomLGEdge.source edge) s
         ∧ declares graph (DomLGEdge.target edge) t)
      ∧ ¬ (declares graph (DomLGEdge.source edge) t
           ∧ declares graph (DomLGEdge.target edge) s).

(** What makes one asserted relation inadmissible. *)
Definition inadmissible (graph : DomainLanguageGraph.t) (world : SemanticWorld.t)
  (sem_rel : SemanticRelation.t) : Prop :=
  let rel := SemanticRelation.relation sem_rel in
  (∀ lang, lang ∈ Py.dict_values (DomainLanguageGraph.languages graph) →
           rel ∉ DomainLanguage.relations lang)
  ∨ match SemanticWorld.get_element_by_id world
            (SemanticRelation.source_id sem_rel),
          SemanticWorld.get_element_by_id world
            (SemanticRelation.target_id sem_rel) with
    | Some source_elem, Some target_elem =>
        SemanticElement.entity_type source_elem ≠ Relation.source rel
        ∨ SemanticElement.entity_type target_elem ≠ Relation.target rel
        ∨ cross_language_gap graph (SemanticElement.entity_type source_elem)
            (SemanticElement.entity_type target_elem)
    | _, _ => True
    end.

(** ** Admissibility, in terms of the graph and the world

    Every element has a declared entity type, every asserted edge has a
    declared relation and is admissible, and no MUST requirement is unmet. *)
Definition admissible (graph : DomainLanguageGraph.t) (world : SemanticWorld.t)
  : Prop :=
  (∀ elem, elem ∈ SemanticWorld.elements world →
     ∃ lang, lang ∈ Py.dict_values (DomainLanguageGraph.languages graph)
             ∧ SemanticElement.entity_type elem ∈ DomainLanguage.entities lang)
  ∧ (∀ rel, rel ∈ SemanticWorld.relations world →
       ∃ lang, lang ∈ Py.dict_values (DomainLanguageGraph.languages graph)
               ∧ SemanticRelation.relation rel ∈ DomainLanguage.relations lang)
  ∧ (∀ sem_rel, sem_rel ∈ SemanticWorld.relations world →
                ¬ inadmissible graph world sem_rel)
  ∧ ¬ somewhere graph (requirement_unmet world).

(** The condition of [rule] is one the evaluator calls. *)
Definition called (rule : NormativeRule.t) : bool :=
  bool_decide (NormativeRule.operator rule ∈ [MUST_NOT; SHOULD; SHOULD_NOT])
  && conditional rule.



(** ** Self-validation, list by list *)




(** What the third loop appends for one language. *)
Definition closure_errors (graph : DomainLanguageGraph.t)
  (lang : DomainLanguage.t) : list string :=
  (fun e => "[" +:+ DomainLanguage.name lang +:+ "] " +:+ e)
    <$> DomainLanguage.check_closure lang
          (Some (DomainLanguageGraph.languages graph)).



(** ** Concrete domains and worlds *)

Module Example.

Definition Person : EntityType.t := EntityType.mk "Person".
Definition Alien : EntityType.t := EntityType.mk "Alien".

Definition Person_name : Attribute.t :=
  Attribute.mk "name" Person (Some "str") REQUIRED.
Definition Person_age : Attribute.t :=
  Attribute.mk "age" Person (Some "int") REQUIRED.

Definition knows : Relation.t := Relation.mk "knows" Person Person.

(** [lambda world: v] and a callable that raises [Exception(msg)]. *)
Definition answering (fid : nat) (v : Py.Value) : Callable.t :=
  Callable.mk fid (fun _ => Py.Returned v).

Definition rule (oid : nat) (op : NormativeOp) (element : Element)
  (condition : option Callable.t) : NormativeRule.t :=
  NormativeRule.mk oid op (NormativeTarget.mk element condition "") None.

(** Self-QC: rules on the entity [Person]. *)
Definition must_person : NormativeRule.t := rule 1 MUST (EEntity Person) None.
Definition must_not_person : NormativeRule.t :=
  rule 2 MUST_NOT (EEntity Person) None.
Definition must_not_person_overriding : NormativeRule.t :=
  NormativeRule.mk 3 MUST_NOT (NormativeTarget.mk (EEntity Person) None "")
    (Some must_person).
Definition must_not_person_if : NormativeRule.t :=
  rule 4 MUST_NOT (EEntity Person) (Some (answering 10 (Py.VBool true))).

(** A language declaring [Person], its two attributes and [knows]. *)
Definition language (rules : list NormativeRule.t)
  (constraints : list Constraint.t) (imports : list ImportDecl.t)
  : DomainLanguage.t :=
  DomainLanguage.mk "people" [Person] [(Person, [Person_name; Person_age])] []
    rules constraints imports [knows].

Definition graph (lang : DomainLanguage.t) : DomainLanguageGraph.t :=
  DomainLanguageGraph.mk [(DomainLanguage.name lang, lang)] [].

(** Completeness. *)
Definition must_age : NormativeRule.t := rule 5 MUST (EAttribute Person_age) None.
Definition must_name : NormativeRule.t :=
  rule 6 MUST (EAttribute Person_name) None.

Definition alice_age_unknown : SemanticElement.t :=
  SemanticElement.mk Person "p1"
    (<["name" := Py.VStr "Alice"]> (<["age" := Py.VUnknown]> ∅)) "input".
Definition nameless_age_unknown : SemanticElement.t :=
  SemanticElement.mk Person "p1" (<["age" := Py.VUnknown]> ∅) "input".

Definition world (elements : list SemanticElement.t) : SemanticWorld.t :=
  SemanticWorld.mk elements [].

(** Gating and error handling. *)
Definition zog : SemanticElement.t :=
  SemanticElement.mk Alien "a1" (<["name" := Py.VStr "Zog"]> ∅) "".

Definition must_not_flagged : NormativeRule.t :=
  rule 7 MUST_NOT (EEntity Person)
    (Some (answering 11 (Py.VList ["p1 is flagged"]))).
Definition must_not_unknown : NormativeRule.t :=
  rule 10 MUST_NOT (EEntity Person) (Some (answering 14 Py.VUnknown)).


(** The import graph: two languages, [B] importing [A]. *)
Definition empty_language (name : string) : DomainLanguage.t :=
  DomainLanguage.mk name [] [] [] [] [] [] [].

Definition b_imports_a : DomainLanguageGraph.t :=
  DomainLanguageGraph.mk
    [("A", empty_language "A"); ("B", empty_language "B")]
    [DomLGEdge.mk "B" "A" IMPORTS].

Definition chain_a_b_c : DomainLanguageGraph.t :=
  DomainLanguageGraph.mk
    [("A", empty_language "A"); ("B", empty_language "B");
     ("C", empty_language "C")]
    [DomLGEdge.mk "A" "B" IMPORTS; DomLGEdge.mk "B" "C" IMPORTS].

(** Cross references: [B] declares that it imports [A]. *)
Definition importing (name target : string) : DomainLanguage.t :=
  DomainLanguage.mk name [] [] [] [] [] [ImportDecl.mk target] [].

Definition b_declares_a : DomainLanguageGraph.t :=
  DomainLanguageGraph.mk [("A", empty_language "A"); ("B", importing "B" "A")]
    [DomLGEdge.mk "B" "A" IMPORTS].


(** An edge from a name that is no language, appended to the public list of
    edges without [add_edge]. *)
Definition dangling_edge : DomainLanguageGraph.t :=
  DomainLanguageGraph.mk [("A", empty_language "A")]
    [DomLGEdge.mk "X" "A" IMPORTS].

(** A world in which [p1] knows [p2], who is not in the world. *)
Definition alice_knows_nobody : SemanticWorld.t :=
  SemanticWorld.mk [alice_age_unknown]
    [SemanticRelation.mk knows "p1" "p2" "input"].

End Example.

Section SelfQC.

Implicit Types a b : NormativeRule.t.

Lemma conflicting_pair_table (x y : NormativeOp) :
  bool_decide (conflicting_pair x y) = negb (is_compatible_pair x y).
Proof. destruct x, y; vm_compute; reflexivity. Qed.

(** Every pair of operators is in exactly one of the two tables. *)
Lemma conflicting_not_compatible (x y : NormativeOp) :
  conflicting_pair x y ↔ is_compatible_pair x y = false.
Proof.
  rewrite <- (bool_decide_spec (conflicting_pair x y)), conflicting_pair_table.
  destruct (is_compatible_pair x y); simpl; naive_solver.
Qed.

(** The table has the six unordered pairs of the documentation. *)
Lemma conflicting_pair_six (x y : NormativeOp) :
  conflicting_pair x y ↔
  (x, y) ∈ [(MUST, MUST_NOT); (MUST, SHOULD_NOT); (SHOULD, MUST_NOT);
            (SHOULD, SHOULD_NOT); (MAY, MUST_NOT); (MAY, SHOULD_NOT)]
  ∨ (y, x) ∈ [(MUST, MUST_NOT); (MUST, SHOULD_NOT); (SHOULD, MUST_NOT);
              (SHOULD, SHOULD_NOT); (MAY, MUST_NOT); (MAY, SHOULD_NOT)].
Proof.
  rewrite <- (bool_decide_spec (conflicting_pair x y)).
  match goal with |- _ ↔ ?P => rewrite <- (bool_decide_spec P) end.
  destruct x, y; vm_compute; tauto.
Qed.

Lemma conflicting_pair_sym (x y : NormativeOp) :
  conflicting_pair x y → conflicting_pair y x.
Proof. rewrite !conflicting_pair_six. tauto. Qed.

Lemma same_target_sym a b : _same_target a b = _same_target b a.
Proof. unfold _same_target. apply bool_decide_ext. split; congruence. Qed.

(** What [check_interaction] does once the pair is known to conflict on one
    target: the first two tests of the function are settled. *)
Lemma check_interaction_conflicting a b :
  _same_target a b = true →
  conflicting_pair (NormativeRule.operator a) (NormativeRule.operator b) →
  ∃ detail,
    InteractionDiagnostic.message <$> check_interaction a b = Some detail
    ∧ check_interaction a b =
      Some (
        if negb (Bool.eqb (conditional a) (conditional b)) then
          InteractionDiagnostic.mk INFO EXCEPTION
            (if conditional a then a else b) (if conditional a then b else a)
            detail
        else if NormativeRule.overrides a b || NormativeRule.overrides b a then
          InteractionDiagnostic.mk INFO OVERRIDE a b detail
        else if conditional a && conditional b then
          InteractionDiagnostic.mk WARNING AMBIGUITY a b detail
        else InteractionDiagnostic.mk ERROR CONFLICT a b detail).
Proof.
  intros Hsame Hconf%conflicting_not_compatible.
  unfold check_interaction, conditional. rewrite Hsame, Hconf. cbn [negb].
  destruct (bool_decide (NormativeTarget.condition (NormativeRule.target a) ≠ None)),
    (bool_decide (NormativeTarget.condition (NormativeRule.target b) ≠ None)),
    (NormativeRule.overrides a b), (NormativeRule.overrides b a);
    cbn [Bool.eqb negb andb orb]; eexists; split; reflexivity.
Qed.

(** C1. Two rules on one target whose operators conflict and which are both
    conditional or both unconditional: when the override reference of one
    is the other, the finding is OVERRIDE with severity INFO; when neither
    names the other (in particular when neither has an override reference),
    it is CONFLICT with severity ERROR for two unconditional rules and
    AMBIGUITY with severity WARNING for two conditional ones. *)
Theorem check_interaction_equal_specificity a b :
  _same_target a b = true →
  conflicting_pair (NormativeRule.operator a) (NormativeRule.operator b) →
  conditional a = conditional b →
  ∃ detail,
    (NormativeRule.overrides a b = true ∨ NormativeRule.overrides b a = true →
     check_interaction a b =
       Some (InteractionDiagnostic.mk INFO OVERRIDE a b detail))
    ∧ (NormativeRule.overrides a b = false →
       NormativeRule.overrides b a = false →
       check_interaction a b =
         Some (if conditional a
               then InteractionDiagnostic.mk WARNING AMBIGUITY a b detail
               else InteractionDiagnostic.mk ERROR CONFLICT a b detail))
    ∧ (NormativeRule.override_ref a = None →
       NormativeRule.override_ref b = None →
       check_interaction a b =
         Some (if conditional a
               then InteractionDiagnostic.mk WARNING AMBIGUITY a b detail
               else InteractionDiagnostic.mk ERROR CONFLICT a b detail)).
Proof.
  intros Hsame Hconf Hspec.
  destruct (check_interaction_conflicting a b Hsame Hconf) as (detail & _ & ->).
  exists detail. rewrite <- Hspec.
  replace (Bool.eqb (conditional a) (conditional a)) with true
    by (by destruct (conditional a)).
  cbn [negb]. split; [|split].
  - intros [-> | ->]; [done|]. by rewrite orb_true_r.
  - intros -> ->. cbn [orb]. by destruct (conditional a).
  - unfold NormativeRule.overrides. intros -> ->. cbn [orb].
    by destruct (conditional a).
Qed.

(** C5. Two rules on one target whose operators conflict, one conditional
    and one not: the finding is EXCEPTION with severity INFO, the conditional
    rule is recorded first (the specific rule) and the unconditional one
    second (the general rule), and the finding, message included, is the
    same whichever rule is passed first. *)
Theorem check_interaction_exception_symmetric a b :
  _same_target a b = true →
  conflicting_pair (NormativeRule.operator a) (NormativeRule.operator b) →
  conditional a = true →
  conditional b = false →
  ∃ detail,
    check_interaction a b =
      Some (InteractionDiagnostic.mk INFO EXCEPTION a b detail)
    ∧ check_interaction b a =
      Some (InteractionDiagnostic.mk INFO EXCEPTION a b detail).
Proof.
  intros Hsame Hab Ha Hb.
  pose proof (conflicting_pair_sym _ _ Hab) as Hba.
  apply conflicting_not_compatible in Hab, Hba.
  pose proof Hsame as Helem. apply bool_decide_eq_true in Helem.
  unfold conditional in Ha, Hb. unfold check_interaction.
  rewrite <- (same_target_sym a b), Hsame, Hab, Hba, Ha, Hb, <- Helem.
  cbn [negb Bool.eqb]. eexists. split; reflexivity.
Qed.

Lemma check_interaction_finding a b d :
  check_interaction a b = Some d →
  InteractionDiagnostic.finding_type d ≠ NO_DEFAULT.
Proof.
  unfold check_interaction. intros H.
  repeat case_match; simplify_eq; cbn [InteractionDiagnostic.finding_type];
    discriminate.
Qed.

(** The severity of a finding is the one [_FINDING_SEVERITY] gives its kind. *)
Lemma check_interaction_severity a b d :
  check_interaction a b = Some d →
  InteractionDiagnostic.severity d
  = _FINDING_SEVERITY (InteractionDiagnostic.finding_type d).
Proof.
  unfold check_interaction. intros H.
  repeat case_match; simplify_eq; reflexivity.
Qed.

(** C8. No finding of [check_all_interactions] has the kind NO_DEFAULT,
    whatever the rules. *)
Theorem check_all_interactions_no_default (rules : list NormativeRule.t) :
  Forall (fun d => InteractionDiagnostic.finding_type d ≠ NO_DEFAULT)
         (check_all_interactions rules).
Proof.
  induction rules as [|a rest IH]; cbn [check_all_interactions]; [constructor|].
  apply Forall_app. split; [|exact IH].
  apply Forall_forall. intros d (b & _ & Hd)%list_elem_of_omap.
  by apply check_interaction_finding in Hd.
Qed.
End SelfQC.

(** ** Loops that accumulate *)

Section Loops.

Lemma foldl_extend_list {X Y} (f : X → list Y) (xs : list X) (acc : list Y) :
  foldl (fun acc item => acc ++ f item) acc xs = acc ++ (xs ≫= f).
Proof.
  revert acc. induction xs as [|x xs IH]; intros acc; cbn [foldl].
  - by rewrite app_nil_r.
  - by rewrite IH, bind_cons, app_assoc.
Qed.

(** A loop that appends a detail and sets [failed] for the bad items. *)
Lemma foldl_details_failed {X} (bad : X → bool) (detail : X → string)
  (xs : list X) (details : list string) (failed : bool) :
  foldl (fun '(details, failed) x =>
           if bad x then (details ++ [detail x], true) else (details, failed))
        (details, failed) xs
  = (details ++ (detail <$> filter (fun x => bad x = true) xs),
     failed || existsb bad xs).
Proof.
  revert details failed.
  induction xs as [|x xs IH]; intros details failed; cbn [foldl existsb].
  - by rewrite app_nil_r, orb_false_r.
  - destruct (bad x) eqn:Hbad; rewrite IH.
    + rewrite filter_cons_True by done. rewrite fmap_cons.
      by rewrite <- app_assoc, orb_true_r.
    + by rewrite filter_cons_False by congruence.
Qed.

(** The same loop without the flag. *)
Lemma foldl_details {X} (bad : X → bool) (detail : X → string)
  (xs : list X) (details : list string) :
  foldl (fun details x => if bad x then details ++ [detail x] else details)
        details xs
  = details ++ (detail <$> filter (fun x => bad x = true) xs).
Proof.
  revert details. induction xs as [|x xs IH]; intros details; cbn [foldl].
  - by rewrite app_nil_r.
  - destruct (bad x) eqn:Hbad; rewrite IH.
    + rewrite filter_cons_True by done. by rewrite fmap_cons, <- app_assoc.
    + by rewrite filter_cons_False by congruence.
Qed.

(** A flag that a loop body can only set is set by the loop exactly when
    some item sets it. *)
Lemma foldl_flag {X S} (flag : S → bool) (step : S → X → S) (hit : X → bool) :
  (∀ acc x, flag (step acc x) = flag acc || hit x) →
  ∀ xs acc, flag (foldl step acc xs) = flag acc || existsb hit xs.
Proof.
  intros Hstep xs. induction xs as [|x xs IH]; intros acc; cbn [foldl existsb].
  - by rewrite orb_false_r.
  - by rewrite IH, Hstep, orb_assoc.
Qed.

Lemma existsb_elem_of {X} (p : X → bool) (xs : list X) :
  existsb p xs = true ↔ ∃ x, x ∈ xs ∧ p x = true.
Proof.
  rewrite existsb_exists. by setoid_rewrite list_elem_of_In.
Qed.
End Loops.

(** ** Closure of a Domain Language *)

Section Closure.

Implicit Types (self : DomainLanguage.t) (x : Element).
Implicit Types (resolved : option (Py.dict string DomainLanguage.t)).

(** The vocabulary is the entities, the attributes of every entity and the
    operations; relations are not part of it. *)
Lemma vocab_spec self x :
  x ∈ DomainLanguage.vocab self
  ↔ (∃ e, e ∈ DomainLanguage.entities self ∧ x = EEntity e)
    ∨ (∃ attrs a, attrs ∈ Py.dict_values (DomainLanguage.attributes self)
                  ∧ a ∈ attrs ∧ x = EAttribute a)
    ∨ (∃ o, o ∈ DomainLanguage.operations self ∧ x = EOperation o).
Proof.
  unfold DomainLanguage.vocab. cbn zeta.
  rewrite (foldl_extend_list (fun attrs => EAttribute <$> attrs)).
  rewrite !elem_of_app, !list_elem_of_fmap, list_elem_of_bind.
  setoid_rewrite list_elem_of_fmap. rewrite elem_of_nil. naive_solver.
Qed.

Lemma relation_not_in_vocab self (rel : Relation.t) :
  ERelation rel ∉ DomainLanguage.vocab self.
Proof. rewrite vocab_spec. naive_solver. Qed.

(** The loop over the imports. *)
Lemma imports_loop (languages : Py.dict string DomainLanguage.t)
  (imports : list ImportDecl.t) (errors : list string) (extended : list Element) :
  foldl (fun '(errors, extended_vocab) imp =>
           match Py.dict_get languages (ImportDecl.target_name imp) with
           | None =>
               (errors ++ [DomainLanguage.unresolved_import_error imp],
                extended_vocab)
           | Some imported =>
               (errors, extended_vocab ++ DomainLanguage.vocab imported)
           end)
        (errors, extended) imports
  = (errors
       ++ (DomainLanguage.unresolved_import_error
             <$> filter (fun imp =>
                           Py.dict_get languages (ImportDecl.target_name imp) = None)
                   imports),
     extended
       ++ (imports ≫= fun imp =>
             match Py.dict_get languages (ImportDecl.target_name imp) with
             | Some imported => DomainLanguage.vocab imported
             | None => []
             end)).
Proof.
  revert errors extended.
  induction imports as [|imp imports IH]; intros errors extended; cbn [foldl].
  - by rewrite !app_nil_r.
  - rewrite bind_cons.
    destruct (Py.dict_get languages (ImportDecl.target_name imp)) eqn:Hget;
      rewrite IH.
    + rewrite filter_cons_False by congruence. by rewrite <- app_assoc.
    + rewrite filter_cons_True by done. by rewrite fmap_cons, <- app_assoc.
Qed.

(** The elements a target is looked up in, [all_elements] in the code. *)
Lemma all_elements_resolvable self resolved x :
  x ∈ (match resolved with
       | Some languages =>
           DomainLanguage.vocab self
             ++ (DomainLanguage.imports self ≫= fun imp =>
                   match Py.dict_get languages (ImportDecl.target_name imp) with
                   | Some imported => DomainLanguage.vocab imported
                   | None => []
                   end)
       | None => DomainLanguage.vocab self
       end) ++ (ERelation <$> DomainLanguage.relations self)
  ↔ resolvable self resolved x.
Proof.
  unfold resolvable. destruct resolved as [languages|].
  - rewrite !elem_of_app, list_elem_of_fmap, list_elem_of_bind. split.
    + intros [[?|(imp & Hx & Himp)]|(rel & -> & Hrel)]; [by left| |by right; left; exists rel].
      destruct (Py.dict_get languages (ImportDecl.target_name imp))
        as [imported|] eqn:Hget; [|by apply elem_of_nil in Hx].
      right. right. by exists languages, imp, imported.
    + intros [?|[(rel & Hrel & ->)|(ls & imp & imported & Hls & Himp & Hget & Hx)]];
        [by left; left|by right; exists rel|].
      left. right. exists imp. simplify_eq. by rewrite Hget.
  - rewrite elem_of_app, list_elem_of_fmap. naive_solver.
Qed.

(** [check_closure], loop by loop: first the imports that do not resolve,
    in the order of the declarations, then the rules whose target resolves
    to nothing, in the order of the rules. *)
Lemma check_closure_errors self resolved :
  check_closure_errors_of self resolved (DomainLanguage.check_closure self resolved).
Proof.
  unfold check_closure_errors_of, DomainLanguage.check_closure. cbn zeta.
  destruct resolved as [languages|].
  - rewrite imports_loop. cbn [app]. rewrite foldl_details. do 2 eexists.
    split; [reflexivity|]. split.
    + intros error. rewrite list_elem_of_fmap. setoid_rewrite list_elem_of_filter.
      unfold unresolved. naive_solver.
    + intros error. rewrite list_elem_of_fmap. setoid_rewrite list_elem_of_filter.
      setoid_rewrite negb_true_iff. unfold Py.contains.
      setoid_rewrite bool_decide_eq_false.
      setoid_rewrite (all_elements_resolvable self (Some languages)).
      naive_solver.
  - rewrite foldl_details. eexists [], _. split; [reflexivity|]. split.
    + intros error. rewrite elem_of_nil. unfold unresolved. naive_solver.
    + intros error. rewrite list_elem_of_fmap. setoid_rewrite list_elem_of_filter.
      setoid_rewrite negb_true_iff. unfold Py.contains.
      setoid_rewrite bool_decide_eq_false.
      setoid_rewrite (all_elements_resolvable self None).
      naive_solver.
Qed.


End Closure.

(** ** The topological order of the import graph *)

Section TopologicalOrder.

Import DomainLanguageGraph.

Implicit Types (xs : list string) (degrees : gmap string Z).













End TopologicalOrder.

(** ** The evaluator always returns, and computes the findings above *)

Section Evaluator.

Implicit Types (world : SemanticWorld.t) (result : RuleEvaluationResult.t).
Implicit Types (log : Py.CallLog).

Lemma extend_empty result :
  extend result (RuleEvaluationResult.mk [] [] []) = result.
Proof. destruct result. unfold extend. cbn. by rewrite !app_nil_r. Qed.

Lemma extend_assoc r1 r2 r3 : extend (extend r1 r2) r3 = extend r1 (extend r2 r3).
Proof. unfold extend. cbn. by rewrite !app_assoc. Qed.

Lemma add_violations result (more : list string) :
  foldl RuleEvaluationResult.add_violation result more
  = extend result (RuleEvaluationResult.mk more [] []).
Proof.
  revert result. induction more as [|s more IH]; intros result; cbn [foldl].
  - by rewrite extend_empty.
  - rewrite IH. destruct result. unfold extend, RuleEvaluationResult.add_violation.
    cbn. by rewrite !app_nil_r, <- app_assoc.
Qed.

Lemma add_advisories result (more : list string) :
  foldl RuleEvaluationResult.add_advisory result more
  = extend result (RuleEvaluationResult.mk [] more []).
Proof.
  revert result. induction more as [|s more IH]; intros result; cbn [foldl].
  - by rewrite extend_empty.
  - rewrite IH. destruct result. unfold extend, RuleEvaluationResult.add_advisory.
    cbn. by rewrite !app_nil_r, <- app_assoc.
Qed.

Lemma bind_nothing {X Y} (xs : list X) : xs ≫= (fun _ => @nil Y) = [].
Proof. induction xs as [|x xs IH]; [done|]. by rewrite bind_cons, IH. Qed.

Lemma bind_singleton {X Y} (f : X → Y) (xs : list X) :
  xs ≫= (fun x => [f x]) = f <$> xs.
Proof.
  induction xs as [|x xs IH]; [done|]. by rewrite bind_cons, fmap_cons, IH.
Qed.

(** A loop whose body always returns, appending [more x] to the result and
    [calls x] to the log, returns with everything appended in order. *)
Lemma for_each_run {X} (xs : list X)
  (body : X → RuleEvaluationResult.t → Py.M RuleEvaluationResult.t)
  (more : X → RuleEvaluationResult.t) (calls : X → list nat) :
  (∀ x result log,
     body x result log = (Py.Returned (extend result (more x)), log ++ calls x)) →
  ∀ result log,
    Py.for_each xs body result log
    = (Py.Returned (foldl extend result (more <$> xs)), log ++ (xs ≫= calls)).
Proof.
  intros Hbody. induction xs as [|x xs IH]; intros result log.
  - cbn. by rewrite app_nil_r.
  - cbn [Py.for_each fmap list_fmap foldl]. unfold Py.bind.
    rewrite Hbody, IH. by rewrite bind_cons, app_assoc.
Qed.

Lemma foldl_extend_fmap {X} (more : X → RuleEvaluationResult.t) (xs : list X)
  result :
  foldl extend result (more <$> xs)
  = extend result
      (RuleEvaluationResult.mk
         (xs ≫= fun x => RuleEvaluationResult.violations (more x))
         (xs ≫= fun x => RuleEvaluationResult.advisories (more x))
         (xs ≫= fun x => RuleEvaluationResult.constraint_failures (more x))).
Proof.
  revert result.
  induction xs as [|x xs IH]; intros result; cbn [foldl fmap list_fmap].
  - by rewrite extend_empty.
  - rewrite IH, extend_assoc, !bind_cons. reflexivity.
Qed.

Lemma must_not_rule_run world rule result log :
  must_not_rule world rule result log
  = (Py.Returned
       (extend result
          (RuleEvaluationResult.mk (must_not_findings world rule) [] [])),
     log ++ rule_calls MUST_NOT rule).
Proof.
  unfold must_not_rule, must_not_findings, rule_calls.
  destruct (bool_decide (NormativeRule.operator rule = MUST_NOT)); cbn [negb].
  2: { cbn. by rewrite extend_empty, app_nil_r. }
  destruct (NormativeTarget.condition (NormativeRule.target rule)) as [condition|].
  - unfold Py.try_except, mbind, M_bind, Py.bind, Callable.call.
    destruct (Callable.apply condition world) as [violation|e].
    + destruct (Py.truthy violation); cbn.
      * rewrite add_violations. unfold RuleEvaluationResult.add_violation, extend.
        cbn. by rewrite <- app_assoc, !app_nil_r.
      * by rewrite extend_empty.
    + cbn. unfold RuleEvaluationResult.add_violation, extend. cbn.
      by rewrite !app_nil_r.
  - destruct (NormativeTarget.element (NormativeRule.target rule));
      try (cbn; by rewrite extend_empty, app_nil_r).
    case_match; cbn; [|by rewrite extend_empty, app_nil_r].
    unfold RuleEvaluationResult.add_violation, extend. cbn. by rewrite !app_nil_r.
Qed.

Lemma advisory_rule_run op label world rule result log :
  advisory_rule op label world rule result log
  = (Py.Returned
       (extend result
          (RuleEvaluationResult.mk [] (advisory_findings op label world rule) [])),
     log ++ rule_calls op rule).
Proof.
  unfold advisory_rule, advisory_findings, rule_calls.
  destruct (bool_decide (NormativeRule.operator rule = op)); cbn [negb].
  2: { cbn. by rewrite extend_empty, app_nil_r. }
  destruct (NormativeTarget.condition (NormativeRule.target rule)) as [condition|].
  - unfold Py.try_except, mbind, M_bind, Py.bind, Callable.call.
    destruct (Callable.apply condition world) as [issue|e].
    + destruct (Py.truthy issue); cbn.
      * rewrite add_advisories. unfold RuleEvaluationResult.add_advisory, extend.
        cbn. by rewrite <- app_assoc, !app_nil_r.
      * by rewrite extend_empty.
    + cbn. by rewrite extend_empty.
  - cbn. by rewrite extend_empty, app_nil_r.
Qed.

Lemma constraint_predicate_run lang world constraint result log :
  constraint_predicate lang world constraint result log
  = (Py.Returned
       (extend result
          (RuleEvaluationResult.mk [] []
             (constraint_findings lang world constraint))),
     log ++ [Callable.fid (Constraint.predicate constraint)]).
Proof.
  unfold constraint_predicate, constraint_findings.
  unfold Py.try_except, mbind, M_bind, Py.bind, Callable.call.
  destruct (Callable.apply (Constraint.predicate constraint) world)
    as [satisfied|e].
  - destruct (Py.truthy satisfied); cbn; [by rewrite extend_empty|].
    unfold RuleEvaluationResult.add_constraint_failure, extend. cbn.
    by rewrite !app_nil_r.
  - cbn. unfold RuleEvaluationResult.add_constraint_failure, extend. cbn.
    by rewrite !app_nil_r.
Qed.

Lemma evaluate_language_run world lang result log :
  evaluate_language world lang result log
  = (Py.Returned (extend result (language_findings world lang)),
     log ++ language_calls lang).
Proof.
  unfold evaluate_language, mbind, M_bind, Py.bind.
  rewrite (for_each_run _ _ _ _ (must_not_rule_run world)).
  rewrite (for_each_run _ _ _ _ (advisory_rule_run SHOULD "SHOULD" world)).
  rewrite (for_each_run _ _ _ _ (advisory_rule_run SHOULD_NOT "SHOULD_NOT" world)).
  rewrite (for_each_run _ _ _ _ (constraint_predicate_run lang world)).
  rewrite !foldl_extend_fmap, !extend_assoc.
  cbn [RuleEvaluationResult.violations RuleEvaluationResult.advisories
       RuleEvaluationResult.constraint_failures].
  rewrite !bind_nothing. unfold language_calls, language_findings, extend.
  cbn [RuleEvaluationResult.violations RuleEvaluationResult.advisories
       RuleEvaluationResult.constraint_failures].
  rewrite !app_nil_r, !app_nil_l, <- !app_assoc.
  by rewrite bind_singleton.
Qed.

(** [evaluate_rules] returns on every graph and world: no call is made
    outside a [try] block.  The calls it makes do not depend on what the
    callables answer. *)
Lemma evaluate_rules_run graph world log :
  evaluate_rules graph world log
  = (Py.Returned (graph_findings graph world), log ++ graph_calls graph).
Proof.
  unfold evaluate_rules, graph_findings, graph_calls.
  apply (for_each_run _ _ _ _ (evaluate_language_run world)).
Qed.

Lemma graph_findings_lists graph world :
  graph_findings graph world
  = let langs := Py.dict_values (DomainLanguageGraph.languages graph) in
    RuleEvaluationResult.mk
      (langs ≫= fun lang =>
         DomainLanguage.normative_rules lang ≫= must_not_findings world)
      (langs ≫= fun lang =>
         (DomainLanguage.normative_rules lang
            ≫= advisory_findings SHOULD "SHOULD" world)
         ++ (DomainLanguage.normative_rules lang
               ≫= advisory_findings SHOULD_NOT "SHOULD_NOT" world))
      (langs ≫= fun lang =>
         DomainLanguage.constraints lang ≫= constraint_findings lang world).
Proof. unfold graph_findings. by rewrite foldl_extend_fmap. Qed.



Lemma bind_fmap {X Y Z} (f : X → Y) (g : Y → list Z) (xs : list X) :
  (f <$> xs) ≫= g = xs ≫= (fun x => g (f x)).
Proof.
  induction xs as [|x xs IH]; [done|].
  by rewrite fmap_cons, !bind_cons, IH.
Qed.

Lemma bind_ext {X Y} (f g : X → list Y) (xs : list X) :
  (∀ x, f x = g x) → xs ≫= f = xs ≫= g.
Proof.
  intros Hfg. induction xs as [|x xs IH]; [done|].
  by rewrite !bind_cons, Hfg, IH.
Qed.

(** What the loop bodies append when the condition answers [UNKNOWN] or
    [False]: nothing. *)
Lemma falsy_answer_no_finding world rule condition answer :
  NormativeTarget.condition (NormativeRule.target rule) = Some condition →
  Callable.apply condition world = Py.Returned answer →
  answer ∈ [Py.VUnknown; Py.VBool false] →
  must_not_findings world rule = []
  ∧ ∀ op label, advisory_findings op label world rule = [].
Proof.
  intros Hcond Hcall Hanswer.
  assert (Py.truthy answer = false) as Hfalsy.
  { apply elem_of_cons in Hanswer as [->|Hanswer]; [done|].
    apply elem_of_cons in Hanswer as [->|Hanswer]; [done|].
    by apply elem_of_nil in Hanswer. }
  unfold must_not_findings, advisory_findings.
  rewrite Hcond, Hcall, Hfalsy. split; [|intros op label]; by case_bool_decide.
Qed.

Lemma rule_answering_false_findings world rule :
  must_not_findings world (rule_answering_false rule) = must_not_findings world rule
  ∧ ∀ op label,
      advisory_findings op label world (rule_answering_false rule)
      = advisory_findings op label world rule.
Proof.
  unfold must_not_findings, advisory_findings, rule_answering_false, describe.
  cbn [NormativeRule.operator NormativeRule.target NormativeTarget.condition
       NormativeTarget.element NormativeTarget.description].
  destruct (NormativeTarget.condition (NormativeRule.target rule))
    as [condition|]; [|done].
  cbn [fmap option_fmap option_map answering_false Callable.apply].
  destruct (Callable.apply condition world) as [[]|]; done.
Qed.

Lemma rule_answering_false_calls op rule :
  rule_calls op (rule_answering_false rule) = rule_calls op rule.
Proof.
  unfold rule_calls, rule_answering_false.
  cbn [NormativeRule.operator NormativeRule.target NormativeTarget.condition].
  by destruct (NormativeTarget.condition (NormativeRule.target rule)).
Qed.

Lemma language_answering_false_findings world lang :
  language_findings world (language_answering_false lang)
  = language_findings world lang.
Proof.
  unfold language_findings, language_answering_false.
  cbn [DomainLanguage.normative_rules DomainLanguage.constraints].
  rewrite !bind_fmap.
  f_equal; [|f_equal]; apply bind_ext; intros rule;
    apply rule_answering_false_findings.
Qed.

Lemma language_answering_false_calls lang :
  language_calls (language_answering_false lang) = language_calls lang.
Proof.
  unfold language_calls, language_answering_false.
  cbn [DomainLanguage.normative_rules DomainLanguage.constraints].
  rewrite !bind_fmap.
  by rewrite !(bind_ext _ _ _ (rule_answering_false_calls _)).
Qed.

Lemma graph_answering_false_values graph :
  Py.dict_values (DomainLanguageGraph.languages (graph_answering_false graph))
  = language_answering_false
      <$> Py.dict_values (DomainLanguageGraph.languages graph).
Proof.
  unfold graph_answering_false, Py.dict_values.
  cbn [DomainLanguageGraph.languages]. rewrite <- !list_fmap_compose.
  apply list_fmap_ext. by intros _ [name lang] _.
Qed.

(** C10. A condition answering [UNKNOWN] adds no violation and no advisory,
    as one answering [False] does: the loop bodies of [evaluate_rules]
    return the result unchanged for either answer, and the evaluator
    returns the same thing, result and calls, on a graph and on the graph
    whose conditions answer [False] wherever they answered [UNKNOWN]. *)
Theorem unknown_condition_reads_as_false :
  (∀ world rule condition answer result log,
     NormativeTarget.condition (NormativeRule.target rule) = Some condition →
     Callable.apply condition world = Py.Returned answer →
     answer ∈ [Py.VUnknown; Py.VBool false] →
     must_not_rule world rule result log
     = (Py.Returned result, log ++ rule_calls MUST_NOT rule)
     ∧ ∀ op label,
         advisory_rule op label world rule result log
         = (Py.Returned result, log ++ rule_calls op rule))
  ∧ (∀ graph world log,
       evaluate_rules (graph_answering_false graph) world log
       = evaluate_rules graph world log).
Proof.
  split.
  - intros world rule condition answer result log Hcond Hcall Hanswer.
    destruct (falsy_answer_no_finding _ _ _ _ Hcond Hcall Hanswer) as [Hv Ha].
    split; [|intros op label].
    + by rewrite must_not_rule_run, Hv, extend_empty.
    + by rewrite advisory_rule_run, Ha, extend_empty.
  - intros graph world log. rewrite !evaluate_rules_run.
    unfold graph_findings, graph_calls.
    rewrite graph_answering_false_values, bind_fmap, <- list_fmap_compose,
      (bind_ext _ _ _ language_answering_false_calls).
    do 3 f_equal. apply list_fmap_ext. intros _ lang _.
    apply language_answering_false_findings.
Qed.
End Evaluator.

(** ** Admissibility and the five-condition predicate *)

Section Admissibility.

Implicit Types (graph : DomainLanguageGraph.t) (world : SemanticWorld.t).
Implicit Types (rule : NormativeRule.t) (elem : SemanticElement.t).

Lemma vocabulary_closure_status graph world :
  ConditionResult.status (_check_vocabulary_closure graph world)
  = if existsb (fun elem =>
                  negb (Py.contains
                          (entity_subset (DomainLanguageGraph.composed_vocab graph))
                          (SemanticElement.entity_type elem)))
               (SemanticWorld.elements world)
       || existsb (fun rel =>
                     negb (Py.contains
                             (DomainLanguageGraph.composed_relations graph)
                             (SemanticRelation.relation rel)))
                  (SemanticWorld.relations world)
    then FAIL else PASS.
Proof. unfold _check_vocabulary_closure. by rewrite !foldl_details_failed. Qed.

Lemma no_inference_details world :
  ConditionResult.details (_check_no_inference world)
  = ((fun elem =>
        "Element '" +:+ SemanticElement.identity elem +:+ "' ("
        +:+ EntityType.name (SemanticElement.entity_type elem)
        +:+ ") has no provenance — may be inferred")
       <$> filter (fun elem => String.eqb (SemanticElement.provenance elem) "" = true)
             (SemanticWorld.elements world))
    ++ ((fun rel =>
           "Relation '" +:+ Relation.name (SemanticRelation.relation rel)
           +:+ "' (" +:+ SemanticRelation.source_id rel +:+ " -> "
           +:+ SemanticRelation.target_id rel
           +:+ ") has no provenance — may be inferred")
          <$> filter (fun rel => String.eqb (SemanticRelation.provenance rel) "" = true)
                (SemanticWorld.relations world)).
Proof.
  unfold _check_no_inference. cbn [ConditionResult.details].
  by rewrite !foldl_details.
Qed.

(** [_check_consistency] returns, having made the calls of the evaluator. *)
Lemma check_consistency_run graph world log :
  ∃ consistency,
    _check_consistency graph world log
    = (Py.Returned consistency, log ++ graph_calls graph)
    ∧ ConditionResult.condition_number consistency = 5
    ∧ ConditionResult.passed consistency
      = RuleEvaluationResult.is_valid (graph_findings graph world).
Proof.
  unfold _check_consistency, mbind, M_bind, Py.bind.
  rewrite evaluate_rules_run.
  set (found := graph_findings graph world).
  assert (∀ (xs : list string) details failed,
            foldl (fun '(details, failed) v => (details ++ [v], true))
                  (details, failed) xs
            = (details ++ xs, failed || negb (Nat.eqb (length xs) 0))) as Hv.
  { induction xs as [|x xs IH]; intros details failed; cbn [foldl].
    - by rewrite app_nil_r, orb_false_r.
    - rewrite IH. cbn. by rewrite <- app_assoc, orb_true_r. }
  assert (∀ (xs : list string) details (failed : bool),
            foldl (fun '(details, failed) a => (details ++ [a], failed))
                  (details, failed) xs
            = (details ++ xs, failed)) as Ha.
  { induction xs as [|x xs IH]; intros details failed; cbn [foldl].
    - by rewrite app_nil_r.
    - rewrite IH. by rewrite <- app_assoc. }
  assert (∀ (xs : list string) details failed,
            foldl (fun '(details, failed) cf =>
                     (details ++ ["Constraint violation: " +:+ cf], true))
                  (details, failed) xs
            = (details ++ ((fun cf => "Constraint violation: " +:+ cf) <$> xs),
               failed || negb (Nat.eqb (length xs) 0))) as Hc.
  { induction xs as [|x xs IH]; intros details failed; cbn [foldl].
    - by rewrite app_nil_r, orb_false_r.
    - rewrite IH. cbn. by rewrite <- app_assoc, orb_true_r. }
  rewrite Hv, Ha, Hc. eexists. split; [reflexivity|]. split; [reflexivity|].
  unfold ConditionResult.passed, RuleEvaluationResult.is_valid.
  cbn [ConditionResult.status orb].
  destruct (RuleEvaluationResult.violations found),
    (RuleEvaluationResult.constraint_failures found); reflexivity.
Qed.

(** [validate] returns the four admissibility conditions followed by
    Consistency, having made the calls of the evaluator. *)
Lemma validate_run graph world log :
  ∃ consistency,
    _check_consistency graph world log
    = (Py.Returned consistency, log ++ graph_calls graph)
    ∧ validate graph world log
      = (Py.Returned
           (ValidationResult.mk
              [_check_vocabulary_closure graph world;
               _check_relation_admissibility graph world;
               _check_completeness graph world;
               _check_no_inference world;
               consistency]),
         log ++ graph_calls graph).
Proof.
  destruct (check_consistency_run graph world log) as (consistency & Hrun & _).
  exists consistency. split; [done|].
  unfold validate, mbind, M_bind, Py.bind. by rewrite Hrun.
Qed.

Lemma entity_subset_spec (composed : list Element) (e : EntityType.t) :
  e ∈ entity_subset composed ↔ EEntity e ∈ composed.
Proof.
  unfold entity_subset. rewrite list_elem_of_omap. split.
  - intros (item & Hin & Hitem). destruct item; by simplify_eq.
  - intros Hin. by exists (EEntity e).
Qed.

(** C9. The No Implicit Inference condition has status PASS in every world.
    It is the fourth condition of [check_admissibility] and of [validate];
    an element or relation with empty provenance adds one detail string and
    nothing else, and whether the world is admissible or valid is decided
    by the other conditions. *)
Theorem no_inference_always_passes graph world :
  let traceability := _check_no_inference world in
  ConditionResult.status traceability = PASS
  ∧ ConditionResult.passed traceability = true
  ∧ length (ConditionResult.details traceability)
    = length (filter (fun elem => SemanticElement.provenance elem = "")
                (SemanticWorld.elements world))
      + length (filter (fun rel => SemanticRelation.provenance rel = "")
                  (SemanticWorld.relations world))
  ∧ AdmissibilityResult.conditions (check_admissibility graph world) !! 3
    = Some traceability
  ∧ AdmissibilityResult.is_admissible (check_admissibility graph world)
    = ConditionResult.passed (_check_vocabulary_closure graph world)
      && ConditionResult.passed (_check_relation_admissibility graph world)
      && ConditionResult.passed (_check_completeness graph world)
  ∧ ∀ log, ∃ result consistency log',
      validate graph world log = (Py.Returned result, log')
      ∧ ValidationResult.conditions result !! 3 = Some traceability
      ∧ ValidationResult.conditions result !! 4 = Some consistency
      ∧ ValidationResult.is_valid result
        = ConditionResult.passed (_check_vocabulary_closure graph world)
          && ConditionResult.passed (_check_relation_admissibility graph world)
          && ConditionResult.passed (_check_completeness graph world)
          && ConditionResult.passed consistency.
Proof.
  cbn zeta. split; [done|]. split; [done|]. split; [|split; [done|split]].
  - rewrite no_inference_details, length_app, !length_fmap.
    f_equal; f_equal; apply list_filter_iff; intros x;
      by rewrite String.eqb_eq.
  - unfold AdmissibilityResult.is_admissible, check_admissibility.
    cbn [app AdmissibilityResult.conditions forallb].
    change (ConditionResult.passed (_check_no_inference world)) with true.
    by rewrite !andb_true_r, andb_assoc.
  - intros log. destruct (validate_run graph world log) as (consistency & _ & ->).
    eexists _, consistency, _. split; [reflexivity|]. split; [done|]. split; [done|].
    unfold ValidationResult.is_valid.
    cbn [ValidationResult.conditions forallb].
    change (ConditionResult.passed (_check_no_inference world)) with true.
    by rewrite !andb_true_r, andb_true_l, !andb_assoc.
Qed.

(** C3, as the code has it.  When the entity type of some element of the
    world is not in the composed vocabulary, Vocabulary Closure has status
    FAIL, the world is not admissible and not valid.  [validate] does not
    gate on that: it runs the evaluator, which calls every condition and
    predicate, and returns its outcome as the fifth condition. *)
Theorem validate_does_not_gate graph world elem :
  elem ∈ SemanticWorld.elements world →
  EEntity (SemanticElement.entity_type elem)
    ∉ DomainLanguageGraph.composed_vocab graph →
  ConditionResult.status (_check_vocabulary_closure graph world) = FAIL
  ∧ AdmissibilityResult.is_admissible (check_admissibility graph world) = false
  ∧ ∀ log, ∃ result consistency,
      validate graph world log = (Py.Returned result, log ++ graph_calls graph)
      ∧ _check_consistency graph world log
        = (Py.Returned consistency, log ++ graph_calls graph)
      ∧ ValidationResult.conditions result !! 4 = Some consistency
      ∧ ValidationResult.is_valid result = false.
Proof.
  intros Helem Hvocab.
  assert (ConditionResult.status (_check_vocabulary_closure graph world) = FAIL)
    as Hfail.
  { rewrite vocabulary_closure_status.
    replace (existsb _ (SemanticWorld.elements world)) with true; [done|].
    symmetry. apply existsb_elem_of. exists elem. split; [done|].
    apply negb_true_iff, bool_decide_eq_false. by rewrite entity_subset_spec. }
  assert (ConditionResult.passed (_check_vocabulary_closure graph world) = false)
    as Hnot.
  { unfold ConditionResult.passed. by rewrite Hfail. }
  split; [done|]. split.
  - unfold AdmissibilityResult.is_admissible, check_admissibility.
    cbn [app AdmissibilityResult.conditions forallb]. by rewrite Hnot.
  - intros log.
    destruct (validate_run graph world log) as (consistency & Hrun & ->).
    eexists _, consistency. split; [reflexivity|]. split; [done|]. split; [done|].
    unfold ValidationResult.is_valid.
    cbn [ValidationResult.conditions forallb]. by rewrite Hnot.
Qed.

(** *** Completeness with explicit gaps *)

Lemma existsb_never {X} (xs : list X) : existsb (fun _ => false) xs = false.
Proof. induction xs as [|x xs IH]; [done|]. by cbn. Qed.

Lemma must_attribute_flags target acc elem :
  failed (must_attribute target acc elem)
  = failed acc || attribute_omitted target elem
  ∧ has_unknowns (must_attribute target acc elem)
    = has_unknowns acc || attribute_unknown target elem.
Proof.
  unfold must_attribute, attribute_omitted, attribute_unknown.
  destruct (SemanticElement.attribute_values elem !! Attribute.name target)
    as [[]|]; cbn; by rewrite ?orb_true_r, ?orb_false_r.
Qed.

Lemma must_relation_flags world target acc elem :
  failed (must_relation world target acc elem)
  = failed acc || relation_missing world target elem
  ∧ has_unknowns (must_relation world target acc elem) = has_unknowns acc || false.
Proof.
  unfold must_relation, relation_missing.
  destruct (existsb _ (SemanticWorld.relations world));
    cbn; by rewrite ?orb_true_r, ?orb_false_r.
Qed.

Lemma must_rule_flags world acc rule :
  failed (must_rule world acc rule) = failed acc || rule_failed world rule
  ∧ has_unknowns (must_rule world acc rule)
    = has_unknowns acc || rule_unknown world rule.
Proof.
  unfold must_rule, rule_failed, rule_unknown.
  destruct (bool_decide (NormativeRule.operator rule = MUST)); cbn [negb andb];
    [|by rewrite !orb_false_r].
  destruct (NormativeTarget.element (NormativeRule.target rule))
    as [|target|?|target]; try by rewrite !orb_false_r.
  - split; apply foldl_flag; intros; apply must_attribute_flags.
  - split; [apply foldl_flag; intros; apply must_relation_flags|].
    rewrite <- (existsb_never
      (SemanticWorld.get_elements_by_type world (Relation.source target))).
    apply foldl_flag. intros. apply must_relation_flags.
Qed.

Lemma completeness_status graph world :
  let langs := Py.dict_values (DomainLanguageGraph.languages graph) in
  ConditionResult.status (_check_completeness graph world)
  = if existsb (fun lang => existsb (rule_failed world)
                              (DomainLanguage.normative_rules lang)) langs
    then FAIL
    else if existsb (fun lang => existsb (rule_unknown world)
                                   (DomainLanguage.normative_rules lang)) langs
    then UNKNOWN_PRESENT
    else PASS.
Proof.
  cbn zeta. unfold _check_completeness. cbn [ConditionResult.status].
  rewrite (foldl_flag failed _
    (fun lang => existsb (rule_failed world) (DomainLanguage.normative_rules lang))).
  2: { intros acc lang. apply foldl_flag. intros. apply must_rule_flags. }
  rewrite (foldl_flag has_unknowns _
    (fun lang => existsb (rule_unknown world) (DomainLanguage.normative_rules lang))).
  2: { intros acc lang. apply foldl_flag. intros. apply must_rule_flags. }
  reflexivity.
Qed.

Lemma get_elements_by_type_spec world entity elem :
  elem ∈ SemanticWorld.get_elements_by_type world entity
  ↔ elem ∈ SemanticWorld.elements world
    ∧ SemanticElement.entity_type elem = entity.
Proof.
  unfold SemanticWorld.get_elements_by_type. rewrite list_elem_of_filter. tauto.
Qed.

Lemma rule_failed_unmet world rule :
  rule_failed world rule = true ↔ ∃ elem, requirement_unmet world rule elem.
Proof.
  unfold rule_failed, requirement_unmet.
  rewrite andb_true_iff, bool_decide_eq_true.
  destruct (NormativeTarget.element (NormativeRule.target rule))
    as [|target|?|target]; try by naive_solver.
  - rewrite existsb_elem_of. setoid_rewrite get_elements_by_type_spec.
    unfold attribute_omitted.
    split.
    + intros (Hop & elem & [Hin Hty] & Hnone). exists elem.
      repeat split; try done.
      destruct (SemanticElement.attribute_values elem !! Attribute.name target)
        as [[]|]; naive_solver.
    + intros (elem & Hop & Hin & Hty & Hnone). split; [done|]. exists elem.
      split; [done|]. by destruct Hnone as [-> | ->].
  - rewrite existsb_elem_of. setoid_rewrite get_elements_by_type_spec.
    unfold relation_missing.
    assert (∀ elem,
              existsb (fun sr =>
                         bool_decide (SemanticRelation.relation sr = target)
                         && bool_decide (SemanticRelation.source_id sr
                                         = SemanticElement.identity elem))
                      (SemanticWorld.relations world) = true
              ↔ ∃ sr, sr ∈ SemanticWorld.relations world
                      ∧ SemanticRelation.relation sr = target
                      ∧ SemanticRelation.source_id sr = SemanticElement.identity elem)
      as Hhas.
    { intros elem. rewrite existsb_elem_of.
      by setoid_rewrite andb_true_iff; setoid_rewrite bool_decide_eq_true. }
    split.
    + intros (Hop & elem & [Hin Hty] & Hmiss). exists elem.
      repeat split; try done. rewrite <- Hhas.
      apply negb_true_iff in Hmiss. by rewrite Hmiss.
    + intros (elem & Hop & Hin & Hty & Hmiss). split; [done|]. exists elem.
      split; [done|]. apply negb_true_iff, not_true_is_false.
      by rewrite Hhas.
Qed.

Lemma rule_unknown_gap world rule :
  rule_unknown world rule = true ↔ ∃ elem, explicit_gap world rule elem.
Proof.
  unfold rule_unknown, explicit_gap.
  rewrite andb_true_iff, bool_decide_eq_true.
  destruct (NormativeTarget.element (NormativeRule.target rule))
    as [|target|?|?]; try by naive_solver.
  rewrite existsb_elem_of. setoid_rewrite get_elements_by_type_spec.
  unfold attribute_unknown. split.
  - intros (Hop & elem & [Hin Hty] & Hunk). exists elem. repeat split; try done.
    destruct (SemanticElement.attribute_values elem !! Attribute.name target)
      as [[]|]; naive_solver.
  - intros (elem & Hop & Hin & Hty & Hunk). split; [done|]. exists elem.
    split; [done|]. by rewrite Hunk.
Qed.

Lemma existsb_somewhere graph (p : NormativeRule.t → bool)
  (P : NormativeRule.t → SemanticElement.t → Prop) :
  (∀ rule, p rule = true ↔ ∃ elem, P rule elem) →
  existsb (fun lang => existsb p (DomainLanguage.normative_rules lang))
          (Py.dict_values (DomainLanguageGraph.languages graph)) = true
  ↔ somewhere graph P.
Proof.
  intros Hp. unfold somewhere. rewrite existsb_elem_of.
  setoid_rewrite existsb_elem_of. setoid_rewrite Hp. naive_solver.
Qed.

(** Completeness fails exactly when some MUST requirement is unmet by some
    element, and reports an explicit gap exactly when none is unmet and some
    required attribute is [UNKNOWN]. *)
Lemma completeness_fails_iff graph world :
  ConditionResult.status (_check_completeness graph world) = FAIL
  ↔ somewhere graph (requirement_unmet world).
Proof.
  rewrite completeness_status. cbn zeta.
  rewrite <- (existsb_somewhere graph _ _ (rule_failed_unmet world)).
  repeat case_match; naive_solver.
Qed.

Lemma completeness_unknown_iff graph world :
  ConditionResult.status (_check_completeness graph world) = UNKNOWN_PRESENT
  ↔ ¬ somewhere graph (requirement_unmet world)
    ∧ somewhere graph (explicit_gap world).
Proof.
  rewrite completeness_status. cbn zeta.
  rewrite <- (existsb_somewhere graph _ _ (rule_failed_unmet world)).
  rewrite <- (existsb_somewhere graph _ _ (rule_unknown_gap world)).
  repeat case_match; naive_solver.
Qed.

(** C2, as the code has it.  For a MUST rule of the graph on an attribute
    and an element of the world of the owning entity type: when the element
    has no entry for the attribute, Completeness has status FAIL; when the
    entry is [UNKNOWN] and no MUST requirement of the graph is unmet by any
    element, Completeness has status UNKNOWN_PRESENT, which passes, so that
    the world is admissible when conditions 1 and 2 pass and valid when
    Consistency passes too. *)
Theorem completeness_missing_or_unknown graph world lang rule target elem :
  lang ∈ Py.dict_values (DomainLanguageGraph.languages graph) →
  rule ∈ DomainLanguage.normative_rules lang →
  NormativeRule.operator rule = MUST →
  NormativeTarget.element (NormativeRule.target rule) = EAttribute target →
  elem ∈ SemanticWorld.elements world →
  SemanticElement.entity_type elem = Attribute.entity target →
  (SemanticElement.attribute_values elem !! Attribute.name target = None →
   ConditionResult.status (_check_completeness graph world) = FAIL)
  ∧ (SemanticElement.attribute_values elem !! Attribute.name target
     = Some Py.VUnknown →
     ¬ somewhere graph (requirement_unmet world) →
     ConditionResult.status (_check_completeness graph world) = UNKNOWN_PRESENT
     ∧ ConditionResult.passed (_check_completeness graph world) = true
     ∧ (ConditionResult.passed (_check_vocabulary_closure graph world) = true →
        ConditionResult.passed (_check_relation_admissibility graph world) = true →
        AdmissibilityResult.is_admissible (check_admissibility graph world) = true
        ∧ ∀ log, ∃ result consistency log',
            validate graph world log = (Py.Returned result, log')
            ∧ ValidationResult.conditions result !! 4 = Some consistency
            ∧ (ConditionResult.passed consistency = true →
               ValidationResult.is_valid result = true))).
Proof.
  intros Hlang Hrule Hop Htarget Helem Htype. split.
  - intros Hnone. apply completeness_fails_iff. exists lang, rule, elem.
    repeat split; try done. rewrite Htarget. split; [done|]. by left.
  - intros Hunknown Hmet.
    assert (ConditionResult.status (_check_completeness graph world)
            = UNKNOWN_PRESENT) as Hstatus.
    { apply completeness_unknown_iff. split; [done|]. exists lang, rule, elem.
      repeat split; try done. by rewrite Htarget. }
    assert (ConditionResult.passed (_check_completeness graph world) = true)
      as Hpass.
    { unfold ConditionResult.passed. by rewrite Hstatus. }
    split; [done|]. split; [done|]. intros Hc1 Hc2. split.
    + unfold AdmissibilityResult.is_admissible, check_admissibility.
      cbn [app AdmissibilityResult.conditions forallb].
      by rewrite Hc1, Hc2, Hpass.
    + intros log.
      destruct (validate_run graph world log) as (consistency & _ & ->).
      eexists _, consistency, _. split; [reflexivity|]. split; [done|].
      intros Hc5. unfold ValidationResult.is_valid.
      cbn [ValidationResult.conditions forallb].
      by rewrite Hc1, Hc2, Hpass, Hc5.
Qed.
End Admissibility.

(** * The properties on concrete domains and worlds *)

Section Worked.

Import Example.

(** ** Self-QC *)

(** C1 on [MUST(Person)] and a [MUST_NOT(Person)] that names it as the rule
    it overrides, both unconditional. *)
Lemma check_interaction_equal_specificity_witness :
  ∃ detail,
    check_interaction must_person must_not_person_overriding
    = Some (InteractionDiagnostic.mk INFO OVERRIDE
              must_person must_not_person_overriding detail).
Proof.
  destruct (check_interaction_equal_specificity
              must_person must_not_person_overriding)
    as (detail & Hoverride & _).
  - reflexivity.
  - apply (bool_decide_unpack _). vm_compute. exact I.
  - reflexivity.
  - exists detail. apply Hoverride. right. reflexivity.
Defined.

Example conflict_message :
  InteractionDiagnostic.message <$> check_interaction must_person must_not_person
  = Some "Conflict: Requiring and prohibiting the same element on Entity(Person)".
Proof. vm_compute. reflexivity. Qed.

(** C5 on a conditional [MUST_NOT(Person)] and an unconditional
    [MUST(Person)], in both argument orders. *)
Lemma check_interaction_exception_symmetric_witness :
  ∃ detail,
    check_interaction must_not_person_if must_person
    = Some (InteractionDiagnostic.mk INFO EXCEPTION
              must_not_person_if must_person detail)
    ∧ check_interaction must_person must_not_person_if
      = Some (InteractionDiagnostic.mk INFO EXCEPTION
                must_not_person_if must_person detail).
Proof.
  apply (check_interaction_exception_symmetric must_not_person_if must_person).
  - reflexivity.
  - apply (bool_decide_unpack _). vm_compute. exact I.
  - reflexivity.
  - reflexivity.
Defined.

(** ** Closure *)



(** ** The import graph *)

(** C4 fails on the code: with the single edge from [B] to [A] no cycle is
    detected and the order returned is [A, B], the target of the edge before
    its source.  The in-degrees are never incremented, so the order is the
    sorted list of names ([topological_order_sorts_names]). *)
Theorem topological_order_places_target_first :
  DomainLanguageGraph.edges b_imports_a = [DomLGEdge.mk "B" "A" IMPORTS]
  ∧ DomainLanguageGraph.detect_import_cycles b_imports_a = Some []
  ∧ DomainLanguageGraph.topological_order b_imports_a = Some (Some ["A"; "B"])
  ∧ index ["A"; "B"] "B" = Some 1
  ∧ index ["A"; "B"] "A" = Some 0.
Proof. repeat split; vm_compute; reflexivity. Qed.

Example topological_order_chain :
  DomainLanguageGraph.topological_order chain_a_b_c
  = Some (Some ["A"; "B"; "C"]).
Proof. vm_compute. reflexivity. Qed.

(** ** Rule evaluation *)



(** C10 on a MUST_NOT rule whose condition answers [UNKNOWN]: the result is
    returned unchanged. *)
Lemma unknown_condition_reads_as_false_witness :
  must_not_rule (world [alice_age_unknown]) must_not_unknown
    (RuleEvaluationResult.mk [] [] []) []
  = (Py.Returned (RuleEvaluationResult.mk [] [] []),
     [] ++ rule_calls MUST_NOT must_not_unknown).
Proof.
  apply (proj1 unknown_condition_reads_as_false (world [alice_age_unknown])
           must_not_unknown (answering 14 Py.VUnknown) Py.VUnknown).
  - reflexivity.
  - reflexivity.
  - apply list_elem_of_here.
Defined.

(** ** Admissibility *)

(** C3, the amended statement, on a world holding an [Alien] under a domain
    that declares only [Person]. *)
Lemma validate_does_not_gate_witness :
  ConditionResult.status
    (_check_vocabulary_closure (graph (language [must_not_flagged] [] []))
       (world [zog])) = FAIL
  ∧ ∃ result consistency,
      validate (graph (language [must_not_flagged] [] [])) (world [zog]) []
      = (Py.Returned result,
         [] ++ graph_calls (graph (language [must_not_flagged] [] [])))
      ∧ ValidationResult.conditions result !! 4 = Some consistency
      ∧ ValidationResult.is_valid result = false.
Proof.
  destruct (validate_does_not_gate (graph (language [must_not_flagged] [] []))
              (world [zog]) zog) as (Hclosure & _ & Hvalidate).
  - apply list_elem_of_here.
  - apply (bool_decide_unpack _). vm_compute. exact I.
  - split; [exact Hclosure|].
    destruct (Hvalidate []) as (result & consistency & Hrun & _ & Hfifth & Hinvalid).
    by exists result, consistency.
Defined.

(** C3 as stated fails: the entity type of [zog] is not in the composed
    vocabulary, Vocabulary Closure has status FAIL and the world is not
    admissible, yet [validate] calls the condition of the MUST_NOT rule
    (callable 11 is in the log) and reports what it returned. *)
Lemma validate_evaluates_inadmissible_world :
  let g := graph (language [must_not_flagged] [] []) in
  let w := world [zog] in
  (EEntity (SemanticElement.entity_type zog)
     ∉ DomainLanguageGraph.composed_vocab g)
  ∧ ConditionResult.status (_check_vocabulary_closure g w) = FAIL
  ∧ AdmissibilityResult.is_admissible (check_admissibility g w) = false
  ∧ ∃ result,
      validate g w [] = (Py.Returned result, [11])
      ∧ ConditionResult.details <$> ValidationResult.conditions result !! 4
        = Some ["MUST_NOT violation: Entity(Person)"; "  -> p1 is flagged"].
Proof.
  cbn zeta. split; [apply (bool_decide_unpack _); vm_compute; exact I|].
  split; [reflexivity|]. split; [reflexivity|].
  eexists. split; vm_compute; reflexivity.
Qed.

(** C2, the amended statement: an element whose required [age] is [UNKNOWN]
    gives UNKNOWN_PRESENT, and one with no entry for the required [name]
    gives FAIL. *)
Lemma completeness_missing_or_unknown_witness :
  ConditionResult.status
    (_check_completeness (graph (language [must_age] [] []))
       (world [alice_age_unknown])) = UNKNOWN_PRESENT
  ∧ ConditionResult.status
      (_check_completeness (graph (language [must_name] [] []))
         (world [nameless_age_unknown])) = FAIL.
Proof.
  split.
  - destruct (completeness_missing_or_unknown
                (graph (language [must_age] [] [])) (world [alice_age_unknown])
                (language [must_age] [] []) must_age Person_age alice_age_unknown)
      as [_ Hunknown].
    + apply list_elem_of_here.
    + apply list_elem_of_here.
    + reflexivity.
    + reflexivity.
    + apply list_elem_of_here.
    + reflexivity.
    + apply Hunknown.
      * vm_compute. reflexivity.
      * intros Hfail%completeness_fails_iff. vm_compute in Hfail. discriminate.
  - destruct (completeness_missing_or_unknown
                (graph (language [must_name] [] [])) (world [nameless_age_unknown])
                (language [must_name] [] []) must_name Person_name
                nameless_age_unknown)
      as [Hmissing _].
    + apply list_elem_of_here.
    + apply list_elem_of_here.
    + reflexivity.
    + reflexivity.
    + apply list_elem_of_here.
    + reflexivity.
    + apply Hmissing. vm_compute. reflexivity.
Defined.

(** C2 as stated fails: under [MUST(age)] the only element of the owning
    type carries [UNKNOWN] for [age], so no element is missing it, and
    Completeness has status FAIL all the same, because the element has no
    entry for [name], which another MUST rule requires. *)
Lemma unknown_beside_a_missing_attribute_fails :
  let lang := language [must_age; must_name] [] [] in
  let w := world [nameless_age_unknown] in
  must_age ∈ DomainLanguage.normative_rules lang
  ∧ NormativeRule.operator must_age = MUST
  ∧ NormativeTarget.element (NormativeRule.target must_age) = EAttribute Person_age
  ∧ SemanticWorld.get_elements_by_type w (Attribute.entity Person_age)
    = [nameless_age_unknown]
  ∧ SemanticElement.attribute_values nameless_age_unknown
      !! Attribute.name Person_age = Some Py.VUnknown
  ∧ ConditionResult.status (_check_completeness (graph lang) w) = FAIL.
Proof.
  cbn zeta. repeat split; try apply list_elem_of_here; vm_compute; reflexivity.
Qed.
End Worked.

(** * Further properties of the code *)

(** ** Self-QC: symmetry, fatal findings, and the pairs compared *)

Section MoreSelfQC.

Implicit Types a b : NormativeRule.t.

Lemma is_compatible_pair_sym (x y : NormativeOp) :
  is_compatible_pair x y = is_compatible_pair y x.
Proof. destruct x, y; vm_compute; reflexivity. Qed.

(** X1. The kind and the severity of the finding for two rules do not depend
    on the order in which the rules are passed (the message and the order
    of the two recorded rules may). *)
Theorem check_interaction_kind_symmetric a b :
  InteractionDiagnostic.finding_type <$> check_interaction a b
  = InteractionDiagnostic.finding_type <$> check_interaction b a
  ∧ InteractionDiagnostic.severity <$> check_interaction a b
    = InteractionDiagnostic.severity <$> check_interaction b a.
Proof.
  unfold check_interaction.
  rewrite (same_target_sym b a),
    (is_compatible_pair_sym (NormativeRule.operator b)).
  rewrite (orb_comm (NormativeRule.overrides b a)).
  destruct (_same_target a b); cbn [negb]; [|done].
  destruct (is_compatible_pair _ _); [done|].
  destruct (bool_decide (NormativeTarget.condition (NormativeRule.target a) ≠ None)),
    (bool_decide (NormativeTarget.condition (NormativeRule.target b) ≠ None));
    cbn [Bool.eqb negb andb]; try done;
    by destruct (NormativeRule.overrides a b || NormativeRule.overrides b a).
Qed.

Lemma check_interaction_none a b :
  check_interaction a b = None ↔ _same_target a b = false.
Proof.
  unfold check_interaction.
  destruct (_same_target a b); cbn [negb]; [|done].
  repeat case_match; naive_solver.
Qed.

(** X2. [check_interaction] answers [None] exactly for rules on different
    target elements, and its finding has severity ERROR exactly when the
    rules share a target, their operators conflict, both are unconditional
    and neither names the other as the rule it overrides: a pair with a
    conditional rule is never an error. *)
Theorem check_interaction_error_iff a b :
  (check_interaction a b = None ↔ _same_target a b = false)
  ∧ (InteractionDiagnostic.severity <$> check_interaction a b = Some ERROR
     ↔ _same_target a b = true
       ∧ conflicting_pair (NormativeRule.operator a) (NormativeRule.operator b)
       ∧ conditional a = false ∧ conditional b = false
       ∧ NormativeRule.overrides a b = false
       ∧ NormativeRule.overrides b a = false).
Proof.
  split; [apply check_interaction_none|].
  rewrite conflicting_not_compatible. unfold check_interaction, conditional.
  destruct (_same_target a b); cbn [negb]; [|naive_solver].
  destruct (is_compatible_pair _ _); [naive_solver|].
  destruct (bool_decide (NormativeTarget.condition (NormativeRule.target a) ≠ None)),
    (bool_decide (NormativeTarget.condition (NormativeRule.target b) ≠ None)),
    (NormativeRule.overrides a b), (NormativeRule.overrides b a);
    cbn; naive_solver.
Qed.

Lemma check_all_interactions_elem (rules : list NormativeRule.t) d :
  d ∈ check_all_interactions rules
  ↔ ∃ i j a b, (i < j)%nat ∧ rules !! i = Some a ∧ rules !! j = Some b
               ∧ check_interaction a b = Some d.
Proof.
  induction rules as [|r rules IH]; cbn [check_all_interactions].
  - rewrite elem_of_nil. split; [done|]. by intros (i & j & a & b & _ & ? & _).
  - rewrite elem_of_app, list_elem_of_omap, IH. split.
    + intros [(b & Hb & Hd)|(i & j & a & b & Hij & Ha & Hb & Hd)].
      * apply list_elem_of_lookup in Hb as [j Hj].
        exists 0%nat, (S j), r, b. split_and!; [lia|done|done|done].
      * exists (S i), (S j), a, b. split_and!; [lia|done|done|done].
    + intros (i & j & a & b & Hij & Ha & Hb & Hd).
      destruct j as [|j]; [lia|]. cbn in Hb. destruct i as [|i]; cbn in Ha.
      * left. simplify_eq. exists b. split; [|done].
        by eapply list_elem_of_lookup_2.
      * right. exists i, j, a, b. split_and!; [lia|done|done|done].
Qed.


Lemma length_omap_all {X Y} (f : X → option Y) (xs : list X) :
  (∀ x, x ∈ xs → is_Some (f x)) → length (omap f xs) = length xs.
Proof.
  induction xs as [|x xs IH]; [done|]. intros H. cbn.
  destruct (H x) as [y Hy]; [apply list_elem_of_here|]. rewrite Hy. cbn.
  f_equal. apply IH. intros x' Hx'. apply H. by apply list_elem_of_further.
Qed.

(** X4. For [n] rules on one target element [check_all_interactions]
    returns [n (n - 1) / 2] findings, one for each unordered pair. *)
Theorem check_all_interactions_count (rules : list NormativeRule.t)
  (element : Element) :
  (∀ rule, rule ∈ rules →
           NormativeTarget.element (NormativeRule.target rule) = element) →
  (2 * length (check_all_interactions rules)
   = length rules * (length rules - 1))%nat.
Proof.
  induction rules as [|r rules IH]; [done|]. intros Hall.
  cbn [check_all_interactions]. rewrite length_app.
  rewrite length_omap_all.
  - cbn [length]. rewrite Nat.mul_add_distr_l, IH.
    + destruct (length rules); cbn; nia.
    + intros rule Hrule. apply Hall. by apply list_elem_of_further.
  - intros b Hb.
    assert (_same_target r b = true) as Hsame.
    { apply bool_decide_eq_true.
      rewrite !Hall; [done|by apply list_elem_of_further|apply list_elem_of_here]. }
    destruct (check_interaction r b) eqn:Hc; [done|].
    apply check_interaction_none in Hc. congruence.
Qed.

(** X5. The severity of every finding is the one the table
    [_FINDING_SEVERITY] declares for its kind. *)
Theorem check_all_interactions_severity (rules : list NormativeRule.t) :
  Forall (fun d => InteractionDiagnostic.severity d
                   = _FINDING_SEVERITY (InteractionDiagnostic.finding_type d))
         (check_all_interactions rules).
Proof.
  induction rules as [|a rest IH]; cbn [check_all_interactions]; [constructor|].
  apply Forall_app. split; [|exact IH].
  apply Forall_forall. intros d (b & _ & Hd)%list_elem_of_omap.
  by eapply check_interaction_severity.
Qed.

(** X6. Rules without an override reference, as every rule made by the
    builder API is, never give an OVERRIDE finding. *)
Theorem no_override_without_reference (rules : list NormativeRule.t) :
  (∀ rule, rule ∈ rules → NormativeRule.override_ref rule = None) →
  Forall (fun d => InteractionDiagnostic.finding_type d ≠ OVERRIDE)
         (check_all_interactions rules).
Proof.
  intros Hnone. apply Forall_forall. intros d Hd.
  apply check_all_interactions_elem in Hd as (i & j & a & b & _ & Ha & Hb & Hd).
  apply list_elem_of_lookup_2 in Ha, Hb.
  unfold check_interaction, NormativeRule.overrides in Hd.
  rewrite (Hnone a Ha), (Hnone b Hb) in Hd.
  repeat case_match; simplify_eq; cbn; discriminate.
Qed.
End MoreSelfQC.

(** ** The import graph: cycles reported and the order returned *)

Section Cycles.

Import DomainLanguageGraph.
Implicit Types (adj : gmap string (list string)) (p : list string).
Implicit Types (st : DfsState).

Lemma whites_insert_white color node c :
  color !! node = Some WHITE → c ≠ WHITE →
  S (whites (<[node := c]> color)) = whites color.
Proof.
  intros Hnode Hc. unfold whites.
  rewrite map_filter_insert_False by done.
  rewrite map_filter_delete, map_size_delete.
  assert (filter (λ kv : string * Color, kv.2 = WHITE) color !! node = Some WHITE) as ->.
  { by apply map_lookup_filter_Some. }
  cbn. destruct (size _) eqn:Hs; [|done].
  apply map_size_empty_inv in Hs.
  assert (filter (λ kv : string * Color, kv.2 = WHITE) color !! node = Some WHITE) as H
    by by apply map_lookup_filter_Some.
  by rewrite Hs in H.
Qed.

Lemma whites_insert_le color node c :
  c ≠ WHITE → (whites (<[node := c]> color) ≤ whites color)%nat.
Proof.
  intros Hc. unfold whites. rewrite map_filter_insert_False by done.
  rewrite map_filter_delete, map_size_delete.
  destruct (_ !! node); cbn; lia.
Qed.

Lemma whites_initial (names : list string) :
  (whites (list_to_map ((fun name => (name, WHITE)) <$> names)) ≤ length names)%nat.
Proof.
  unfold whites.
  etrans; [apply map_subseteq_size, map_filter_subseteq|].
  induction names as [|n names IH]; cbn.
  - by rewrite map_size_empty.
  - rewrite map_size_insert. destruct (_ !! n); cbn; lia.
Qed.

Lemma walk_suffix adj pre suf : walk adj (pre ++ suf) → walk adj suf.
Proof.
  induction pre as [|u pre IH]; [done|]. intros H. apply IH.
  destruct pre as [|v pre]; cbn in *.
  - destruct suf; [done|]. by destruct H.
  - by destruct H.
Qed.

Lemma walk_snoc adj p u v :
  walk adj p → last p = Some u → v ∈ default [] (adj !! u) → walk adj (p ++ [v]).
Proof.
  induction p as [|x p IH]; [done|]. intros Hwalk Hlast Hv.
  destruct p as [|y p].
  - cbn in *. by simplify_eq.
  - cbn [app walk] in *. destruct Hwalk as [Hxy Hwalk]. split; [done|].
    by apply IH.
Qed.

Lemma walk_lookup adj p i u v :
  walk adj p → p !! i = Some u → p !! S i = Some v → v ∈ default [] (adj !! u).
Proof.
  revert i. induction p as [|x p IH]; intros i Hwalk Hu Hv; [done|].
  destruct p as [|y p]; [done|]. destruct Hwalk as [Hxy Hwalk].
  destruct i as [|i]; cbn in *; [by simplify_eq|]. by eapply IH.
Qed.

Lemma path_from_spec x p :
  x ∈ p → ∃ pre rest, p = pre ++ x :: rest ∧ path_from x p = x :: rest.
Proof.
  induction p as [|y p IH]; [by intros ?%elem_of_nil|]. intros Hx.
  cbn [path_from]. case_decide as Hy.
  - subst. by exists [], p.
  - apply elem_of_cons in Hx as [->|Hx]; [done|].
    destruct (IH Hx) as (pre & rest & -> & ->). by exists (y :: pre), rest.
Qed.

Lemma adjacency_spec (self : t) u v :
  v ∈ default [] (adjacency self !! u) ↔ import_edge self u v.
Proof.
  unfold adjacency, import_edge.
  assert (∀ es (adj0 : gmap string (list string)),
    v ∈ default [] (foldl (fun adj edge =>
           <[DomLGEdge.source edge :=
               default [] (adj !! DomLGEdge.source edge) ++ [DomLGEdge.target edge]]> adj)
        adj0 es !! u)
    ↔ v ∈ default [] (adj0 !! u)
      ∨ ∃ edge, edge ∈ es ∧ DomLGEdge.source edge = u ∧ DomLGEdge.target edge = v) as H.
  { induction es as [|e es IH]; intros adj0; cbn [foldl].
    - setoid_rewrite elem_of_nil. naive_solver.
    - rewrite IH. rewrite lookup_insert. setoid_rewrite elem_of_cons.
      destruct (decide (DomLGEdge.source e = u)) as [He|He]; cbn [default from_option].
      + unfold id. rewrite elem_of_app, list_elem_of_singleton. subst. naive_solver.
      + naive_solver. }
  rewrite H, lookup_empty. cbn. rewrite elem_of_nil. naive_solver.
Qed.

Lemma foldl_option_inv {X S} (I : S → Prop) (step : S → X → option S)
  (xs : list X) (s0 : S) :
  I s0 →
  (∀ s x, x ∈ xs → I s → ∃ s', step s x = Some s' ∧ I s') →
  ∃ s', foldl (fun acc x => s ← acc; step s x) (Some s0) xs = Some s' ∧ I s'.
Proof.
  revert s0. induction xs as [|x xs IH]; intros s0 H0 Hstep; cbn [foldl].
  - by exists s0.
  - destruct (Hstep s0 x) as (s1 & Hs1 & H1); [apply list_elem_of_here|done|].
    cbn [mbind option_bind]. rewrite Hs1. apply IH; [done|].
    intros s y Hy. apply Hstep. by apply list_elem_of_further.
Qed.

Lemma dfs_spec (fuel : nat) adj node st :
  color st !! node = Some WHITE →
  (whites (color st) ≤ fuel)%nat →
  walk adj (path st ++ [node]) →
  gray_on_path st →
  Forall (closed adj) (cycles st) →
  ∃ st',
    dfs fuel adj node st = Some st'
    ∧ (whites (color st') < whites (color st))%nat
    ∧ path st' = path st
    ∧ gray_on_path st'
    ∧ Forall (closed adj) (cycles st').
Proof.
  revert node st. induction fuel as [|fuel IH];
    intros node st Hwhite Hfuel Hwalk Hgray Hcycles.
  { pose proof (whites_insert_white _ _ GRAY Hwhite ltac:(done)) as H. lia. }
  cbn [dfs].
  pose proof (whites_insert_white _ _ GRAY Hwhite ltac:(done)) as Hdec.
  destruct (foldl_option_inv
    (fun acc => (whites (color acc) ≤ fuel)%nat
                ∧ (whites (color acc) < whites (color st))%nat
                ∧ path acc = path st ++ [node]
                ∧ gray_on_path acc
                ∧ Forall (closed adj) (cycles acc))
    (fun st neighbor =>
       if decide (color st !! neighbor = Some GRAY) then
         Some (mkDfs (color st) (path st)
                 (cycles st ++ [path_from neighbor (path st) ++ [neighbor]]))
       else if decide (color st !! neighbor = Some WHITE) then
         dfs fuel adj neighbor st
       else Some st)
    (default [] (adj !! node))
    (mkDfs (<[node := GRAY]> (color st)) (path st ++ [node]) (cycles st)))
    as (st2 & -> & Hle & Hlt & Hpath & Hgray2 & Hcycles2).
  - cbn [color path cycles]. split_and!; [lia|lia|done| |done].
    intros x. cbn [color path]. rewrite lookup_insert. case_decide.
    + subst. intros _. apply elem_of_app. right. apply list_elem_of_here.
    + intros Hx. apply elem_of_app. left. by apply Hgray.
  - intros acc nb Hnb (Hle & Hlt & Hpath & Hgray' & Hcycles').
    assert (last (path acc) = Some node) as Hlast by by rewrite Hpath, last_snoc.
    assert (walk adj (path acc)) as Hwalk' by by rewrite Hpath.
    case_decide as Hg; [|case_decide as Hw].
    + eexists. split; [done|]. cbn [color path cycles].
      split_and!; try done. apply Forall_app. split; [done|].
      apply Forall_singleton.
      destruct (path_from_spec nb (path acc) (Hgray' _ Hg))
        as (pre & rest & Hsplit & ->).
      split; [|by exists nb, rest].
      apply (walk_snoc _ _ node); [|by rewrite Hsplit, last_app_cons in Hlast|done].
      rewrite Hsplit in Hwalk'. by eapply walk_suffix.
    + destruct (IH nb acc) as (st'' & Hrun & Hlt' & Hpath' & Hgray'' & Hcycles'');
        try done.
      { by apply (walk_snoc _ _ node). }
      exists st''. split; [done|]. split_and!; try done; [lia|lia|congruence].
    + by exists acc.
  - eexists. split; [done|]. cbn [color path cycles]. split_and!.
    + pose proof (whites_insert_le (color st2) node BLACK ltac:(done)). lia.
    + by rewrite Hpath, removelast_last.
    + intros x. cbn [color path]. rewrite lookup_insert.
      case_decide; [done|]. intros Hx.
      apply Hgray2 in Hx. rewrite Hpath in Hx. rewrite Hpath, removelast_last.
      apply elem_of_app in Hx as [Hx|Hx%list_elem_of_singleton]; [done|congruence].
    + done.
Qed.

Lemma closed_import_cycle (self : t) c :
  closed (adjacency self) c → import_cycle self c.
Proof.
  intros [Hwalk Hshape]. split; [done|]. intros i u v Hu Hv.
  apply adjacency_spec. by eapply walk_lookup.
Qed.

Lemma detect_import_cycles_run (self : t) :
  ∃ found,
    detect_import_cycles self = Some found
    ∧ Forall (import_cycle self) found.
Proof.
  unfold detect_import_cycles. cbn zeta.
  set (names := Py.dict_keys (languages self)).
  destruct (foldl_option_inv
    (fun acc => (whites (color acc) ≤ length names)%nat
                ∧ path acc = []
                ∧ gray_on_path acc
                ∧ Forall (closed (adjacency self)) (cycles acc))
    (fun st node =>
       if decide (color st !! node = Some WHITE)
       then dfs (S (length names)) (adjacency self) node st
       else Some st)
    names
    (mkDfs (list_to_map ((fun name => (name, WHITE)) <$> names)) [] []))
    as (st' & -> & _ & _ & _ & Hcycles).
  - cbn [color path cycles]. split_and!; [apply whites_initial|done| |done].
    intros x Hx%elem_of_list_to_map_2.
    by apply list_elem_of_fmap in Hx as (? & [= _ ?] & _).
  - intros acc node _ (Hle & Hpath & Hgray & Hcycles).
    case_decide as Hw; [|by exists acc].
    destruct (dfs_spec (S (length names)) (adjacency self) node acc)
      as (st'' & Hrun & Hlt & Hpath' & Hgray' & Hcycles'); try done.
    { lia. } { by rewrite Hpath. }
    exists st''. split; [done|]. split_and!; try done; [lia|congruence].
  - eexists. split; [done|].
    eapply Forall_impl; [done|]. apply closed_import_cycle.
Qed.




End Cycles.

(** ** Dicts *)

Section Dicts.

Context {K V : Type} `{EqDecision K}.
Implicit Types (d : Py.dict K V) (k : K) (v : V).

Lemma dict_get_None d k : Py.dict_get d k = None ↔ k ∉ Py.dict_keys d.
Proof.
  unfold Py.dict_keys. induction d as [|[k' v'] d IH]; cbn.
  - split; [intros _; apply not_elem_of_nil|done].
  - rewrite not_elem_of_cons. case_decide; naive_solver.
Qed.

Lemma dict_get_Some_elem d k v : Py.dict_get d k = Some v → (k, v) ∈ d.
Proof.
  induction d as [|[k' v'] d IH]; cbn; [done|].
  case_decide; intros ?; simplify_eq; [apply list_elem_of_here|].
  by apply list_elem_of_further, IH.
Qed.

Lemma dict_get_set d k v k' :
  Py.dict_get (Py.dict_set d k v) k'
  = if decide (k = k') then Some v else Py.dict_get d k'.
Proof.
  induction d as [|[k0 v0] d IH]; cbn.
  - by repeat case_decide.
  - destruct (decide (k0 = k)) as [->|Hne]; cbn.
    + by repeat case_decide.
    + rewrite IH. repeat case_decide; congruence.
Qed.

Lemma dict_set_fresh d k v :
  k ∉ Py.dict_keys d → Py.dict_set d k v = d ++ [(k, v)].
Proof.
  unfold Py.dict_keys. induction d as [|[k0 v0] d IH]; cbn; [done|].
  rewrite not_elem_of_cons. intros [Hne Hd].
  rewrite decide_False by done. by rewrite IH.
Qed.

Lemma dict_keys_set d k v k' :
  k' ∈ Py.dict_keys (Py.dict_set d k v) ↔ k' = k ∨ k' ∈ Py.dict_keys d.
Proof.
  unfold Py.dict_keys. induction d as [|[k0 v0] d IH]; cbn.
  - rewrite list_elem_of_singleton, elem_of_nil. tauto.
  - case_decide; cbn; rewrite !elem_of_cons; [naive_solver|].
    rewrite IH. tauto.
Qed.

Lemma dict_get_NoDup d k v :
  NoDup (Py.dict_keys d) → (k, v) ∈ d → Py.dict_get d k = Some v.
Proof.
  unfold Py.dict_keys. induction d as [|[k0 v0] d IH]; cbn.
  - by intros _ ?%elem_of_nil.
  - intros [Hk0 Hnd]%NoDup_cons [Heq|Hin]%elem_of_cons.
    + simplify_eq. by rewrite decide_True.
    + rewrite decide_False; [by apply IH|]. intros ->.
      apply Hk0. apply list_elem_of_fmap. by exists (k, v).
Qed.
End Dicts.

(** ** The import graph: builder API and cross references *)

Section GraphBuilders.

Import DomainLanguageGraph.
Implicit Types (self : DomainLanguageGraph.t).

(** X9. [add_language] raises exactly when a language of that name is in
    the graph; otherwise it stores the language under its name after the
    others, leaves the other lookups and the edges as they were, and keeps
    the names unique and the edges between languages of the graph. *)
Theorem add_language_spec self lang :
  (DomainLanguage.name lang ∈ Py.dict_keys (languages self) →
   ∃ e, add_language self lang = Py.Raised e)
  ∧ (DomainLanguage.name lang ∉ Py.dict_keys (languages self) →
     ∃ self',
       add_language self lang = Py.Returned self'
       ∧ languages self' = languages self ++ [(DomainLanguage.name lang, lang)]
       ∧ edges self' = edges self
       ∧ Py.dict_get (languages self') (DomainLanguage.name lang) = Some lang
       ∧ (∀ name, name ≠ DomainLanguage.name lang →
                  Py.dict_get (languages self') name
                  = Py.dict_get (languages self) name)
       ∧ (keyed_by_name self → keyed_by_name self')
       ∧ (edges_closed self → edges_closed self')).
Proof.
  unfold add_language, Py.contains. split; intros Hname.
  - rewrite bool_decide_eq_true_2 by done. by eexists.
  - rewrite bool_decide_eq_false_2 by done. eexists. split; [done|].
    unfold keyed_by_name, edges_closed.
    cbn [languages edges]. rewrite dict_set_fresh by done.
    split_and!; try done.
    + rewrite <- dict_set_fresh by done. rewrite dict_get_set.
      by rewrite decide_True.
    + intros name Hne. rewrite <- dict_set_fresh by done.
      rewrite dict_get_set. by rewrite decide_False.
    + intros [Hnd Hkey]. split.
      * unfold Py.dict_keys in *. rewrite fmap_app. apply NoDup_app.
        split_and!; [done| |apply NoDup_singleton].
        intros x Hx ->%list_elem_of_singleton. done.
      * intros name l [Hin|Hin%list_elem_of_singleton]%elem_of_app;
          [by apply Hkey|by simplify_eq].
    + intros Hclosed edge Hedge. unfold Py.dict_keys in *.
      rewrite fmap_app, !elem_of_app.
      destruct (Hclosed edge Hedge). by split; left.
Qed.

(** X10. [add_edge] returns exactly when both endpoints are languages of
    the graph; the edge it returns is appended to the edges, so that the
    source imports the target, and the endpoints of every edge remain
    languages of the graph. *)
Theorem add_edge_spec self source target label :
  (source ∈ Py.dict_keys (languages self)
   ∧ target ∈ Py.dict_keys (languages self)
   ↔ ∃ self' edge, add_edge self source target label = Py.Returned (self', edge))
  ∧ (∀ self' edge,
       add_edge self source target label = Py.Returned (self', edge) →
       edge = DomLGEdge.mk source target label
       ∧ languages self' = languages self
       ∧ edges self' = edges self ++ [edge]
       ∧ import_edge self' source target
       ∧ (edges_closed self → edges_closed self')
       ∧ (keyed_by_name self → keyed_by_name self')).
Proof.
  unfold add_edge, Py.contains. split.
  - repeat case_bool_decide; cbn [negb]; split; try naive_solver.
  - intros self' edge.
    repeat case_bool_decide; cbn [negb]; try done.
    intros Heq. injection Heq as <- <-. unfold keyed_by_name, edges_closed.
    cbn [languages edges]. split_and!; try done.
    + eexists. split; [apply elem_of_app; right; apply list_elem_of_here|done].
    + intros Hclosed e [He | ->%list_elem_of_singleton]%elem_of_app;
        [by apply Hclosed|done].
Qed.

Lemma set_add_elem {A} `{EqDecision A} (s : list A) (x y : A) :
  y ∈ Py.set_add s x ↔ y ∈ s ∨ y = x.
Proof.
  unfold Py.set_add, Py.contains. case_bool_decide.
  - naive_solver.
  - rewrite elem_of_app, list_elem_of_singleton. tauto.
Qed.

Lemma fold_outcome_app {X Y} (step : list Y → X → Py.Outcome (list Y))
  (f : X → list Y) (xs : list X) (acc : list Y) :
  (∀ acc x, x ∈ xs → step acc x = Py.Returned (acc ++ f x)) →
  Py.fold_outcome step acc xs = Py.Returned (acc ++ (xs ≫= f)).
Proof.
  revert acc. induction xs as [|x xs IH]; intros acc Hstep; cbn [Py.fold_outcome].
  - by rewrite app_nil_r.
  - rewrite Hstep by apply list_elem_of_here. cbn [Py.then_].
    rewrite IH, bind_cons, app_assoc; [done|].
    intros acc' y Hy. apply Hstep. by apply list_elem_of_further.
Qed.

Lemma index_edges_run (key_of val_of : DomLGEdge.t → string)
  (es : list DomLGEdge.t) (d0 : Py.dict string (list string)) :
  (∀ e, e ∈ es → key_of e ∈ Py.dict_keys d0) →
  ∃ d,
    Py.fold_outcome (fun d e => add_under d (key_of e) (val_of e)) d0 es
    = Py.Returned d
    ∧ ∀ k, match Py.dict_get d0 k with
           | None => Py.dict_get d k = None
           | Some s0 =>
               ∃ s, Py.dict_get d k = Some s
                    ∧ ∀ x, x ∈ s
                           ↔ x ∈ s0 ∨ ∃ e, e ∈ es ∧ key_of e = k ∧ val_of e = x
           end.
Proof.
  revert d0. induction es as [|e es IH]; intros d0 Hkeys.
  - exists d0. split; [done|]. intros k. destruct (Py.dict_get d0 k) as [s0|]; [|done].
    exists s0. split; [done|]. intros x. setoid_rewrite elem_of_nil. naive_solver.
  - cbn [Py.fold_outcome]. unfold add_under at 1.
    destruct (Py.dict_get d0 (key_of e)) as [s|] eqn:Hget.
    2: { apply dict_get_None in Hget. destruct Hget. apply Hkeys, list_elem_of_here. }
    cbn [Py.then_].
    destruct (IH (Py.dict_set d0 (key_of e) (Py.set_add s (val_of e))))
      as (d & Hrun & Hd).
    { intros e' He'. apply dict_keys_set. right. by apply Hkeys, list_elem_of_further. }
    exists d. split; [done|]. intros k. specialize (Hd k).
    rewrite dict_get_set in Hd. case_decide as Hk.
    + subst k. rewrite Hget. destruct Hd as (s' & Hs' & Hx). exists s'.
      split; [done|]. intros x. rewrite Hx, set_add_elem.
      setoid_rewrite elem_of_cons. naive_solver.
    + destruct (Py.dict_get d0 k) as [s0|]; [|done].
      destruct Hd as (s' & Hs' & Hx). exists s'. split; [done|].
      intros x. rewrite Hx. setoid_rewrite elem_of_cons. naive_solver.
Qed.

Lemma index_edges_raises (key_of val_of : DomLGEdge.t → string)
  (es : list DomLGEdge.t) (d0 : Py.dict string (list string)) e :
  e ∈ es → key_of e ∉ Py.dict_keys d0 →
  ∃ exc,
    Py.fold_outcome (fun d e => add_under d (key_of e) (val_of e)) d0 es
    = Py.Raised exc.
Proof.
  revert d0. induction es as [|e' es IH]; intros d0 He Hkey.
  { by apply elem_of_nil in He. }
  cbn [Py.fold_outcome]. unfold add_under at 1.
  destruct (Py.dict_get d0 (key_of e')) as [s|] eqn:Hget; [|by eexists].
  cbn [Py.then_]. apply elem_of_cons in He as [->|He].
  { apply dict_get_None in Hkey. congruence. }
  apply IH; [done|]. rewrite dict_keys_set. intros [Heq|?]; [|done].
  rewrite Heq in Hkey. apply dict_get_None in Hkey. congruence.
Qed.

Lemma initial_index (names : list string) k :
  Py.dict_keys ((fun name => (name, @nil string)) <$> names) = names
  ∧ Py.dict_get ((fun name => (name, @nil string)) <$> names) k
    = if bool_decide (k ∈ names) then Some [] else None.
Proof.
  split.
  - unfold Py.dict_keys. rewrite <- list_fmap_compose. apply list_fmap_id.
  - induction names as [|n names IH]; cbn [fmap list_fmap Py.dict_get]; [done|].
    destruct (decide (n = k)) as [->|Hne].
    + by rewrite bool_decide_eq_true_2 by apply list_elem_of_here.
    + rewrite IH. apply (f_equal (fun b : bool => if b then Some [] else None)).
      apply bool_decide_ext. rewrite elem_of_cons. naive_solver.
Qed.

Lemma values_name_in_keys self lang :
  keyed_by_name self → lang ∈ Py.dict_values (languages self) →
  DomainLanguage.name lang ∈ Py.dict_keys (languages self).
Proof.
  intros [_ Hkey] ([name lang'] & -> & Hin)%list_elem_of_fmap. cbn.
  rewrite (Hkey _ _ Hin). apply list_elem_of_fmap. by exists (name, lang').
Qed.

Lemma has_edge_spec self u v : has_edge self u v = true ↔ import_edge self u v.
Proof.
  unfold has_edge, import_edge. rewrite existsb_elem_of.
  setoid_rewrite andb_true_iff. by setoid_rewrite bool_decide_eq_true.
Qed.

Lemma check_cross_references_run self :
  edges_closed self →
  keyed_by_name self →
  check_cross_references self
  = Py.Returned
      (Py.dict_values (languages self) ≫= fun lang =>
         DomainLanguage.imports lang ≫= cross_findings self lang).
Proof.
  intros Hclosed Hkeyed. unfold check_cross_references. cbn zeta.
  destruct (index_edges_run DomLGEdge.source DomLGEdge.target (edges self)
              ((fun name => (name, [])) <$> Py.dict_keys (languages self)))
    as (reachable & Hrun & Hreach).
  { intros e He. rewrite (proj1 (initial_index _ "")). by apply Hclosed. }
  unfold mbind, Outcome_bind. rewrite Hrun. cbn [Py.then_].
  rewrite (fold_outcome_app _
    (fun lang => DomainLanguage.imports lang ≫= cross_findings self lang)); [done|].
  intros errors lang Hlang.
  apply fold_outcome_app. intros acc imp Himp.
  unfold cross_reference, cross_findings.
  destruct (Py.contains _ (ImportDecl.target_name imp)); cbn [negb]; [|done].
  specialize (Hreach (DomainLanguage.name lang)).
  rewrite (proj2 (initial_index _ _)) in Hreach.
  rewrite bool_decide_eq_true_2 in Hreach by by apply values_name_in_keys.
  destruct Hreach as (targets & -> & Htargets).
  assert (Py.contains targets (ImportDecl.target_name imp)
          = has_edge self (DomainLanguage.name lang) (ImportDecl.target_name imp))
    as ->.
  { apply eq_true_iff_eq. unfold Py.contains.
    rewrite bool_decide_eq_true, has_edge_spec, Htargets, elem_of_nil.
    unfold import_edge. naive_solver. }
  destruct (has_edge _ _ _); cbn [negb]; [by rewrite app_nil_r|done].
Qed.

(** X11. On a graph built with [add_language] and [add_edge],
    [check_cross_references] returns; it reports, for every import
    declaration of every language, that the imported name is not in the
    graph, or else that no edge leads from the language to it, and nothing
    else; it reports nothing exactly when every import names a language of
    the graph that the importing language has an edge to. *)
Theorem check_cross_references_spec self :
  edges_closed self →
  keyed_by_name self →
  ∃ errors,
    check_cross_references self = Py.Returned errors
    ∧ (∀ err,
         err ∈ errors
         ↔ ∃ lang imp,
             lang ∈ Py.dict_values (languages self)
             ∧ imp ∈ DomainLanguage.imports lang
             ∧ (((ImportDecl.target_name imp ∉ Py.dict_keys (languages self))
                 ∧ err = not_in_graph_error lang imp)
                ∨ (ImportDecl.target_name imp ∈ Py.dict_keys (languages self)
                   ∧ ¬ import_edge self (DomainLanguage.name lang)
                         (ImportDecl.target_name imp)
                   ∧ err = no_edge_error lang imp)))
    ∧ (errors = []
       ↔ ∀ lang imp,
           lang ∈ Py.dict_values (languages self) →
           imp ∈ DomainLanguage.imports lang →
           ImportDecl.target_name imp ∈ Py.dict_keys (languages self)
           ∧ import_edge self (DomainLanguage.name lang)
               (ImportDecl.target_name imp)).
Proof.
  intros Hclosed Hkeyed. eexists. split; [by apply check_cross_references_run|].
  assert (∀ lang imp err,
            err ∈ cross_findings self lang imp
            ↔ ((ImportDecl.target_name imp ∉ Py.dict_keys (languages self))
               ∧ err = not_in_graph_error lang imp)
              ∨ (ImportDecl.target_name imp ∈ Py.dict_keys (languages self)
                 ∧ ¬ import_edge self (DomainLanguage.name lang)
                       (ImportDecl.target_name imp)
                 ∧ err = no_edge_error lang imp)) as Hone.
  { intros lang imp err. unfold cross_findings, Py.contains.
    rewrite <- has_edge_spec.
    case_bool_decide; cbn [negb];
      [destruct (has_edge _ _ _); cbn [negb]|];
      rewrite ?list_elem_of_singleton, ?elem_of_nil; naive_solver. }
  assert (∀ err,
            err ∈ (Py.dict_values (languages self) ≫= fun lang =>
                     DomainLanguage.imports lang ≫= cross_findings self lang)
            ↔ ∃ lang imp,
                lang ∈ Py.dict_values (languages self)
                ∧ imp ∈ DomainLanguage.imports lang
                ∧ err ∈ cross_findings self lang imp) as Hall.
  { intros err. rewrite list_elem_of_bind.
    setoid_rewrite list_elem_of_bind. naive_solver. }
  split.
  - intros err. rewrite Hall. by setoid_rewrite Hone.
  - split.
    + intros Hnil lang imp Hlang Himp.
      assert (cross_findings self lang imp = []) as Hfind.
      { destruct (cross_findings self lang imp) as [|err ?] eqn:Hf; [done|].
        assert (err ∈ @nil string) as []%elem_of_nil.
        rewrite <- Hnil. apply Hall. exists lang, imp.
        rewrite Hf. split_and!; [done|done|apply list_elem_of_here]. }
      unfold cross_findings, Py.contains in Hfind.
      case_bool_decide; cbn [negb] in Hfind; [|done].
      split; [done|]. apply has_edge_spec.
      by destruct (has_edge _ _ _).
    + intros Hgood. apply elem_of_nil_inv.
      intros err (lang & imp & Hlang & Himp & Herr)%Hall.
      apply Hone in Herr. destruct (Hgood lang imp Hlang Himp). naive_solver.
Qed.

(** X12. With an edge whose source is not a language of the graph, which
    [add_edge] refuses but the public list of edges allows,
    [check_cross_references] raises (a [KeyError]) instead of reporting. *)
Theorem check_cross_references_unknown_source self edge :
  edge ∈ edges self →
  DomLGEdge.source edge ∉ Py.dict_keys (languages self) →
  ∃ exc, check_cross_references self = Py.Raised exc.
Proof.
  intros Hedge Hsource. unfold check_cross_references. cbn zeta.
  destruct (index_edges_raises DomLGEdge.source DomLGEdge.target (edges self)
              ((fun name => (name, [])) <$> Py.dict_keys (languages self)) edge)
    as (exc & Hrun); [done|by rewrite (proj1 (initial_index _ ""))|].
  exists exc. unfold mbind, Outcome_bind. by rewrite Hrun.
Qed.
End GraphBuilders.

(** ** Admissibility: the status of each condition *)

Section MoreAdmissibility.
Implicit Types (graph : DomainLanguageGraph.t) (world : SemanticWorld.t).

Lemma composed_vocab_spec graph x :
  x ∈ DomainLanguageGraph.composed_vocab graph
  ↔ ∃ lang, lang ∈ Py.dict_values (DomainLanguageGraph.languages graph)
            ∧ x ∈ DomainLanguage.vocab lang.
Proof.
  unfold DomainLanguageGraph.composed_vocab.
  rewrite (foldl_extend_list DomainLanguage.vocab), app_nil_l, list_elem_of_bind.
  naive_solver.
Qed.

Lemma composed_relations_spec graph r :
  r ∈ DomainLanguageGraph.composed_relations graph
  ↔ ∃ lang, lang ∈ Py.dict_values (DomainLanguageGraph.languages graph)
            ∧ r ∈ DomainLanguage.relations lang.
Proof.
  unfold DomainLanguageGraph.composed_relations.
  rewrite (foldl_extend_list DomainLanguage.relations), app_nil_l,
    list_elem_of_bind.
  naive_solver.
Qed.

Lemma entity_in_vocab (lang : DomainLanguage.t) (e : EntityType.t) :
  EEntity e ∈ DomainLanguage.vocab lang ↔ e ∈ DomainLanguage.entities lang.
Proof. rewrite vocab_spec. naive_solver. Qed.

Lemma existsb_false_iff {X} (p : X → bool) (xs : list X) :
  existsb p xs = false ↔ ∀ x, x ∈ xs → p x = false.
Proof.
  rewrite <- not_true_iff_false, existsb_elem_of. split.
  - intros H x Hx. apply not_true_iff_false. naive_solver.
  - intros H (x & Hx & Hp). rewrite H in Hp; done.
Qed.

Lemma vocabulary_closure_status_cases graph world :
  ConditionResult.status (_check_vocabulary_closure graph world) = PASS
  ∨ ConditionResult.status (_check_vocabulary_closure graph world) = FAIL.
Proof. rewrite vocabulary_closure_status. destruct (_ || _); auto. Qed.

Lemma vocabulary_closure_pass graph world :
  ConditionResult.status (_check_vocabulary_closure graph world) = PASS
  ↔ (∀ elem, elem ∈ SemanticWorld.elements world →
       ∃ lang, lang ∈ Py.dict_values (DomainLanguageGraph.languages graph)
               ∧ SemanticElement.entity_type elem ∈ DomainLanguage.entities lang)
    ∧ (∀ rel, rel ∈ SemanticWorld.relations world →
         ∃ lang, lang ∈ Py.dict_values (DomainLanguageGraph.languages graph)
                 ∧ SemanticRelation.relation rel ∈ DomainLanguage.relations lang).
Proof.
  rewrite vocabulary_closure_status.
  destruct (existsb _ (SemanticWorld.elements world)) eqn:He;
    [|destruct (existsb _ (SemanticWorld.relations world)) eqn:Hr]; cbn [orb].
  - split; [done|]. intros [Helems _].
    apply existsb_elem_of in He as (elem & Hin & Hbad).
    apply negb_true_iff, bool_decide_eq_false in Hbad. destruct Hbad.
    apply entity_subset_spec, composed_vocab_spec.
    destruct (Helems elem Hin) as (lang & Hlang & Hent).
    exists lang. by rewrite entity_in_vocab.
  - split; [done|]. intros [_ Hrels].
    apply existsb_elem_of in Hr as (rel & Hin & Hbad).
    apply negb_true_iff, bool_decide_eq_false in Hbad. destruct Hbad.
    apply composed_relations_spec. by apply Hrels.
  - split; [intros _|done].
    rewrite existsb_false_iff in He. rewrite existsb_false_iff in Hr. split.
    + intros elem Hin. specialize (He elem Hin).
      apply negb_false_iff, bool_decide_eq_true in He.
      apply entity_subset_spec, composed_vocab_spec in He as (lang & ? & ?).
      exists lang. by rewrite <- entity_in_vocab.
    + intros rel Hin. specialize (Hr rel Hin).
      apply negb_false_iff, bool_decide_eq_true in Hr.
      by apply composed_relations_spec.
Qed.

(** X13. Vocabulary Closure has status PASS or FAIL, never UNKNOWN_PRESENT;
    it passes exactly when the entity type of every element of the world is
    an entity some language of the graph declares and the relation of every
    asserted edge is one some language declares. *)
Theorem vocabulary_closure_passes_iff graph world :
  (ConditionResult.status (_check_vocabulary_closure graph world) = PASS
   ∨ ConditionResult.status (_check_vocabulary_closure graph world) = FAIL)
  ∧ (ConditionResult.status (_check_vocabulary_closure graph world) = PASS
     ↔ (∀ elem, elem ∈ SemanticWorld.elements world →
          ∃ lang, lang ∈ Py.dict_values (DomainLanguageGraph.languages graph)
                  ∧ SemanticElement.entity_type elem
                      ∈ DomainLanguage.entities lang)
       ∧ (∀ rel, rel ∈ SemanticWorld.relations world →
            ∃ lang, lang ∈ Py.dict_values (DomainLanguageGraph.languages graph)
                    ∧ SemanticRelation.relation rel
                        ∈ DomainLanguage.relations lang)).
Proof.
  split; [apply vocabulary_closure_status_cases|apply vocabulary_closure_pass].
Qed.

(** X15. Completeness with Explicit Gaps has status FAIL exactly when some
    MUST requirement of some rule of the graph is unmet by some element (a
    required attribute with no entry or the value [None], or a required
    relation with no asserted edge from the element); otherwise it has
    status UNKNOWN_PRESENT exactly when some required attribute carries
    [UNKNOWN], and PASS exactly when none does. *)
Theorem completeness_status_spec graph world :
  (ConditionResult.status (_check_completeness graph world) = FAIL
   ↔ somewhere graph (requirement_unmet world))
  ∧ (ConditionResult.status (_check_completeness graph world) = UNKNOWN_PRESENT
     ↔ ¬ somewhere graph (requirement_unmet world)
       ∧ somewhere graph (explicit_gap world))
  ∧ (ConditionResult.status (_check_completeness graph world) = PASS
     ↔ ¬ somewhere graph (requirement_unmet world)
       ∧ ¬ somewhere graph (explicit_gap world)).
Proof.
  split; [apply completeness_fails_iff|]. split; [apply completeness_unknown_iff|].
  pose proof (completeness_fails_iff graph world) as Hf.
  pose proof (completeness_unknown_iff graph world) as Hu.
  destruct (ConditionResult.status (_check_completeness graph world));
    naive_solver.
Qed.

Lemma relation_admissibility_status_cases graph world :
  ConditionResult.status (_check_relation_admissibility graph world) = PASS
  ∨ ConditionResult.status (_check_relation_admissibility graph world) = FAIL.
Proof.
  unfold _check_relation_admissibility. cbn zeta.
  destruct (foldl _ _ (SemanticWorld.relations world)) as [details [|]]; cbn; auto.
Qed.

(** X16. [check_admissibility] reports unknowns exactly when Completeness
    has status UNKNOWN_PRESENT: no other condition ever has that status. *)
Theorem has_unknowns_iff graph world :
  AdmissibilityResult.has_unknowns (check_admissibility graph world) = true
  ↔ ConditionResult.status (_check_completeness graph world) = UNKNOWN_PRESENT.
Proof.
  unfold AdmissibilityResult.has_unknowns, check_admissibility.
  cbn [app AdmissibilityResult.conditions existsb].
  destruct (vocabulary_closure_status_cases graph world) as [-> | ->],
    (relation_admissibility_status_cases graph world) as [-> | ->];
    cbn [_check_no_inference ConditionResult.status];
    rewrite ?bool_decide_eq_false_2 by done; cbn [orb];
    rewrite orb_false_r; apply bool_decide_eq_true.
Qed.
End MoreAdmissibility.

(** ** Relation admissibility *)

Section RelationAdmissibility.
Implicit Types (graph : DomainLanguageGraph.t) (world : SemanticWorld.t).

Lemma contains_spec {A} `{EqDecision A} (s : list A) (x : A) :
  Py.contains s x = true ↔ x ∈ s.
Proof. apply bool_decide_eq_true. Qed.

Lemma type_to_lang_add_spec (d : Py.dict EntityType.t (list string))
  (e e' : EntityType.t) (n n' : string) :
  n' ∈ default [] (Py.dict_get (type_to_lang_add d e n) e')
  ↔ n' ∈ default [] (Py.dict_get d e') ∨ (e' = e ∧ n' = n).
Proof.
  unfold type_to_lang_add. rewrite dict_get_set.
  destruct (decide (e = e')) as [->|Hne]; [|naive_solver]. cbn [default from_option id].
  destruct (Py.contains _ n) eqn:Hc.
  - apply contains_spec in Hc. naive_solver.
  - rewrite elem_of_app, list_elem_of_singleton. naive_solver.
Qed.

Lemma type_to_lang_spec (languages : Py.dict string DomainLanguage.t)
  (init : Py.dict EntityType.t (list string)) (e : EntityType.t) (n : string) :
  n ∈ default []
        (Py.dict_get
           (foldl (fun type_to_lang '(lang_name, lang) =>
                     foldl (fun type_to_lang entity =>
                              type_to_lang_add type_to_lang entity lang_name)
                           type_to_lang (DomainLanguage.entities lang))
                  init languages) e)
  ↔ n ∈ default [] (Py.dict_get init e)
    ∨ ∃ lang, (n, lang) ∈ languages ∧ e ∈ DomainLanguage.entities lang.
Proof.
  revert init. induction languages as [|[name lang] languages IH]; intros init.
  - cbn [foldl]. setoid_rewrite elem_of_nil. naive_solver.
  - cbn [foldl]. rewrite IH. clear IH.
    assert (∀ entities d,
      n ∈ default []
            (Py.dict_get
               (foldl (fun type_to_lang entity =>
                         type_to_lang_add type_to_lang entity name) d entities) e)
      ↔ n ∈ default [] (Py.dict_get d e) ∨ (n = name ∧ e ∈ entities)) as ->.
    { induction entities as [|x entities IH]; intros d; cbn [foldl].
      - rewrite elem_of_nil. tauto.
      - rewrite IH, type_to_lang_add_spec, elem_of_cons. tauto. }
    setoid_rewrite elem_of_cons. naive_solver.
Qed.

Lemma rel_to_lang_spec (languages : Py.dict string DomainLanguage.t)
  (init : Py.dict Relation.t string) (rel : Relation.t) :
  rel ∈ Py.dict_keys
          (foldl (fun rel_to_lang '(lang_name, lang) =>
                    foldl (fun rel_to_lang rel =>
                             Py.dict_set rel_to_lang rel lang_name)
                          rel_to_lang (DomainLanguage.relations lang))
                 init languages)
  ↔ rel ∈ Py.dict_keys init
    ∨ ∃ lang, lang ∈ Py.dict_values languages
              ∧ rel ∈ DomainLanguage.relations lang.
Proof.
  revert init. induction languages as [|[name lang] languages IH]; intros init.
  - cbn [foldl]. unfold Py.dict_values. cbn. setoid_rewrite elem_of_nil.
    naive_solver.
  - cbn [foldl]. rewrite IH. clear IH.
    assert (∀ rels (d : Py.dict Relation.t string),
      rel ∈ Py.dict_keys
              (foldl (fun rel_to_lang rel => Py.dict_set rel_to_lang rel name)
                     d rels)
      ↔ rel ∈ Py.dict_keys d ∨ rel ∈ rels) as ->.
    { induction rels as [|x rels IH]; intros d; cbn [foldl].
      - rewrite elem_of_nil. tauto.
      - rewrite IH, dict_keys_set, elem_of_cons. tauto. }
    unfold Py.dict_values. cbn [fmap list_fmap snd].
    setoid_rewrite elem_of_cons. naive_solver.
Qed.

(** The test one turn of the loop over the asserted relations makes. *)
Lemma relation_admissible_flag graph world type_to_lang rel_to_lang
  details failed sem_rel :
  (relation_admissible graph world type_to_lang rel_to_lang
     (details, failed) sem_rel).2
  = failed
    || (relation_admissible graph world type_to_lang rel_to_lang
          ([], false) sem_rel).2.
Proof.
  unfold relation_admissible.
  repeat (case_match; simplify_eq; cbn [snd orb negb]);
    rewrite ?orb_true_r, ?orb_false_r; try done.
Qed.

Lemma relation_admissible_inadmissible graph world sem_rel :
  (relation_admissible graph world
     (foldl (fun type_to_lang '(lang_name, lang) =>
               foldl (fun type_to_lang entity =>
                        type_to_lang_add type_to_lang entity lang_name)
                     type_to_lang (DomainLanguage.entities lang))
            [] (DomainLanguageGraph.languages graph))
     (foldl (fun rel_to_lang '(lang_name, lang) =>
               foldl (fun rel_to_lang rel => Py.dict_set rel_to_lang rel lang_name)
                     rel_to_lang (DomainLanguage.relations lang))
            [] (DomainLanguageGraph.languages graph))
     ([], false) sem_rel).2 = true
  ↔ inadmissible graph world sem_rel.
Proof.
  match goal with
  | |- context [relation_admissible _ _ ?a ?b] => set (ttl := a); set (rtl := b)
  end.
  unfold relation_admissible, inadmissible. cbn zeta.
  assert (Httl : ∀ e n, Py.contains (default [] (Py.dict_get ttl e)) n = true
                        ↔ declares graph n e).
  { intros e n. rewrite contains_spec. subst ttl. rewrite type_to_lang_spec.
    cbn. rewrite elem_of_nil. unfold declares. tauto. }
  assert (Hrtl : Py.contains (Py.dict_keys rtl) (SemanticRelation.relation sem_rel)
                 = false
                 ↔ ∀ lang,
                     lang ∈ Py.dict_values (DomainLanguageGraph.languages graph) →
                     SemanticRelation.relation sem_rel
                       ∉ DomainLanguage.relations lang).
  { rewrite <- not_true_iff_false, contains_spec. subst rtl.
    rewrite rel_to_lang_spec. cbn. rewrite elem_of_nil. naive_solver. }
  destruct (Py.contains (Py.dict_keys rtl) _) eqn:Hdecl; cbn [negb].
  2:{ split; [intros _; left; by apply Hrtl|done]. }
  assert (Hsome : ¬ ∀ lang,
             lang ∈ Py.dict_values (DomainLanguageGraph.languages graph) →
             SemanticRelation.relation sem_rel ∉ DomainLanguage.relations lang).
  { intros H. apply Hrtl in H. congruence. }
  clear Hdecl Hrtl.
  destruct (SemanticWorld.get_element_by_id world (SemanticRelation.source_id _))
    as [s|]; [|cbn; tauto].
  destruct (SemanticWorld.get_element_by_id world (SemanticRelation.target_id _))
    as [t|]; [|cbn; tauto].
  set (srcs := default [] (Py.dict_get ttl (SemanticElement.entity_type s))).
  set (tgts := default [] (Py.dict_get ttl (SemanticElement.entity_type t))).
  assert (Hgap :
    negb (length srcs =? 0)%nat && negb (length tgts =? 0)%nat
    && negb (existsb (Py.contains tgts) srcs)
    && negb (existsb (fun edge =>
                        (Py.contains srcs (DomLGEdge.source edge)
                         && Py.contains tgts (DomLGEdge.target edge))
                        || (Py.contains tgts (DomLGEdge.source edge)
                            && Py.contains srcs (DomLGEdge.target edge)))
                     (DomainLanguageGraph.edges graph)) = true
    ↔ cross_language_gap graph (SemanticElement.entity_type s)
        (SemanticElement.entity_type t)).
  { unfold cross_language_gap.
    rewrite !andb_true_iff, !negb_true_iff, !Nat.eqb_neq, !existsb_false_iff.
    assert (Hsrcs : ∀ n, n ∈ srcs ↔ declares graph n (SemanticElement.entity_type s))
      by (intros n; rewrite <- Httl; symmetry; apply contains_spec).
    assert (Htgts : ∀ n, n ∈ tgts ↔ declares graph n (SemanticElement.entity_type t))
      by (intros n; rewrite <- Httl; symmetry; apply contains_spec).
    assert (Hne : ∀ l : list string, length l ≠ 0%nat ↔ ∃ n, n ∈ l).
    { intros [|x l]; cbn; [|split; [intros _; exists x; apply list_elem_of_here|done]].
      split; [done|]. by intros [? ?%elem_of_nil]. }
    rewrite !Hne. setoid_rewrite Hsrcs. setoid_rewrite Htgts.
    split.
    - intros [[[Hs Ht] Hdisj] Hedge]. split_and!; [done|done| |].
      + intros n [Hns Hnt]. specialize (Hdisj n Hns).
        apply not_true_iff_false in Hdisj. apply Hdisj, Httl, Hnt.
      + intros edge Hin. specialize (Hedge edge Hin).
        apply orb_false_iff in Hedge as [H1 H2].
        rewrite andb_false_iff, <- !not_true_iff_false in H1, H2.
        unfold srcs, tgts in H1, H2. rewrite !Httl in H1, H2. clear - H1 H2. naive_solver.
    - intros (Hs & Ht & Hdisj & Hedge). split_and!; [done|done| |].
      + intros n Hns. apply not_true_iff_false. unfold tgts. rewrite Httl.
        intros Hnt. by apply (Hdisj n).
      + intros edge Hin. specialize (Hedge edge Hin).
        destruct Hedge as [H1 H2]. rewrite <- !Httl in H1, H2.
        fold srcs tgts in H1, H2.
        destruct (Py.contains srcs (DomLGEdge.source edge)),
          (Py.contains tgts (DomLGEdge.target edge)),
          (Py.contains tgts (DomLGEdge.source edge)),
          (Py.contains srcs (DomLGEdge.target edge)); cbn; tauto. }
  rewrite <- Hgap. clear Hgap Httl.
  destruct (bool_decide (SemanticElement.entity_type s = _)) eqn:Hs;
    [apply bool_decide_eq_true in Hs|apply bool_decide_eq_false in Hs];
  (destruct (bool_decide (SemanticElement.entity_type t = _)) eqn:Ht;
    [apply bool_decide_eq_true in Ht|apply bool_decide_eq_false in Ht]);
  cbn [negb];
  destruct (negb (length srcs =? 0)%nat && negb (length tgts =? 0)%nat
            && negb (existsb (Py.contains tgts) srcs)); cbn [andb];
  try destruct (negb (existsb _ (DomainLanguageGraph.edges graph)));
  cbn [snd]; naive_solver.
Qed.

Lemma relation_admissibility_fail graph world :
  ConditionResult.status (_check_relation_admissibility graph world) = FAIL
  ↔ ∃ sem_rel, sem_rel ∈ SemanticWorld.relations world
               ∧ inadmissible graph world sem_rel.
Proof.
  unfold _check_relation_admissibility. cbn zeta.
  match goal with
  | |- context [foldl (relation_admissible _ _ ?a ?b) _ _] =>
      pose proof (foldl_flag snd (relation_admissible graph world a b)
                    (fun sem_rel =>
                       (relation_admissible graph world a b ([], false) sem_rel).2)
                    (fun acc sem_rel =>
                       match acc with
                       | (details, failed) =>
                           relation_admissible_flag graph world a b
                             details failed sem_rel
                       end)
                    (SemanticWorld.relations world) ([], false)) as Hflag
  end.
  cbn [snd orb] in Hflag.
  destruct (foldl _ _ (SemanticWorld.relations world)) as [details failed].
  cbn [snd] in Hflag. subst failed. cbn [ConditionResult.status].
  destruct (existsb _ _) eqn:Hex.
  - apply existsb_elem_of in Hex as (sem_rel & Hin & Hbad).
    apply relation_admissible_inadmissible in Hbad. naive_solver.
  - rewrite existsb_false_iff in Hex. split; [done|].
    intros (sem_rel & Hin & Hbad).
    apply relation_admissible_inadmissible in Hbad.
    rewrite (Hex _ Hin) in Hbad. done.
Qed.

(** X14. Relation Admissibility has status FAIL exactly when some asserted
    edge is inadmissible: no language declares its relation, or an endpoint
    identifier names no element, or an endpoint has another entity type than
    the relation declares, or the endpoint types are declared by disjoint
    sets of languages that no edge of the graph joins.  Otherwise it has
    status PASS. *)
Theorem relation_admissibility_fails_iff graph world :
  (ConditionResult.status (_check_relation_admissibility graph world) = FAIL
   ↔ ∃ sem_rel, sem_rel ∈ SemanticWorld.relations world
                ∧ inadmissible graph world sem_rel)
  ∧ (ConditionResult.status (_check_relation_admissibility graph world) = PASS
     ↔ ∀ sem_rel, sem_rel ∈ SemanticWorld.relations world →
                  ¬ inadmissible graph world sem_rel).
Proof.
  pose proof (relation_admissibility_fail graph world) as Hfail.
  split; [done|].
  destruct (relation_admissibility_status_cases graph world) as [Hs|Hs];
    rewrite Hs in Hfail |- *.
  - split; [|done]. intros _ sem_rel Hin Hbad.
    assert (PASS = FAIL) as [=]. apply Hfail. by exists sem_rel.
  - split; [done|]. intros Hnone.
    destruct (proj1 Hfail eq_refl) as (sem_rel & Hin & Hbad).
    by destruct (Hnone sem_rel Hin).
Qed.

(** X29. [add_relation] does not check the endpoints: after an edge is
    added from or to an identifier that names no element, Relation
    Admissibility has status FAIL and the world is not admissible, whatever
    the graph. *)
Theorem add_relation_dangling_fails graph world relation source_id target_id
  provenance :
  SemanticWorld.get_element_by_id world source_id = None
  ∨ SemanticWorld.get_element_by_id world target_id = None →
  let world' :=
    (SemanticWorld.add_relation world relation source_id target_id provenance).1 in
  ConditionResult.status (_check_relation_admissibility graph world') = FAIL
  ∧ AdmissibilityResult.is_admissible (check_admissibility graph world') = false.
Proof.
  intros Hdangling. cbn zeta.
  assert (ConditionResult.status
            (_check_relation_admissibility graph
               (SemanticWorld.add_relation world relation source_id target_id
                  provenance).1) = FAIL) as Hfail.
  { apply relation_admissibility_fail.
    exists (SemanticRelation.mk relation source_id target_id provenance). split.
    - cbn. apply elem_of_app. right. apply list_elem_of_here.
    - right. unfold SemanticWorld.add_relation, SemanticWorld.get_element_by_id.
      cbn [fst SemanticWorld.elements SemanticRelation.source_id
           SemanticRelation.target_id].
      unfold SemanticWorld.get_element_by_id in Hdangling.
      destruct Hdangling as [-> | ->]; [done|]. by destruct (find _ _). }
  split; [done|].
  unfold AdmissibilityResult.is_admissible, check_admissibility.
  cbn [app AdmissibilityResult.conditions forallb].
  unfold ConditionResult.passed at 2. rewrite Hfail. cbn.
  by rewrite andb_false_r.
Qed.
End RelationAdmissibility.

(** ** Rule evaluation: validity and calls *)

Section MoreEvaluator.
Implicit Types (graph : DomainLanguageGraph.t) (world : SemanticWorld.t).

Lemma bind_nil_iff {X Y} (f : X → list Y) (xs : list X) :
  xs ≫= f = [] ↔ ∀ x, x ∈ xs → f x = [].
Proof.
  induction xs as [|x xs IH].
  - split; [by intros _ ? ?%elem_of_nil|done].
  - rewrite bind_cons. split.
    + intros [Hx Hxs]%app_eq_nil y [->|Hy]%elem_of_cons; [done|].
      by apply IH.
    + intros H. rewrite (H x) by apply list_elem_of_here.
      apply IH. intros y Hy. by apply H, list_elem_of_further.
Qed.

Lemma length_zero_iff {X} (xs : list X) : Nat.eqb (length xs) 0 = true ↔ xs = [].
Proof. destruct xs; cbn; naive_solver. Qed.

Lemma must_not_findings_nil world rule :
  must_not_findings world rule = [] ↔ ¬ violated world rule.
Proof.
  unfold must_not_findings, violated.
  case_bool_decide as Hop; [|naive_solver].
  destruct (NormativeTarget.condition (NormativeRule.target rule)) as [condition|].
  - destruct (Callable.apply condition world) as [violation|e]; [|naive_solver].
    destruct (Py.truthy violation); naive_solver.
  - destruct (NormativeTarget.element (NormativeRule.target rule)) as [entity| | |];
      try naive_solver.
    cbn zeta.
    destruct (SemanticWorld.get_elements_by_type world entity) as [|elem found]
      eqn:Hfound; cbn [length Nat.eqb negb].
    + split; [|done]. intros _ (_ & elem & Hin & Htype).
      assert (elem ∈ SemanticWorld.get_elements_by_type world entity) as Hel
        by by apply get_elements_by_type_spec.
      rewrite Hfound in Hel. by apply elem_of_nil in Hel.
    + split; [done|]. intros Hno. destruct Hno. split; [done|]. exists elem.
      apply get_elements_by_type_spec. rewrite Hfound. apply list_elem_of_here.
Qed.

Lemma constraint_findings_nil lang world constraint :
  constraint_findings lang world constraint = [] ↔ ¬ broken world constraint.
Proof.
  unfold constraint_findings, broken.
  destruct (Callable.apply _ world) as [satisfied|e]; [|naive_solver].
  destruct (Py.truthy satisfied); cbn; naive_solver.
Qed.

Lemma graph_findings_valid graph world :
  RuleEvaluationResult.is_valid (graph_findings graph world) = true
  ↔ (∀ lang rule,
       lang ∈ Py.dict_values (DomainLanguageGraph.languages graph) →
       rule ∈ DomainLanguage.normative_rules lang →
       ¬ violated world rule)
    ∧ (∀ lang constraint,
         lang ∈ Py.dict_values (DomainLanguageGraph.languages graph) →
         constraint ∈ DomainLanguage.constraints lang →
         ¬ broken world constraint).
Proof.
  rewrite graph_findings_lists. unfold RuleEvaluationResult.is_valid.
  cbn [RuleEvaluationResult.violations RuleEvaluationResult.constraint_failures].
  rewrite andb_true_iff, !length_zero_iff, !bind_nil_iff.
  setoid_rewrite bind_nil_iff.
  setoid_rewrite must_not_findings_nil.
  setoid_rewrite constraint_findings_nil. naive_solver.
Qed.

(** X18. [evaluate_rules] returns, and its result is valid exactly when no
    MUST_NOT rule of the graph is violated (its condition returns a truthy
    value or raises, or it has no condition, targets an entity type and the
    world holds an instance) and no constraint is broken (its predicate
    returns a falsy value, [UNKNOWN] included, or raises).  SHOULD and
    SHOULD_NOT rules never make a result invalid. *)
Theorem evaluate_rules_valid_iff graph world log :
  ∃ result log',
    evaluate_rules graph world log = (Py.Returned result, log')
    ∧ (RuleEvaluationResult.is_valid result = true
       ↔ (∀ lang rule,
            lang ∈ Py.dict_values (DomainLanguageGraph.languages graph) →
            rule ∈ DomainLanguage.normative_rules lang →
            ¬ violated world rule)
         ∧ (∀ lang constraint,
              lang ∈ Py.dict_values (DomainLanguageGraph.languages graph) →
              constraint ∈ DomainLanguage.constraints lang →
              ¬ broken world constraint)).
Proof.
  eexists _, _. split; [apply evaluate_rules_run|apply graph_findings_valid].
Qed.

Lemma rule_calls_elem op rule fid :
  fid ∈ rule_calls op rule
  ↔ NormativeRule.operator rule = op
    ∧ ∃ condition,
        NormativeTarget.condition (NormativeRule.target rule) = Some condition
        ∧ Callable.fid condition = fid.
Proof.
  unfold rule_calls. case_bool_decide; [|rewrite elem_of_nil; naive_solver].
  destruct (NormativeTarget.condition _) as [condition|].
  - rewrite list_elem_of_singleton. naive_solver.
  - rewrite elem_of_nil. naive_solver.
Qed.

Lemma rule_calls_length (rules : list NormativeRule.t) :
  length (rules ≫= rule_calls MUST_NOT) + length (rules ≫= rule_calls SHOULD)
  + length (rules ≫= rule_calls SHOULD_NOT)
  = length (filter (fun rule => called rule = true) rules).
Proof.
  induction rules as [|rule rules IH]; [done|].
  rewrite !bind_cons, !length_app.
  destruct (called rule) eqn:Hcalled.
  - rewrite filter_cons_True by done. cbn [length]. rewrite <- IH. clear IH.
    revert Hcalled. unfold called, conditional, rule_calls.
    destruct (NormativeRule.operator rule),
      (NormativeTarget.condition (NormativeRule.target rule)) as [condition|];
      intros Hcalled; vm_compute in Hcalled; try done;
      repeat case_bool_decide; try done; cbn [length]; lia.
  - rewrite filter_cons_False by (by rewrite Hcalled). rewrite <- IH. clear IH.
    revert Hcalled. unfold called, conditional, rule_calls.
    destruct (NormativeRule.operator rule),
      (NormativeTarget.condition (NormativeRule.target rule)) as [condition|];
      intros Hcalled; vm_compute in Hcalled; try done;
      repeat case_bool_decide; try done; cbn [length]; lia.
Qed.

(** X19. The callables [evaluate_rules] calls are the conditions of the
    MUST_NOT, SHOULD and SHOULD_NOT rules and the predicates of the
    constraints of the languages of the graph, and no other: the condition
    of a MUST or MAY rule is never called.  Each of them is called once. *)
Theorem evaluate_rules_calls graph world log :
  ∃ result calls,
    evaluate_rules graph world log = (Py.Returned result, log ++ calls)
    ∧ (∀ fid,
         fid ∈ calls
         ↔ (∃ lang rule condition,
              lang ∈ Py.dict_values (DomainLanguageGraph.languages graph)
              ∧ rule ∈ DomainLanguage.normative_rules lang
              ∧ NormativeRule.operator rule ∈ [MUST_NOT; SHOULD; SHOULD_NOT]
              ∧ NormativeTarget.condition (NormativeRule.target rule)
                = Some condition
              ∧ Callable.fid condition = fid)
           ∨ (∃ lang constraint,
                lang ∈ Py.dict_values (DomainLanguageGraph.languages graph)
                ∧ constraint ∈ DomainLanguage.constraints lang
                ∧ Callable.fid (Constraint.predicate constraint) = fid))
    ∧ length calls
      = sum_list_with
          (fun lang =>
             length (filter (fun rule => called rule = true)
                       (DomainLanguage.normative_rules lang))
             + length (DomainLanguage.constraints lang))
          (Py.dict_values (DomainLanguageGraph.languages graph)).
Proof.
  eexists _, _. split; [apply evaluate_rules_run|]. split.
  - intros fid. unfold graph_calls. rewrite list_elem_of_bind.
    unfold language_calls. setoid_rewrite elem_of_app.
    setoid_rewrite elem_of_app. setoid_rewrite elem_of_app.
    setoid_rewrite list_elem_of_bind. setoid_rewrite rule_calls_elem.
    setoid_rewrite list_elem_of_fmap.
    split.
    + intros (lang & Hfid & Hlang).
      destruct Hfid as [(rule & (Hop & c & Hc & Hf) & Hr)
                       |[(rule & (Hop & c & Hc & Hf) & Hr)
                        |[(rule & (Hop & c & Hc & Hf) & Hr)
                         |(constraint & Hf & Hc)]]].
      * left. exists lang, rule, c. rewrite Hop. split_and!; try done.
        apply list_elem_of_here.
      * left. exists lang, rule, c. rewrite Hop. split_and!; try done.
        apply list_elem_of_further, list_elem_of_here.
      * left. exists lang, rule, c. rewrite Hop. split_and!; try done.
        do 2 apply list_elem_of_further. apply list_elem_of_here.
      * right. by exists lang, constraint.
    + intros [(lang & rule & c & Hlang & Hr & Hop & Hc & Hf)
             |(lang & constraint & Hlang & Hc & Hf)].
      * exists lang. split; [|done].
        apply elem_of_cons in Hop as [Hop|Hop];
          [left; exists rule; naive_solver|].
        apply elem_of_cons in Hop as [Hop|Hop];
          [right; left; exists rule; naive_solver|].
        apply elem_of_cons in Hop as [Hop|Hop];
          [right; right; left; exists rule; naive_solver|].
        by apply elem_of_nil in Hop.
      * exists lang. split; [|done]. right. right. right. by exists constraint.
  - unfold graph_calls.
    induction (Py.dict_values (DomainLanguageGraph.languages graph))
      as [|lang langs IH]; [done|].
    rewrite bind_cons, length_app, IH. cbn [sum_list_with].
    f_equal. unfold language_calls.
    rewrite !length_app, length_fmap, <- rule_calls_length. lia.
Qed.

(** X17. [validate] returns five conditions; its verdict is the
    conjunction of the verdict of [check_admissibility] and the verdict of
    [evaluate_rules] on the same graph and world, it makes the calls
    [evaluate_rules] makes, and it reports unknowns exactly when
    [check_admissibility] does. *)
Theorem validate_composes_layers graph world log :
  ∃ result rules log',
    validate graph world log = (Py.Returned result, log')
    ∧ evaluate_rules graph world log = (Py.Returned rules, log')
    ∧ length (ValidationResult.conditions result) = 5
    ∧ ValidationResult.is_valid result
      = AdmissibilityResult.is_admissible (check_admissibility graph world)
        && RuleEvaluationResult.is_valid rules
    ∧ ValidationResult.has_unknowns result
      = AdmissibilityResult.has_unknowns (check_admissibility graph world).
Proof.
  destruct (check_consistency_run graph world log)
    as (consistency & Hrun & Hnumber & Hpassed).
  destruct (validate_run graph world log) as (consistency' & Hrun' & ->).
  rewrite Hrun in Hrun'. simplify_eq.
  eexists _, _, _. split; [reflexivity|]. split; [apply evaluate_rules_run|].
  split; [done|].
  unfold ValidationResult.is_valid, ValidationResult.has_unknowns,
    AdmissibilityResult.is_admissible, AdmissibilityResult.has_unknowns,
    check_admissibility.
  cbn [app ValidationResult.conditions AdmissibilityResult.conditions
       forallb existsb].
  rewrite Hpassed. split.
  - change (ConditionResult.passed (_check_no_inference world)) with true.
    by rewrite !andb_true_r, andb_true_l, !andb_assoc.
  - assert (ConditionResult.status consistency' ≠ UNKNOWN_PRESENT) as Hne.
    { intros Hu. revert Hrun.
      unfold _check_consistency, mbind, M_bind, Py.bind.
      rewrite evaluate_rules_run. cbn zeta.
      destruct (foldl _ _ (RuleEvaluationResult.constraint_failures _))
        as [details [|]]; cbv [mret M_ret Py.ret]; intros; simplify_eq; done. }
    rewrite (bool_decide_eq_false_2 _ Hne). by rewrite !orb_false_r.
Qed.
End MoreEvaluator.

(** ** The builder API of languages and worlds *)

Section Builders.
Implicit Types (self : DomainLanguage.t) (world : SemanticWorld.t).

Lemma find_snoc {X} (p : X → bool) (xs : list X) (x : X) :
  find p (xs ++ [x])
  = match find p xs with
    | Some y => Some y
    | None => if p x then Some x else None
    end.
Proof.
  induction xs as [|y xs IH]; cbn [app find]; [done|].
  by destruct (p y).
Qed.

Lemma dict_set_elem {K V} `{EqDecision K} (d : Py.dict K V) (k : K) (v : V) :
  (k, v) ∈ Py.dict_set d k v.
Proof.
  induction d as [|[k0 v0] d IH]; cbn; [apply list_elem_of_here|].
  case_decide; [apply list_elem_of_here|by apply list_elem_of_further].
Qed.

Lemma dict_set_keeps {K V} `{EqDecision K} (d : Py.dict K V) (k k' : K) (v v' : V) :
  (k', v') ∈ d →
  (k', v') ∈ Py.dict_set d k v ∨ (k' = k ∧ Py.dict_get d k = Some v').
Proof.
  induction d as [|[k0 v0] d IH]; cbn; [by intros ?%elem_of_nil|].
  intros [Heq|Hin]%elem_of_cons.
  - simplify_eq. case_decide; [by right|]. left. apply list_elem_of_here.
  - case_decide.
    + left. by apply list_elem_of_further.
    + destruct (IH Hin) as [?|[? ?]]; [left; by apply list_elem_of_further|by right].
Qed.

Lemma add_attribute_vocab self entity name value_type optionality :
  let self' :=
    (DomainLanguage.add_attribute self entity name value_type optionality).1 in
  let attr :=
    (DomainLanguage.add_attribute self entity name value_type optionality).2 in
  EAttribute attr ∈ DomainLanguage.vocab self'
  ∧ (∀ x, x ∈ DomainLanguage.vocab self → x ∈ DomainLanguage.vocab self').
Proof.
  cbn zeta. unfold DomainLanguage.add_attribute. cbn [fst snd]. split.
  - apply vocab_spec. right. left. eexists _, _. split_and!; [|  |done].
    + apply list_elem_of_fmap. eexists (_, _). split; [done|].
      apply dict_set_elem.
    + apply elem_of_app. right. apply list_elem_of_here.
  - intros x. rewrite !vocab_spec. cbn [DomainLanguage.entities
      DomainLanguage.attributes DomainLanguage.operations].
    intros [?|[(attrs & a & Hattrs & Ha & ->)|?]]; [by left| |by right; right].
    right. left.
    apply list_elem_of_fmap in Hattrs as ([k attrs'] & -> & Hin). cbn [snd] in Ha.
    destruct (dict_set_keeps (DomainLanguage.attributes self) entity k
                (default [] (Py.dict_get (DomainLanguage.attributes self) entity)
                 ++ [Attribute.mk name entity value_type optionality])
                attrs' Hin) as [Hkept|[-> Hget]].
    + exists attrs', a. split_and!; [|done|done].
      apply list_elem_of_fmap. by exists (k, attrs').
    + eexists _, a. split_and!; [| |done].
      * apply list_elem_of_fmap. eexists (_, _). split; [done|].
        apply dict_set_elem.
      * rewrite Hget. cbn. apply elem_of_app. by left.
Qed.

(** X20. [get_attribute] answers the first attribute of that name declared
    on the entity: after [add_attribute] it answers the attribute that was
    there, or else the new one, and the other lookups are unchanged.  The
    attribute declared is in the vocabulary, whether or not the entity is
    declared, and nothing leaves the vocabulary. *)
Theorem add_attribute_get_attribute self entity name value_type optionality :
  let self' :=
    (DomainLanguage.add_attribute self entity name value_type optionality).1 in
  let attr :=
    (DomainLanguage.add_attribute self entity name value_type optionality).2 in
  DomainLanguage.get_attribute self' entity name
  = Some (default attr (DomainLanguage.get_attribute self entity name))
  ∧ (∀ e n, e ≠ entity ∨ n ≠ name →
            DomainLanguage.get_attribute self' e n
            = DomainLanguage.get_attribute self e n)
  ∧ EAttribute attr ∈ DomainLanguage.vocab self'
  ∧ (∀ x, x ∈ DomainLanguage.vocab self → x ∈ DomainLanguage.vocab self').
Proof.
  pose proof (add_attribute_vocab self entity name value_type optionality)
    as [Hin Hmono].
  cbn zeta. split_and!; [| |done|done];
    unfold DomainLanguage.add_attribute, DomainLanguage.get_attribute;
    cbn [fst snd DomainLanguage.attributes].
  - rewrite dict_get_set, decide_True by done. cbn [default from_option id].
    rewrite find_snoc. cbn [Attribute.name].
    rewrite bool_decide_eq_true_2 by done. by destruct (find _ _).
  - intros e n Hne. rewrite dict_get_set.
    destruct (decide (entity = e)) as [<-|]; [|done].
    cbn [default from_option id]. rewrite find_snoc. cbn [Attribute.name].
    destruct Hne as [?|?]; [done|].
    rewrite bool_decide_eq_false_2 by done. by destruct (find _ _).
Qed.

(** Resolvability looks at the vocabulary, the relations and the imports. *)
Lemma resolvable_ext self self' resolved x :
  (∀ y, y ∈ DomainLanguage.vocab self → y ∈ DomainLanguage.vocab self') →
  (∀ rel, rel ∈ DomainLanguage.relations self →
          rel ∈ DomainLanguage.relations self') →
  DomainLanguage.imports self' = DomainLanguage.imports self →
  resolvable self resolved x → resolvable self' resolved x.
Proof.
  intros Hvocab Hrels Himports. unfold resolvable. rewrite Himports.
  naive_solver.
Qed.

Lemma unresolved_ext self self' resolved imp :
  DomainLanguage.imports self' = DomainLanguage.imports self →
  unresolved self' resolved imp → unresolved self resolved imp.
Proof. intros Himports. unfold unresolved. by rewrite Himports. Qed.

(** A rule added on an element that resolves adds no closure error. *)
Lemma closure_after_rule self self1 resolved oid op x condition description :
  (∀ y, resolvable self resolved y → resolvable self1 resolved y) →
  DomainLanguage.imports self1 = DomainLanguage.imports self →
  DomainLanguage.normative_rules self1 = DomainLanguage.normative_rules self →
  resolvable self1 resolved x →
  ∀ error,
    error ∈ DomainLanguage.check_closure
              (DomainLanguage.add_normative_rule self1 oid op x condition
                 description).1 resolved →
    error ∈ DomainLanguage.check_closure self resolved.
Proof.
  intros Hmono Himports Hrules Hx error.
  set (self2 := (DomainLanguage.add_normative_rule self1 oid op x condition
                   description).1).
  destruct (check_closure_errors self2 resolved)
    as (ie2 & re2 & -> & Hie2 & Hre2).
  destruct (check_closure_errors self resolved)
    as (ie & re & -> & Hie & Hre).
  assert (∀ y, resolvable self1 resolved y → resolvable self2 resolved y) as H12.
  { intros y. by apply resolvable_ext. }
  rewrite !elem_of_app, Hie2, Hre2, Hie, Hre.
  intros [(imp & Himp & ->)|(rule & Hrule & Hnot & ->)].
  - left. exists imp. split; [|done].
    apply (unresolved_ext self self1); [done|].
    by apply (unresolved_ext self1 self2).
  - right. exists rule. split_and!; [| |done].
    + subst self2. cbn in Hrule. rewrite Hrules in Hrule.
      apply elem_of_app in Hrule as [? | ->%list_elem_of_singleton]; [done|].
      destruct Hnot. apply H12. by cbn.
    + intros Hres. apply Hnot, H12, Hmono, Hres.
Qed.

(** X21. Declaring an entity, attribute, operation or relation and then
    adding a rule on what was declared adds no closure error: every error
    [check_closure] reports afterwards was reported before. *)
Theorem rule_on_declared_element_is_closed self resolved oid op condition
  description :
  (∀ name error,
     let declared := DomainLanguage.add_entity self name in
     error ∈ DomainLanguage.check_closure
               (DomainLanguage.add_normative_rule declared.1 oid op
                  (EEntity declared.2) condition description).1 resolved →
     error ∈ DomainLanguage.check_closure self resolved)
  ∧ (∀ entity name value_type optionality error,
       let declared :=
         DomainLanguage.add_attribute self entity name value_type optionality in
       error ∈ DomainLanguage.check_closure
                 (DomainLanguage.add_normative_rule declared.1 oid op
                    (EAttribute declared.2) condition description).1 resolved →
       error ∈ DomainLanguage.check_closure self resolved)
  ∧ (∀ name error,
       let declared := DomainLanguage.add_operation self name in
       error ∈ DomainLanguage.check_closure
                 (DomainLanguage.add_normative_rule declared.1 oid op
                    (EOperation declared.2) condition description).1 resolved →
       error ∈ DomainLanguage.check_closure self resolved)
  ∧ (∀ name source target error,
       let declared := DomainLanguage.add_relation self name source target in
       error ∈ DomainLanguage.check_closure
                 (DomainLanguage.add_normative_rule declared.1 oid op
                    (ERelation declared.2) condition description).1 resolved →
       error ∈ DomainLanguage.check_closure self resolved).
Proof.
  split_and!.
  - intros name error. cbn zeta. apply closure_after_rule; try done.
    + intros y. apply resolvable_ext; try done.
      intros z. rewrite !vocab_spec. cbn. setoid_rewrite set_add_elem.
      naive_solver.
    + left. apply vocab_spec. left. eexists. split; [|done].
      cbn. apply set_add_elem. by right.
  - intros entity name value_type optionality error. cbn zeta.
    pose proof (add_attribute_vocab self entity name value_type
                  optionality) as [Hin Hmono].
    apply closure_after_rule; try done.
    + intros y. by apply resolvable_ext.
    + by left.
  - intros name error. cbn zeta. apply closure_after_rule; try done.
    + intros y. apply resolvable_ext; try done.
      intros z. rewrite !vocab_spec. cbn. setoid_rewrite set_add_elem.
      naive_solver.
    + left. apply vocab_spec. right. right. eexists. split; [|done].
      cbn. apply set_add_elem. by right.
  - intros name source target error. cbn zeta.
    apply closure_after_rule; try done.
    + intros y. apply resolvable_ext; try done.
      intros rel Hrel. cbn. apply set_add_elem. by left.
    + right. left. eexists. split; [|done]. cbn. apply set_add_elem. by right.
Qed.

(** X22. [add_element] does not check that the identifier is new:
    [get_element_by_id] answers the first element added under an identifier,
    so an element added under a used identifier is shadowed.  The other
    lookups are unchanged, the element is appended to the instances of its
    type, and the relations are as they were. *)
Theorem add_element_lookup world entity_type identity attribute_values
  provenance :
  let world' :=
    (SemanticWorld.add_element world entity_type identity attribute_values
       provenance).1 in
  let elem :=
    (SemanticWorld.add_element world entity_type identity attribute_values
       provenance).2 in
  SemanticWorld.get_element_by_id world' identity
  = Some (default elem (SemanticWorld.get_element_by_id world identity))
  ∧ (∀ other, other ≠ identity →
              SemanticWorld.get_element_by_id world' other
              = SemanticWorld.get_element_by_id world other)
  ∧ (∀ entity,
       SemanticWorld.get_elements_by_type world' entity
       = SemanticWorld.get_elements_by_type world entity
         ++ (if decide (entity = entity_type) then [elem] else []))
  ∧ SemanticWorld.relations world' = SemanticWorld.relations world.
Proof.
  cbn zeta. unfold SemanticWorld.add_element, SemanticWorld.get_element_by_id,
    SemanticWorld.get_elements_by_type.
  cbn [fst snd SemanticWorld.elements SemanticWorld.relations]. split_and!.
  - rewrite find_snoc. cbn [SemanticElement.identity].
    rewrite bool_decide_eq_true_2 by done. by destruct (find _ _).
  - intros other Hne. rewrite find_snoc. cbn [SemanticElement.identity].
    rewrite bool_decide_eq_false_2 by done. by destruct (find _ _).
  - intros entity. rewrite filter_app. f_equal.
    rewrite filter_cons, filter_nil. cbn [SemanticElement.entity_type].
    destruct (decide (entity = entity_type)) as [->|Hne].
    + by rewrite decide_True.
    + by rewrite decide_False.
  - done.
Qed.
End Builders.

(** ** The import graph: every cycle is detected *)

Section Completeness.
Import DomainLanguageGraph.
Implicit Types (adj : gmap string (list string)) (p : list string).
Implicit Types (st : DfsState).






End Completeness.

(** ** Self-validation *)

Section SelfValidation.
Import DomainLanguageGraph.
Implicit Types (graph : DomainLanguageGraph.t).













(** X26. With an edge one of whose endpoints is not a language of the
    graph, which [add_edge] refuses but the public list of edges allows,
    [self_validate] raises instead of returning a result. *)
Theorem self_validate_raises graph edge :
  edge ∈ edges graph →
  DomLGEdge.source edge ∉ Py.dict_keys (languages graph)
  ∨ DomLGEdge.target edge ∉ Py.dict_keys (languages graph) →
  ∃ exc, self_validate graph = Some (Py.Raised exc).
Proof.
  intros Hedge Hout.
  destruct (detect_import_cycles_run graph) as (found & Hfound & _).
  unfold self_validate, structural_validation.
  rewrite Hfound. cbn [mbind option_bind].
  unfold mbind, Outcome_bind, mret, Outcome_ret.
  destruct (check_cross_references graph) as [cross|exc] eqn:Hcross;
    cbn [Py.then_]; [|by exists exc].
  assert (DomLGEdge.target edge ∉ Py.dict_keys (languages graph)) as Htarget.
  { destruct Hout as [Hsource|?]; [|done]. exfalso.
    unfold check_cross_references in Hcross. cbn zeta in Hcross.
    destruct (index_edges_raises DomLGEdge.source DomLGEdge.target (edges graph)
                ((fun name => (name, [])) <$> Py.dict_keys (languages graph)) edge)
      as (exc & Hrun); [done|by rewrite (proj1 (initial_index _ ""))|].
    unfold mbind, Outcome_bind in Hcross. by rewrite Hrun in Hcross. }
  destruct (index_edges_raises DomLGEdge.target DomLGEdge.source (edges graph)
              ((fun name => (name, [])) <$> Py.dict_keys (languages graph)) edge)
    as (exc & Hrun); [done|by rewrite (proj1 (initial_index _ ""))|].
  exists exc. by rewrite Hrun.
Qed.

End SelfValidation.

(** ** The verdicts, in terms of the graph and the world *)

Section Verdicts.
Implicit Types (graph : DomainLanguageGraph.t) (world : SemanticWorld.t).

Lemma passed_iff (c : ConditionResult.t) :
  ConditionResult.passed c = true ↔ ConditionResult.status c ≠ FAIL.
Proof.
  unfold ConditionResult.passed. destruct (ConditionResult.status c); cbn;
    naive_solver.
Qed.

Lemma is_admissible_iff graph world :
  AdmissibilityResult.is_admissible (check_admissibility graph world) = true
  ↔ admissible graph world.
Proof.
  unfold AdmissibilityResult.is_admissible, check_admissibility, admissible.
  cbn [app AdmissibilityResult.conditions forallb].
  change (ConditionResult.passed (_check_no_inference world)) with true.
  rewrite !andb_true_r, !andb_true_iff, !passed_iff.
  rewrite completeness_fails_iff, relation_admissibility_fail.
  pose proof (vocabulary_closure_pass graph world) as Hpass.
  destruct (vocabulary_closure_status_cases graph world) as [Hs|Hs];
    rewrite Hs in Hpass |- *.
  - destruct (proj1 Hpass eq_refl). naive_solver.
  - split; [by intros ([] & _)|]. intros (Helems & Hrels & _).
    by assert (FAIL = PASS) as [=] by by apply Hpass.
Qed.

(** X27. A world is admissible exactly when every element has an entity
    type some language declares, every asserted edge has a relation some
    language declares and is admissible, and no MUST requirement is unmet;
    [validate] returns, and the world is valid exactly when it is
    admissible, no MUST_NOT rule is violated and no constraint is broken.
    Provenance, SHOULD and SHOULD_NOT rules and [UNKNOWN] values of required
    attributes never change either verdict. *)
Theorem validate_valid_iff graph world log :
  (AdmissibilityResult.is_admissible (check_admissibility graph world) = true
   ↔ admissible graph world)
  ∧ ∃ result log',
      validate graph world log = (Py.Returned result, log')
      ∧ (ValidationResult.is_valid result = true
         ↔ admissible graph world
           ∧ (∀ lang rule,
                lang ∈ Py.dict_values (DomainLanguageGraph.languages graph) →
                rule ∈ DomainLanguage.normative_rules lang →
                ¬ violated world rule)
           ∧ (∀ lang constraint,
                lang ∈ Py.dict_values (DomainLanguageGraph.languages graph) →
                constraint ∈ DomainLanguage.constraints lang →
                ¬ broken world constraint)).
Proof.
  split; [apply is_admissible_iff|].
  destruct (check_consistency_run graph world log)
    as (consistency & Hrun & _ & Hpassed).
  destruct (validate_run graph world log) as (consistency' & Hrun' & ->).
  rewrite Hrun in Hrun'. simplify_eq.
  eexists _, _. split; [reflexivity|].
  rewrite <- graph_findings_valid, <- is_admissible_iff, <- Hpassed.
  unfold ValidationResult.is_valid, AdmissibilityResult.is_admissible,
    check_admissibility.
  cbn [app ValidationResult.conditions AdmissibilityResult.conditions forallb].
  rewrite !andb_true_iff. naive_solver.
Qed.
End Verdicts.

(** ** The properties above on concrete domains and worlds *)

Section MoreWorked.

Import Example.

(** X4 on three rules on [Person]: three findings. *)
Lemma check_all_interactions_count_witness :
  (2 * length (check_all_interactions
                 [must_person; must_not_person; must_not_person_if])
   = 3 * (3 - 1))%nat.
Proof.
  apply (check_all_interactions_count
           [must_person; must_not_person; must_not_person_if] (EEntity Person)).
  intros rule Hrule.
  repeat (apply elem_of_cons in Hrule as [-> | Hrule]; [reflexivity|]).
  by apply elem_of_nil in Hrule.
Defined.

(** X6 on two rules made without an override reference. *)
Lemma no_override_without_reference_witness :
  Forall (fun d => InteractionDiagnostic.finding_type d ≠ OVERRIDE)
         (check_all_interactions [must_person; must_not_person]).
Proof.
  apply (no_override_without_reference [must_person; must_not_person]).
  intros rule Hrule.
  repeat (apply elem_of_cons in Hrule as [-> | Hrule]; [reflexivity|]).
  by apply elem_of_nil in Hrule.
Defined.


(** X9: a second language named [A] is refused, one named [C] is added. *)
Lemma add_language_spec_witness :
  (∃ e, DomainLanguageGraph.add_language b_imports_a (empty_language "A")
        = Py.Raised e)
  ∧ ∃ self',
      DomainLanguageGraph.add_language b_imports_a (empty_language "C")
      = Py.Returned self'
      ∧ Py.dict_get (DomainLanguageGraph.languages self') "C"
        = Some (empty_language "C")
      ∧ keyed_by_name self'.
Proof.
  split.
  - apply (proj1 (add_language_spec b_imports_a (empty_language "A"))).
    apply (bool_decide_unpack _). vm_compute. exact I.
  - destruct (proj2 (add_language_spec b_imports_a (empty_language "C")))
      as (self' & Hrun & _ & _ & Hget & _ & Hkeyed & _).
    + apply (bool_decide_unpack _). vm_compute. exact I.
    + exists self'. split; [exact Hrun|]. split; [exact Hget|].
      apply Hkeyed. apply (bool_decide_unpack _). vm_compute. exact I.
Defined.

(** X10: an edge between two languages of the graph is added. *)
Lemma add_edge_spec_witness :
  ∃ self' edge,
    DomainLanguageGraph.add_edge b_imports_a "A" "B" IMPORTS
    = Py.Returned (self', edge)
    ∧ import_edge self' "A" "B"
    ∧ edges_closed self'.
Proof.
  destruct (add_edge_spec b_imports_a "A" "B" IMPORTS) as [Hreturns Hedge].
  destruct (proj1 Hreturns) as (self' & edge & Hrun).
  - split; apply (bool_decide_unpack _); vm_compute; exact I.
  - exists self', edge. split; [exact Hrun|].
    destruct (Hedge self' edge Hrun) as (_ & _ & _ & Himports & Hclosed & _).
    split; [exact Himports|]. apply Hclosed.
    apply (bool_decide_unpack _). vm_compute. exact I.
Defined.

(** X11 on [B] declaring an import of [A] with the edge to it: no error. *)
Lemma check_cross_references_spec_witness :
  ∃ errors,
    DomainLanguageGraph.check_cross_references b_declares_a = Py.Returned errors
    ∧ errors = [].
Proof.
  destruct (check_cross_references_spec b_declares_a)
    as (errors & Hrun & _ & Hclean).
  - apply (bool_decide_unpack _). vm_compute. exact I.
  - apply (bool_decide_unpack _). vm_compute. exact I.
  - exists errors. split; [exact Hrun|]. apply Hclean.
    intros lang imp Hlang Himp.
    repeat (apply elem_of_cons in Hlang as [-> | Hlang]);
      [by apply elem_of_nil in Himp| |by apply elem_of_nil in Hlang].
    apply list_elem_of_singleton in Himp as ->. split.
    + apply (bool_decide_unpack _). vm_compute. exact I.
    + exists (DomLGEdge.mk "B" "A" IMPORTS).
      split; [apply list_elem_of_here|]. split; reflexivity.
Defined.

(** X12 on an edge from [X], which is no language. *)
Lemma check_cross_references_unknown_source_witness :
  ∃ exc, DomainLanguageGraph.check_cross_references dangling_edge = Py.Raised exc.
Proof.
  apply (check_cross_references_unknown_source dangling_edge
           (DomLGEdge.mk "X" "A" IMPORTS)).
  - apply list_elem_of_here.
  - apply (bool_decide_unpack _). vm_compute. exact I.
Defined.

(** X13 on a world holding a [Person] under the language declaring it. *)
Lemma vocabulary_closure_passes_iff_witness :
  ConditionResult.status
    (_check_vocabulary_closure (graph (language [] [] []))
       (world [alice_age_unknown])) = PASS.
Proof.
  apply (proj2 (vocabulary_closure_passes_iff (graph (language [] [] []))
                  (world [alice_age_unknown]))).
  split.
  - intros elem Helem. apply list_elem_of_singleton in Helem as ->.
    exists (language [] [] []). split; apply list_elem_of_here.
  - intros rel Hrel. by apply elem_of_nil in Hrel.
Defined.

(** X14 on an edge to an identifier that names no element. *)
Lemma relation_admissibility_fails_iff_witness :
  ConditionResult.status
    (_check_relation_admissibility (graph (language [] [] []))
       alice_knows_nobody) = FAIL.
Proof.
  apply (proj1 (relation_admissibility_fails_iff (graph (language [] [] []))
                  alice_knows_nobody)).
  exists (SemanticRelation.mk knows "p1" "p2" "input").
  split; [apply list_elem_of_here|]. right. vm_compute. exact I.
Defined.

(** X18 on a MUST_NOT rule whose condition answers [UNKNOWN]: valid. *)
Lemma evaluate_rules_valid_iff_witness :
  ∃ result log',
    evaluate_rules (graph (language [must_not_unknown] [] []))
      (world [alice_age_unknown]) [] = (Py.Returned result, log')
    ∧ RuleEvaluationResult.is_valid result = true.
Proof.
  destruct (evaluate_rules_valid_iff (graph (language [must_not_unknown] [] []))
              (world [alice_age_unknown]) [])
    as (result & log' & Hrun & Hvalid).
  exists result, log'. split; [exact Hrun|]. apply Hvalid. split.
  - intros lang rule Hlang Hrule.
    apply list_elem_of_singleton in Hlang as ->.
    apply list_elem_of_singleton in Hrule as ->.
    intros [_ Hviolated]. vm_compute in Hviolated. discriminate Hviolated.
  - intros lang constraint Hlang Hconstraint.
    apply list_elem_of_singleton in Hlang as ->.
    by apply elem_of_nil in Hconstraint.
Defined.

(** X20: declaring a second attribute [name] on [Person] leaves the lookup
    of [age] as it was. *)
Lemma add_attribute_get_attribute_witness :
  DomainLanguage.get_attribute
    (DomainLanguage.add_attribute (language [] [] []) Person "name" None OPTIONAL).1
    Person "age"
  = DomainLanguage.get_attribute (language [] [] []) Person "age".
Proof.
  apply (proj1 (proj2 (add_attribute_get_attribute (language [] [] []) Person
                         "name" None OPTIONAL))).
  right. discriminate.
Defined.

(** X21: an entity declared in an empty language and required by a rule. *)
Lemma rule_on_declared_element_is_closed_witness :
  DomainLanguage.check_closure
    (DomainLanguage.add_normative_rule
       (DomainLanguage.add_entity (empty_language "A") "Robot").1 1 MUST
       (EEntity (DomainLanguage.add_entity (empty_language "A") "Robot").2)
       None "").1 None
  = [].
Proof.
  apply elem_of_nil_inv. intros error Herror.
  apply (proj1 (rule_on_declared_element_is_closed (empty_language "A") None 1
                  MUST None "") "Robot" error) in Herror.
  by apply elem_of_nil in Herror.
Defined.

(** X22: adding a second element under [p1] leaves the lookup of [p2]. *)
Lemma add_element_lookup_witness :
  SemanticWorld.get_element_by_id
    (SemanticWorld.add_element (world [alice_age_unknown]) Person "p1" None
       "input").1 "p2"
  = SemanticWorld.get_element_by_id (world [alice_age_unknown]) "p2".
Proof.
  apply (proj1 (proj2 (add_element_lookup (world [alice_age_unknown]) Person "p1"
                         None "input"))).
  discriminate.
Defined.




(** X26 on an edge from [X], which is no language. *)
Lemma self_validate_raises_witness :
  ∃ exc, self_validate dangling_edge = Some (Py.Raised exc).
Proof.
  apply (self_validate_raises dangling_edge (DomLGEdge.mk "X" "A" IMPORTS)).
  - apply list_elem_of_here.
  - left. apply (bool_decide_unpack _). vm_compute. exact I.
Defined.

(** X27 on a world holding a [Person] whose required age is [UNKNOWN]. *)
Lemma validate_valid_iff_witness :
  admissible (graph (language [must_age] [] [])) (world [alice_age_unknown]).
Proof.
  apply (proj1 (proj1 (validate_valid_iff (graph (language [must_age] [] []))
                         (world [alice_age_unknown]) []))).
  vm_compute. reflexivity.
Defined.


(** X29: an edge from [p1] to [p2], who is not in the world. *)
Lemma add_relation_dangling_fails_witness :
  ConditionResult.status
    (_check_relation_admissibility (graph (language [] [] []))
       (SemanticWorld.add_relation (world [alice_age_unknown]) knows "p1" "p2"
          "input").1) = FAIL.
Proof.
  apply (add_relation_dangling_fails (graph (language [] [] []))
           (world [alice_age_unknown]) knows "p1" "p2" "input").
  right. reflexivity.
Defined.
End MoreWorked.
